(** * BGP speaker of netclaw (mcp-servers/protocol-mcp): path selection,
      agent dispatch, advertisement policy and the connector's shadow RIB.

    Shallow embedding of
      - bgp/path_selection.py   (BestPathSelector)
      - bgp/agent.py            (BGPAgent)
      - connectors/bgp_connector.py (BGPConnector)
    followed by the properties checked against the specification. *)

From Stdlib Require Import ZArith String Ascii List Bool Lia.
From Stdlib Require Import OrderedTypeEx.
From stdpp Require Import gmap strings list fin_maps.

Local Open Scope Z_scope.

(** ** Library functions and collaborators outside the embedded sources *)

(** The OPEN record the agent inspects (bgp/messages.py declares it). *)
Record BGPOpen := mkBGPOpen {
  open_version : Z;
  my_as : Z;
  hold_time : Z;
  bgp_identifier : string
}.

(** Python standard-library calls and classes of modules that are not part
    of the embedded sources.  [None] stands for the exception the call
    raises (ValueError, OSError). *)
Class Externals := {
  (** [ipaddress.ip_address(s)]: the address version (4 or 6) and [int(addr)]. *)
  ip_address : string -> option (Z * Z);
  (** [struct.unpack("!I", socket.inet_aton(s))[0]]. *)
  inet_aton : string -> option Z;
  (** [int(s)] on a string. *)
  py_int : string -> option Z;
  (** [str(n)] on an integer. *)
  py_str : Z -> string;
  (** [BGPOpen.decode(bytes)] of bgp/messages.py; [None] when it returns
      None or raises. *)
  BGPOpen_decode : list Byte.byte -> option BGPOpen;
  (** [ASPathAttribute.as_sequence] of bgp/attributes.py. *)
  as_sequence : list (Z * list Z) -> list Z
}.

(** ** Constants *)

(** Modelled from the spec: bgp/constants.py is not among the sources; the
    type codes, ORIGIN values and segment types are the ones the data model
    of the specification lists. *)
Definition ATTR_ORIGIN : Z := 1.
Definition ATTR_AS_PATH : Z := 2.
Definition ATTR_NEXT_HOP : Z := 3.
Definition ATTR_MED : Z := 4.
Definition ATTR_LOCAL_PREF : Z := 5.

Definition ORIGIN_IGP : Z := 0.
Definition ORIGIN_EGP : Z := 1.
Definition ORIGIN_INCOMPLETE : Z := 2.

Definition AS_SET : Z := 1.
Definition AS_SEQUENCE : Z := 2.

Definition MSG_OPEN : Z := 1.
Definition BGP_HEADER_SIZE : nat := 19.

(** Modelled from the spec: the six FSM states of section 4.2 (the
    STATE_* constants of bgp/constants.py). *)
Inductive FsmState :=
| STATE_IDLE
| STATE_CONNECT
| STATE_ACTIVE
| STATE_OPENSENT
| STATE_OPENCONFIRM
| STATE_ESTABLISHED.

#[global] Instance FsmState_eq_dec : EqDecision FsmState.
Proof. solve_decision. Defined.

(** ** Path attributes and routes *)

(** An AS_PATH segment: (segment type, AS numbers). *)
Definition Segment : Type := Z * list Z.

(** The attribute objects of bgp/attributes.py, one constructor per class
    the agent builds or inspects; any other attribute keeps its type code
    and raw value. *)
Inductive PathAttribute :=
| OriginAttribute (origin : Z)
| ASPathAttribute (segments : list Segment)
| NextHopAttribute (next_hop : string)
| MEDAttribute (med : Z)
| LocalPrefAttribute (local_pref : Z)
| OtherAttribute (code : Z) (value : list Z).

Definition type_code (attr : PathAttribute) : Z :=
  match attr with
  | OriginAttribute _ => ATTR_ORIGIN
  | ASPathAttribute _ => ATTR_AS_PATH
  | NextHopAttribute _ => ATTR_NEXT_HOP
  | MEDAttribute _ => ATTR_MED
  | LocalPrefAttribute _ => ATTR_LOCAL_PREF
  | OtherAttribute c _ => c
  end.

(** [BGPRoute.path_attributes] is a dict from type code to attribute object
    in which the object under each recognised code is of that code's class
    (the decoder and [originate_route] build it so).  The record holds the
    payload under each recognised code; [None] is "key absent", so
    [has_attribute(ATTR_X)] is "field X is [Some]". *)
Record PathAttributes := mkPathAttributes {
  attr_origin : option Z;
  attr_as_path : option (list Segment);
  attr_next_hop : option string;
  attr_med : option Z;
  attr_local_pref : option Z;
  attr_other : gmap Z (list Z)
}.

(** The route record (bgp/rib.py declares the dataclass).  [timestamp] is
    the finite float of [time.time()]; every finite double is an integer
    multiple of 2^-1074, and the embedding stores that integer, which
    preserves [<] and [>]. *)
Record BGPRoute := mkBGPRoute {
  prefix : string;
  prefix_len : Z;
  path_attributes : PathAttributes;
  peer_id : string;
  peer_ip : string;
  timestamp : Z;
  source : string;
  afi : Z;
  safi : Z
}.

(** Modelled from the spec: the [BGPRoute.next_hop] property of bgp/rib.py
    is not among the sources; it is the address carried by the NEXT_HOP
    attribute, None without one. *)
Definition route_next_hop (r : BGPRoute) : option string :=
  attr_next_hop (path_attributes r).

(** Modelled from the spec: [ASPathAttribute.length()] of bgp/attributes.py
    is not among the sources; "counts an AS_SET as 1 and each AS_SEQUENCE
    element individually". *)
Fixpoint as_path_length (segments : list Segment) : Z :=
  match segments with
  | [] => 0
  | (seg_type, as_list) :: rest =>
      (if seg_type =? AS_SEQUENCE then Z.of_nat (length as_list)
       else if seg_type =? AS_SET then 1
       else 0) + as_path_length rest
  end.

(** Python truthiness of an optional string: None and the empty string are
    false. *)
Definition str_truthy (s : option string) : bool :=
  match s with
  | None => false
  | Some EmptyString => false
  | Some _ => true
  end.

(** ** bgp/path_selection.py *)

(** Outcome of calling the [igp_cost_lookup] callback: it raises, or it
    returns an optional cost. *)
Inductive LookupResult :=
| LookupRaises
| LookupReturns (cost : option Z).

Record BestPathSelector := mkBestPathSelector {
  sel_local_as : Z;
  sel_router_id : string;
  igp_cost_lookup : option (string -> LookupResult)
}.

Section PathSelection.
Context {E : Externals}.
Variable self : BestPathSelector.

Definition _get_neighbor_as (route : BGPRoute) : option Z :=
  match attr_as_path (path_attributes route) with
  | None => None
  | Some segments =>
      match segments with
      | (seg_type, as_list) :: _ =>
          match as_list with
          | a :: _ => Some a
          | [] => None
          end
      | [] => None
      end
  end.

Definition _compare_local_pref (route_a route_b : BGPRoute) : Z :=
  let local_pref_a := default 100 (attr_local_pref (path_attributes route_a)) in
  let local_pref_b := default 100 (attr_local_pref (path_attributes route_b)) in
  if local_pref_b <? local_pref_a then -1
  else if local_pref_a <? local_pref_b then 1
  else 0.

Definition _compare_as_path_length (route_a route_b : BGPRoute) : Z :=
  let length_a := default 0 (as_path_length <$> attr_as_path (path_attributes route_a)) in
  let length_b := default 0 (as_path_length <$> attr_as_path (path_attributes route_b)) in
  if length_a <? length_b then -1
  else if length_b <? length_a then 1
  else 0.

Definition _compare_origin (route_a route_b : BGPRoute) : Z :=
  let origin_a := default ORIGIN_INCOMPLETE (attr_origin (path_attributes route_a)) in
  let origin_b := default ORIGIN_INCOMPLETE (attr_origin (path_attributes route_b)) in
  if origin_a <? origin_b then -1
  else if origin_b <? origin_a then 1
  else 0.

Definition _compare_med (route_a route_b : BGPRoute) : Z :=
  let neighbor_as_a := _get_neighbor_as route_a in
  let neighbor_as_b := _get_neighbor_as route_b in
  if negb (bool_decide (neighbor_as_a = neighbor_as_b)) then 0
  else
    let med_a := default 0 (attr_med (path_attributes route_a)) in
    let med_b := default 0 (attr_med (path_attributes route_b)) in
    if med_a <? med_b then -1
    else if med_b <? med_a then 1
    else 0.

Definition _compare_ebgp_ibgp (route_a route_b : BGPRoute) : Z :=
  let neighbor_as_a := _get_neighbor_as route_a in
  let neighbor_as_b := _get_neighbor_as route_b in
  let is_ebgp_a := negb (bool_decide (neighbor_as_a = Some (sel_local_as self))) in
  let is_ebgp_b := negb (bool_decide (neighbor_as_b = Some (sel_local_as self))) in
  if is_ebgp_a && negb is_ebgp_b then -1
  else if negb is_ebgp_a && is_ebgp_b then 1
  else 0.

Definition _compare_igp_metric (route_a route_b : BGPRoute) : Z :=
  match igp_cost_lookup self with
  | None => 0
  | Some lookup =>
      let next_hop_a := route_next_hop route_a in
      let next_hop_b := route_next_hop route_b in
      if negb (str_truthy next_hop_a) || negb (str_truthy next_hop_b) then 0
      else
        match next_hop_a, next_hop_b with
        | Some nh_a, Some nh_b =>
            match lookup nh_a with
            | LookupRaises => 0
            | LookupReturns cost_a =>
                match lookup nh_b with
                | LookupRaises => 0
                | LookupReturns cost_b =>
                    match cost_a, cost_b with
                    | None, None => 0
                    | None, Some _ => 1
                    | Some _, None => -1
                    | Some ca, Some cb =>
                        if ca <? cb then -1
                        else if cb <? ca then 1
                        else 0
                    end
                end
            end
        | _, _ => 0
        end
  end.

Definition _compare_age (route_a route_b : BGPRoute) : Z :=
  if timestamp route_a <? timestamp route_b then -1
  else if timestamp route_b <? timestamp route_a then 1
  else 0.

(** [int(ip_address(s))]. *)
Definition ip_address_int (s : string) : option Z := snd <$> ip_address s.

(** The [try] body compares the two integers; a ValueError from either
    [ip_address] call lands in the handler, which compares the strings. *)
Definition compare_ip_or_str (sa sb : string) : Z :=
  match ip_address_int sa, ip_address_int sb with
  | Some ia, Some ib =>
      if ia <? ib then -1
      else if ib <? ia then 1
      else 0
  | _, _ =>
      if String.ltb sa sb then -1
      else if String.ltb sb sa then 1
      else 0
  end.

Definition _compare_router_id (route_a route_b : BGPRoute) : Z :=
  compare_ip_or_str (peer_id route_a) (peer_id route_b).

Definition _compare_peer_ip (route_a route_b : BGPRoute) : Z :=
  compare_ip_or_str (peer_ip route_a) (peer_ip route_b).

(** [result = step(a, b); if result != 0: return result], nine times. *)
Definition or_else (result : Z) (next : Z) : Z :=
  if negb (result =? 0) then result else next.

Definition compare (route_a route_b : BGPRoute) : Z :=
  or_else (_compare_local_pref route_a route_b)
 (or_else (_compare_as_path_length route_a route_b)
 (or_else (_compare_origin route_a route_b)
 (or_else (_compare_med route_a route_b)
 (or_else (_compare_ebgp_ibgp route_a route_b)
 (or_else (_compare_igp_metric route_a route_b)
 (or_else (_compare_age route_a route_b)
 (or_else (_compare_router_id route_a route_b)
 (or_else (_compare_peer_ip route_a route_b)
  0)))))))).

(** The body of the [for candidate in candidates[1:]] loop. *)
Definition select_step (best candidate : BGPRoute) : BGPRoute :=
  if 0 <? compare best candidate then candidate else best.

Definition select_best (routes : list BGPRoute) : option BGPRoute :=
  match routes with
  | [] => None
  | [r] => Some r
  | first :: rest => Some (fold_left select_step rest first)
  end.

End PathSelection.

(** ** bgp/agent.py *)

(** *** Streams, tasks and the trace of effects *)

(** An asyncio stream reader as the agent can observe it: the bytes already
    buffered, the chunks still to arrive (each with the delay, in
    milliseconds, after the previous event) and whether the peer closes the
    connection after the last chunk ([false]: it stays silent). *)
Record StreamReader := mkStreamReader {
  buffered : list Byte.byte;
  arriving : list (Z * list Byte.byte);
  closes : bool
}.

Inductive ReadOutcome :=
| ReadBytes (data : list Byte.byte)
| TimeoutError
| IncompleteReadError.

(** [asyncio.wait_for(reader.readexactly(n), timeout)]: returns once [n]
    bytes are buffered; raises TimeoutError when the next chunk would come
    after the deadline (or never), IncompleteReadError when the peer closes
    first. *)
Fixpoint wait_readexactly (n : nat) (timeout : Z) (buf : list Byte.byte)
    (chunks : list (Z * list Byte.byte)) (eof : bool) (elapsed : Z)
    : ReadOutcome * StreamReader :=
  if (n <=? length buf)%nat
  then (ReadBytes (take n buf), mkStreamReader (drop n buf) chunks eof)
  else
    match chunks with
    | [] =>
        (if eof then IncompleteReadError else TimeoutError,
         mkStreamReader buf [] eof)
    | (delay, chunk) :: rest =>
        if timeout <? elapsed + delay
        then (TimeoutError,
              mkStreamReader buf ((elapsed + delay - timeout, chunk) :: rest) eof)
        else wait_readexactly n timeout (buf ++ chunk) rest eof (elapsed + delay)
    end.

Definition wait_for_readexactly (reader : StreamReader) (n : nat) (timeout : Z)
    : ReadOutcome * StreamReader :=
  wait_readexactly n timeout (buffered reader) (arriving reader) (closes reader) 0.

(** An asyncio task: its identity and whether it has finished. *)
Record Task := mkTask {
  task_id : nat;
  task_done : bool
}.

(** What the agent does to the outside world, in order.  A stream writer is
    named by the number of its TCP connection. *)
Inductive Action :=
| WriterClose (writer : nat)
| TaskCancel (task : nat)
| AcceptConnection (session_key : string) (reader : StreamReader)
                   (writer : nat) (is_collision : bool)
| KernelInstall (prefix : string) (next_hop : string).

(** *** Sessions and the agent *)

Record BGPSessionConfig := mkBGPSessionConfig {
  cfg_peer_ip : string;
  peer_as : Z;
  local_ip : string;
  passive : bool;
  accept_any_source : bool;
  peer_router_id : option string;
  route_reflector_client : bool
}.

(** The parts of a BGPSession object (bgp/session.py) the agent reads or
    writes.  [adj_rib_in] maps a prefix to the routes stored under it:
    [get_prefixes()] is its key set and [get_routes(p)] the list under [p]. *)
Record BGPSession := mkBGPSession {
  config : BGPSessionConfig;
  fsm_state : FsmState;
  session_peer_id : string;
  adj_rib_in : gmap string (list BGPRoute);
  reader : option StreamReader;
  writer : option nat;
  message_reader_task : option Task;
  _pending_open : option BGPOpen
}.

Definition set_pending_open (session : BGPSession) (o : option BGPOpen) : BGPSession :=
  mkBGPSession (config session) (fsm_state session) (session_peer_id session)
    (adj_rib_in session) (reader session) (writer session)
    (message_reader_task session) o.

Definition set_adj_rib_in (session : BGPSession) (rib : gmap string (list BGPRoute))
    : BGPSession :=
  mkBGPSession (config session) (fsm_state session) (session_peer_id session)
    rib (reader session) (writer session)
    (message_reader_task session) (_pending_open session).

(** [session.reader = None; session.writer = None], the reader task having
    been cancelled and awaited when it was still running. *)
Definition drop_outgoing (session : BGPSession) : BGPSession :=
  mkBGPSession (config session) (fsm_state session) (session_peer_id session)
    (adj_rib_in session) None None
    (match message_reader_task session with
     | Some t => Some (mkTask (task_id t) true)
     | None => None
     end)
    (_pending_open session).

(** Modelled from the spec: [BGPSession.is_established()] of bgp/session.py
    is not among the sources; the session is established when its FSM is in
    state Established. *)
Definition is_established (session : BGPSession) : bool :=
  bool_decide (fsm_state session = STATE_ESTABLISHED).

Definition get_prefixes (rib : gmap string (list BGPRoute)) : gset string := dom rib.

Definition get_routes (rib : gmap string (list BGPRoute)) (p : string) : list BGPRoute :=
  default [] (rib !! p).

(** The route-reflector collaborator: only its [should_reflect] hook is
    called, with (route, from-peer, to-peer, is-ebgp-source). *)
Record RouteReflector := mkRouteReflector {
  should_reflect : BGPRoute -> string -> string -> bool -> bool
}.

(** The agent. [sessions] is the dict keyed by peer IP (or synthetic key).
    A Python dict iterates in insertion order, which the map does not
    record: where the code walks [self.sessions.values()] the embedding
    walks [map_to_list], one fixed order of the same sessions, and the
    statements about such a walk either do not depend on the order or
    speak of the list walked.  [mesh_sessions]
    holds, per AS number, a reference to a session object that is also in
    [sessions]: the reference is that session's key, so a write through one
    dict is seen through the other.  [loc_rib] maps a prefix to its best
    route.  [import_policy route peer_id] is
    [policy_engine.apply_import_policy]. *)
Record BGPAgent := mkBGPAgent {
  local_as : Z;
  router_id : string;
  sessions : gmap string BGPSession;
  mesh_sessions : gmap Z string;
  loc_rib : gmap string BGPRoute;
  best_path_selector : BestPathSelector;
  import_policy : BGPRoute -> string -> option BGPRoute;
  route_reflector : option RouteReflector;
  kernel_route_manager : bool
}.

Definition set_sessions (self : BGPAgent) (ss : gmap string BGPSession) : BGPAgent :=
  mkBGPAgent (local_as self) (router_id self) ss (mesh_sessions self) (loc_rib self)
    (best_path_selector self) (import_policy self) (route_reflector self)
    (kernel_route_manager self).

Definition set_loc_rib (self : BGPAgent) (rib : gmap string BGPRoute) : BGPAgent :=
  mkBGPAgent (local_as self) (router_id self) (sessions self) (mesh_sessions self) rib
    (best_path_selector self) (import_policy self) (route_reflector self)
    (kernel_route_manager self).

(** Writing a field of the session object stored under [key]. *)
Definition store_session (self : BGPAgent) (key : string) (session : BGPSession)
    : BGPAgent :=
  set_sessions self (<[key := session]> (sessions self)).

(** [self.mesh_sessions.get(peer_as)]: the key and the session object. *)
Definition mesh_get (self : BGPAgent) (asn : Z) : option (string * BGPSession) :=
  key ← mesh_sessions self !! asn;
  session ← sessions self !! key;
  Some (key, session).

(** Modelled from the spec: LocRIB of bgp/rib.py is not among the sources;
    it is the mapping prefix -> best route, [install_route] storing a route
    under its own prefix, [remove_route] deleting the entry. *)
Definition install_route (rib : gmap string BGPRoute) (route : BGPRoute)
    : gmap string BGPRoute :=
  <[prefix route := route]> rib.

Definition remove_route (rib : gmap string BGPRoute) (p : string) : gmap string BGPRoute :=
  delete p rib.

#[global] Instance byte_eq_decision : EqDecision Byte.byte := Byte.byte_eq_dec.

(** Python [list.insert(i, x)] for [i >= 0]: past the end it appends. *)
Definition py_insert {A} (i : nat) (x : A) (l : list A) : list A :=
  take i l ++ x :: drop i l.

(** Modelled from the spec: [ASPathAttribute.prepend(asn)] of
    bgp/attributes.py is not among the sources; "prepend local-AS to
    AS_PATH": the number joins a leading AS_SEQUENCE segment at its front,
    and otherwise opens a new AS_SEQUENCE segment in front of the path. *)
Definition aspath_prepend (asn : Z) (segments : list Segment) : list Segment :=
  match segments with
  | (seg_type, as_list) :: rest =>
      if seg_type =? AS_SEQUENCE then (seg_type, asn :: as_list) :: rest
      else (AS_SEQUENCE, [asn]) :: segments
  | [] => [(AS_SEQUENCE, [asn])]
  end.

(** The connection handed to [_handle_incoming_connection]: the peer
    address of [writer.get_extra_info('peername')], the stream reader and
    the writer. *)
Record IncomingConnection := mkIncomingConnection {
  peername : string;
  conn_reader : StreamReader;
  conn_writer : nat
}.

Section Agent.
Context {E : Externals}.

(** *** _read_open_message *)

Definition byte_val (b : option Byte.byte) : Z :=
  match b with
  | Some b => Z.of_N (Byte.to_N b)
  | None => 0
  end.

Definition _read_open_message (reader : StreamReader) (timeout : Z)
    : option BGPOpen * StreamReader :=
  match wait_for_readexactly reader BGP_HEADER_SIZE timeout with
  | (ReadBytes header, reader1) =>
      let marker := take 16 header in
      let length := 256 * byte_val (header !! 16%nat) + byte_val (header !! 17%nat) in
      let msg_type := byte_val (header !! 18%nat) in
      if negb (bool_decide (marker = repeat Byte.xff 16)) then (None, reader1)
      else if negb (msg_type =? MSG_OPEN) then (None, reader1)
      else
        let body_length := length - Z.of_nat BGP_HEADER_SIZE in
        if 0 <? body_length then
          match wait_for_readexactly reader1 (Z.to_nat body_length) timeout with
          | (ReadBytes body, reader2) => (BGPOpen_decode (header ++ body), reader2)
          | (_, reader2) => (None, reader2)
          end
        else (BGPOpen_decode (header ++ []), reader1)
  | (_, reader1) => (None, reader1)
  end.

(** *** _handle_incoming_connection *)

(** [writer.close(); await writer.wait_closed(); return]. *)
Definition reject (self : BGPAgent) (conn : IncomingConnection)
    : BGPAgent * list Action :=
  (self, [WriterClose (conn_writer conn)]).

(** [await session.accept_connection(reader, writer, is_collision=...)]. *)
Definition accept (self : BGPAgent) (key : string) (session : BGPSession)
    (rd : StreamReader) (conn : IncomingConnection) (mesh_identified : bool)
    : BGPAgent * list Action :=
  let is_collision := negb (passive (config session)) && negb mesh_identified in
  (self, [AcceptConnection key rd (conn_writer conn) is_collision]).

(** [session.config.peer_router_id or peer_ip]. *)
Definition peer_router_id_or (session : BGPSession) (peer_ip : string) : string :=
  match peer_router_id (config session) with
  | Some s => if str_truthy (Some s) then s else peer_ip
  | None => peer_ip
  end.

(** Cancelling the reader task when there is one that has not finished. *)
Definition cancel_reader_task (session : BGPSession) : list Action :=
  match message_reader_task session with
  | Some t => if negb (task_done t) then [TaskCancel (task_id t)] else []
  | None => []
  end.

(** Closing the session's own writer when there is one. *)
Definition close_session_writer (session : BGPSession) : list Action :=
  match writer session with
  | Some w => [WriterClose w]
  | None => []
  end.

(** The part of the handler after a session has been found: [session] is
    the object stored under [key], [rd] the incoming reader (advanced
    past the OPEN when [mesh_identified]). *)
Definition collision_handling (self : BGPAgent) (key : string)
    (session : BGPSession) (rd : StreamReader) (conn : IncomingConnection)
    (mesh_identified : bool) : BGPAgent * list Action :=
  if negb (passive (config session)) && negb mesh_identified then
    match fsm_state session with
    | STATE_ESTABLISHED => reject self conn
    | STATE_OPENSENT | STATE_OPENCONFIRM =>
        match inet_aton (router_id self),
              inet_aton (peer_router_id_or session (peername conn)) with
        | Some our_id, Some peer_id =>
            if peer_id <? our_id then reject self conn
            else
              let session' := drop_outgoing session in
              let '(self', tr) :=
                accept (store_session self key session') key session' rd conn
                  mesh_identified in
              (self', cancel_reader_task session ++ close_session_writer session ++ tr)
        | _, _ =>
            (* OSError from inet_aton, caught by the outer handler *)
            reject self conn
        end
    | _ => accept self key session rd conn mesh_identified
    end
  else if mesh_identified then
    if bool_decide (fsm_state session = STATE_ESTABLISHED) then
      reject (store_session self key (set_pending_open session None)) conn
    else accept self key session rd conn mesh_identified
  else accept self key session rd conn mesh_identified.

Definition _handle_incoming_connection (self : BGPAgent) (conn : IncomingConnection)
    : BGPAgent * list Action :=
  let peer_ip := peername conn in
  match sessions self !! peer_ip with
  | Some session =>
      collision_handling self peer_ip session (conn_reader conn) conn false
  | None =>
      if negb (bool_decide (mesh_sessions self = ∅)) then
        let '(open_msg, rd) := _read_open_message (conn_reader conn) 30000 in
        match open_msg with
        | None => reject self conn
        | Some open_msg =>
            let peer_as := my_as open_msg in
            match mesh_get self peer_as with
            | None => reject self conn
            | Some (key, session) =>
                let session' := set_pending_open session (Some open_msg) in
                collision_handling (store_session self key session') key session'
                  rd conn true
            end
        end
      else reject self conn
  end.

(** *** add_peer *)

(** [add_peer(config)], given the object [BGPSession(config)] builds.  The
    shared collaborators handed to the new session and the route
    reflector's client list are outside the embedding. *)
Definition add_peer (self : BGPAgent) (config : BGPSessionConfig)
    (session : BGPSession) : BGPAgent * BGPSession :=
  let peer_ip := cfg_peer_ip config in
  match sessions self !! peer_ip with
  | Some existing => (self, existing)
  | None =>
      let mesh :=
        if accept_any_source config
        then <[peer_as config := peer_ip]> (mesh_sessions self)
        else mesh_sessions self in
      (mkBGPAgent (local_as self) (router_id self)
         (<[peer_ip := session]> (sessions self)) mesh (loc_rib self)
         (best_path_selector self) (import_policy self) (route_reflector self)
         (kernel_route_manager self),
       session)
  end.

(** *** _run_decision_process *)

Definition all_prefixes (self : BGPAgent) : gset string :=
  foldr (fun '(_, session) acc =>
           if is_established session
           then acc ∪ get_prefixes (adj_rib_in session)
           else acc)
        ∅ (map_to_list (sessions self)).

(** The inner loops: per established session, the routes stored under the
    prefix that pass the import policy. *)
Definition session_candidates (self : BGPAgent) (p : string) (session : BGPSession)
    : list BGPRoute :=
  if negb (is_established session) then []
  else omap (fun route => import_policy self route (session_peer_id session))
            (get_routes (adj_rib_in session) p).

Definition candidates_for (self : BGPAgent) (p : string) : list BGPRoute :=
  flat_map (fun '(_, session) => session_candidates self p session)
           (map_to_list (sessions self)).

(** State threaded through the loop over prefixes: the Loc-RIB, the
    changed prefixes and the calls made to the kernel route manager. *)
Record DecisionState := mkDecisionState {
  ds_loc_rib : gmap string BGPRoute;
  ds_changed : list string;
  ds_kernel : list Action
}.

Definition kernel_install (self : BGPAgent) (p : string) (best_route : BGPRoute)
    : list Action :=
  if kernel_route_manager self && str_truthy (route_next_hop best_route) then
    match route_next_hop best_route with
    | Some nh => [KernelInstall p nh]
    | None => []
    end
  else [].

Definition install_best (self : BGPAgent) (st : DecisionState) (p : string)
    (best_route : BGPRoute) : DecisionState :=
  mkDecisionState (install_route (ds_loc_rib st) best_route)
                  (ds_changed st ++ [p])
                  (ds_kernel st ++ kernel_install self p best_route).

(** One iteration of [for prefix in all_prefixes]. *)
Definition decide_prefix (self : BGPAgent) (st : DecisionState) (p : string)
    : DecisionState :=
  let candidates := candidates_for self p in
  match candidates with
  | [] =>
      match ds_loc_rib st !! p with
      | Some _ =>
          mkDecisionState (remove_route (ds_loc_rib st) p) (ds_changed st ++ [p])
                          (ds_kernel st)
      | None => st
      end
  | _ :: _ =>
      match select_best (best_path_selector self) candidates with
      | None => st
      | Some best_route =>
          match ds_loc_rib st !! p with
          | None => install_best self st p best_route
          | Some current_best =>
              if negb (bool_decide (peer_id current_best = peer_id best_route))
              then install_best self st p best_route
              else st
          end
      end
  end.

(** The Loc-RIB part of [_run_decision_process]; the advertisement of the
    changed prefixes that follows only reads the Loc-RIB. *)
Definition _run_decision_process (self : BGPAgent) : BGPAgent * DecisionState :=
  let st :=
    foldl (decide_prefix self) (mkDecisionState (loc_rib self) [] [])
          (elements (all_prefixes self)) in
  (set_loc_rib self (ds_loc_rib st), st).

(** *** Advertisement policy *)

Definition _get_route_peer_as (route : BGPRoute) : option Z :=
  match attr_as_path (path_attributes route) with
  | None => None
  | Some segments =>
      match segments with
      | (seg_type, as_list) :: _ =>
          match as_list with
          | a :: _ => Some a
          | [] => None
          end
      | [] => None
      end
  end.

Definition _should_advertise_to_peer (self : BGPAgent) (route : BGPRoute)
    (session : BGPSession) : bool :=
  if bool_decide (source route = "local"%string) then true
  else if bool_decide (peer_id route = session_peer_id session) then false
  else
    match route_reflector self with
    | Some rr =>
        let is_ebgp_source := negb (bool_decide (peer_ip route = router_id self)) in
        should_reflect rr route (peer_id route) (session_peer_id session) is_ebgp_source
    | None =>
        let route_peer_as := _get_route_peer_as route in
        let is_route_ibgp := bool_decide (route_peer_as = Some (local_as self)) in
        let session_peer_as := peer_as (config session) in
        let is_session_ibgp := bool_decide (session_peer_as = local_as self) in
        if is_route_ibgp && is_session_ibgp then false else true
    end.

(** State of the loop of [_prepare_attributes_for_advertisement]. *)
Record PrepareState := mkPrepareState {
  modified : list PathAttribute;
  has_origin : bool;
  has_as_path : bool;
  has_next_hop : bool
}.

(** [attr.segments]: only an ASPathAttribute has the field; on any other
    object Python raises AttributeError ([None]). *)
Definition attr_segments (attr : PathAttribute) : option (list Segment) :=
  match attr with
  | ASPathAttribute segments => Some segments
  | _ => None
  end.

Definition prepare_step (self : BGPAgent) (session : BGPSession)
    (st : PrepareState) (attr : PathAttribute) : option PrepareState :=
  if type_code attr =? ATTR_ORIGIN then
    Some (mkPrepareState (modified st ++ [attr]) true (has_as_path st) (has_next_hop st))
  else if type_code attr =? ATTR_NEXT_HOP then
    Some (mkPrepareState (modified st ++ [NextHopAttribute (local_ip (config session))])
                         (has_origin st) (has_as_path st) true)
  else if type_code attr =? ATTR_AS_PATH then
    segments_copy ← attr_segments attr;
    let as_path_copy :=
      if negb (peer_as (config session) =? local_as self)
      then aspath_prepend (local_as self) segments_copy
      else segments_copy in
    Some (mkPrepareState (modified st ++ [ASPathAttribute as_path_copy])
                         (has_origin st) true (has_next_hop st))
  else if type_code attr =? ATTR_LOCAL_PREF then
    if peer_as (config session) =? local_as self
    then Some (mkPrepareState (modified st ++ [attr])
                              (has_origin st) (has_as_path st) (has_next_hop st))
    else Some st
  else
    Some (mkPrepareState (modified st ++ [attr])
                         (has_origin st) (has_as_path st) (has_next_hop st)).

Fixpoint prepare_loop (self : BGPAgent) (session : BGPSession)
    (attributes : list PathAttribute) (st : PrepareState) : option PrepareState :=
  match attributes with
  | [] => Some st
  | attr :: rest =>
      st' ← prepare_step self session st attr;
      prepare_loop self session rest st'
  end.

Definition _prepare_attributes_for_advertisement (self : BGPAgent)
    (attributes : list PathAttribute) (session : BGPSession)
    : option (list PathAttribute) :=
  st ← prepare_loop self session attributes (mkPrepareState [] false false false);
  let modified := modified st in
  let modified :=
    if negb (has_origin st) then py_insert 0 (OriginAttribute ORIGIN_IGP) modified
    else modified in
  let modified :=
    if negb (has_as_path st) then
      let as_path :=
        if negb (peer_as (config session) =? local_as self)
        then aspath_prepend (local_as self) []
        else [] in
      let insert_pos := if has_origin st then 1%nat else 0%nat in
      py_insert insert_pos (ASPathAttribute as_path) modified
    else modified in
  let modified :=
    if negb (has_next_hop st) then
      let insert_pos :=
        ((if has_origin st then 1 else 0) + (if has_as_path st then 1 else 0))%nat in
      py_insert insert_pos (NextHopAttribute (local_ip (config session))) modified
    else modified in
  let modified :=
    if peer_as (config session) =? local_as self then
      let has_local_pref :=
        existsb (fun attr => type_code attr =? ATTR_LOCAL_PREF) modified in
      if negb has_local_pref then modified ++ [LocalPrefAttribute 100]
      else modified
    else modified in
  Some modified.

End Agent.

(** Modelled from the spec: the UPDATE handling of bgp/session.py is not
    among the sources; a route announced in the NLRI of an UPDATE becomes
    what the peer's Adj-RIB-In holds for its prefix, replacing what the
    same peer announced for it before. *)
Definition receive_route (self : BGPAgent) (key : string) (route : BGPRoute)
    : BGPAgent :=
  match sessions self !! key with
  | Some session =>
      store_session self key
        (set_adj_rib_in session (<[prefix route := [route]]> (adj_rib_in session)))
  | None => self
  end.

(** ** connectors/bgp_connector.py *)

(** Values a caller may pass as keyword arguments. *)
Inductive PyValue :=
| PyInt (n : Z)
| PyStr (s : string).

(** The [route_info] dict built by [inject_route]. *)
Record RouteInfo := mkRouteInfo {
  ri_next_hop : string;
  ri_as_path : list Z;
  ri_local_pref : PyValue;
  ri_med : PyValue;
  ri_origin : PyValue
}.

(** [(prefix, prefix_len, afi, safi)]. *)
Definition RouteKey : Type := string * Z * Z * Z.

(** The speaker object the connector wraps: [rib] is [None] until the
    attribute has been created ([hasattr(self.speaker, "rib")]). *)
Record BGPSpeaker := mkBGPSpeaker {
  speaker_local_as : Z;
  agent : BGPAgent;
  rib : option (gmap RouteKey RouteInfo)
}.

Definition set_rib (speaker : BGPSpeaker) (r : gmap RouteKey RouteInfo) : BGPSpeaker :=
  mkBGPSpeaker (speaker_local_as speaker) (agent speaker) (Some r).

(** The dicts the connector returns. *)
Inductive ConnectorResult :=
| Failure (error : string)
| InjectSuccess (network : string) (route_info : RouteInfo)
| WithdrawSuccess (network : string).

(** A call returns a result or lets an exception escape. *)
Inductive CallOutcome :=
| Raises
| Returns (result : ConnectorResult).

(** One entry of the list returned by [get_rib]. *)
Record RibEntry := mkRibEntry {
  re_network : string;
  re_next_hop : string;
  re_as_path : list Z;
  re_local_pref : Z;
  re_med : Z;
  re_origin : string;
  re_communities : list Z
}.

(** [s.split(sep)] for a one-character separator. *)
Fixpoint split_on (sep : ascii) (s : string) : list string :=
  match s with
  | EmptyString => [EmptyString]
  | String c rest =>
      if Ascii.eqb c sep then EmptyString :: split_on sep rest
      else
        match split_on sep rest with
        | p :: ps => String c p :: ps
        | [] => [String c EmptyString]
        end
  end.

Section Connector.
Context {E : Externals}.

Definition rib_entry (route : BGPRoute) : RibEntry :=
  let attrs := path_attributes route in
  mkRibEntry
    (prefix route)
    (match attr_next_hop attrs with Some nh => nh | None => EmptyString end)
    (match attr_as_path attrs with Some segs => as_sequence segs | None => [] end)
    (match attr_local_pref attrs with Some lp => lp | None => 100 end)
    (match attr_med attrs with Some m => m | None => 0 end)
    (match attr_origin attrs with Some o => py_str o | None => "igp"%string end)
    [].

Definition get_rib (speaker : BGPSpeaker) (p : option string) : list RibEntry :=
  let all_routes :=
    match p with
    | Some q =>
        if str_truthy p then
          match loc_rib (agent speaker) !! q with
          | Some route => [route]
          | None => []
          end
        else (map_to_list (loc_rib (agent speaker))).*2
    | None => (map_to_list (loc_rib (agent speaker))).*2
    end in
  rib_entry <$> all_routes.

(** [x or default] on an optional string and an optional list. *)
Definition str_or (x : option string) (d : string) : string :=
  match x with
  | Some s => if str_truthy x then s else d
  | None => d
  end.

Definition list_or (x : option (list Z)) (d : list Z) : list Z :=
  match x with
  | Some (a :: l) => a :: l
  | _ => d
  end.

Definition inject_route (speaker : BGPSpeaker) (network : string)
    (next_hop : option string) (as_path : option (list Z))
    (attributes : gmap string PyValue) : BGPSpeaker * CallOutcome :=
  match split_on "/"%char network with
  | [p; len_str] =>
      match py_int len_str with
      | None => (speaker, Raises)
      | Some prefix_len =>
          match ip_address p with
          | None => (speaker, Returns (Failure "Invalid IP address"))
          | Some (version, _) =>
              let afi := if version =? 4 then 1 else 2 in
              let route_key : RouteKey := (p, prefix_len, afi, 1) in
              let route_info :=
                mkRouteInfo
                  (str_or next_hop "0.0.0.0")
                  (list_or as_path [speaker_local_as speaker])
                  (default (PyInt 100) (attributes !! "local_pref"%string))
                  (default (PyInt 0) (attributes !! "med"%string))
                  (default (PyStr "igp") (attributes !! "origin"%string)) in
              let table := default ∅ (rib speaker) in
              (set_rib speaker (<[route_key := route_info]> table),
               Returns (InjectSuccess network route_info))
          end
      end
  | _ => (speaker, Returns (Failure "Invalid network format"))
  end.

Definition key_matches (p : string) (prefix_len : Z) (route_key : RouteKey) : bool :=
  let '(kp, klen, _, _) := route_key in
  bool_decide (kp = p) && (klen =? prefix_len).

Definition withdraw_route (speaker : BGPSpeaker) (network : string)
    : BGPSpeaker * CallOutcome :=
  match split_on "/"%char network with
  | [p; len_str] =>
      match py_int len_str with
      | None => (speaker, Raises)
      | Some prefix_len =>
          match rib speaker with
          | Some table =>
              match List.find (key_matches p prefix_len) (map_to_list table).*1 with
              | Some route_key =>
                  (set_rib speaker (delete route_key table),
                   Returns (WithdrawSuccess network))
              | None => (speaker, Returns (Failure "Route not found"))
              end
          | None => (speaker, Returns (Failure "Route not found"))
          end
      end
  | _ => (speaker, Returns (Failure "Invalid network format"))
  end.

End Connector.

(** ** A concrete instance of the library functions

    Used to run the embedding on examples.  On canonical dotted-quad IPv4
    addresses and unsigned decimal numerals the functions return what
    CPython returns; other inputs are answered with [None]. *)

Definition digit_val (c : ascii) : option Z :=
  let n := Z.of_nat (nat_of_ascii c) in
  if (48 <=? n) && (n <=? 57) then Some (n - 48) else None.

Fixpoint decimal_acc (s : string) (acc : Z) : option Z :=
  match s with
  | EmptyString => Some acc
  | String c rest => d ← digit_val c; decimal_acc rest (10 * acc + d)
  end.

Definition decimal (s : string) : option Z :=
  match s with
  | EmptyString => None
  | _ => decimal_acc s 0
  end.

Definition octet (s : string) : option Z :=
  v ← decimal s;
  if (v <=? 255) && (String.length s <=? 3)%nat
     && negb ((2 <=? String.length s)%nat && String.prefix "0" s)
  then Some v else None.

Definition dotted_quad (s : string) : option Z :=
  match split_on "."%char s with
  | [a; b; c; d] =>
      a ← octet a; b ← octet b; c ← octet c; d ← octet d;
      Some (((a * 256 + b) * 256 + c) * 256 + d)
  | _ => None
  end.

(** Decimal digits of a natural number, most significant first. *)
Fixpoint digits_fuel (fuel : nat) (n : Z) (acc : string) : string :=
  match fuel with
  | O => acc
  | S fuel' =>
      let acc' := String (ascii_of_nat (Z.to_nat (48 + n mod 10))) acc in
      if n <? 10 then acc' else digits_fuel fuel' (n / 10) acc'
  end.

Definition decimal_string (n : Z) : string :=
  if n <? 0 then String "-"%char (digits_fuel (Z.to_nat (- n) + 1) (- n) EmptyString)
  else digits_fuel (Z.to_nat n + 1) n EmptyString.

Definition dotted_string (a b c d : Z) : string :=
  (decimal_string a +:+ "." +:+ decimal_string b +:+ "." +:+
   decimal_string c +:+ "." +:+ decimal_string d)%string.

(** Modelled from the spec: [BGPOpen.decode] of bgp/messages.py is not among
    the sources; after the 19-byte header the body is version (1 byte),
    my-as (2), hold-time (2), bgp-identifier (4), opt-params-length (1). *)
Definition decode_open (message : list Byte.byte) : option BGPOpen :=
  let b i := Z.of_N (Byte.to_N (default Byte.x00 (message !! i))) in
  if (length message <? 29)%nat then None
  else if negb (b 19%nat =? 4) then None
  else
    Some (mkBGPOpen (b 19%nat)
                    (256 * b 20%nat + b 21%nat)
                    (256 * b 22%nat + b 23%nat)
                    (dotted_string (b 24%nat) (b 25%nat) (b 26%nat) (b 27%nat))).

Definition as_sequence_numbers (segments : list Segment) : list Z :=
  flat_map (fun '(seg_type, as_list) => if seg_type =? AS_SEQUENCE then as_list else [])
           segments.

Definition cpython : Externals := {|
  ip_address := fun s => v ← dotted_quad s; Some (4, v);
  inet_aton := dotted_quad;
  py_int := decimal;
  py_str := decimal_string;
  BGPOpen_decode := decode_open;
  as_sequence := as_sequence_numbers
|}.


(** * Further parts of the code *)

(** ** bgp/agent.py: originate_route *)

(** Modelled from the spec: AFI_IPV4 and SAFI_UNICAST of bgp/constants.py
    are not among the sources; the core is IPv4 unicast, for which the
    connector writes address family 1 and "SAFI 1 = unicast". *)
Definition AFI_IPV4 : Z := 1.
Definition SAFI_UNICAST : Z := 1.

(** What [originate_route] hands back: the agent, the boolean it returns
    and the prefixes whose advertisement it has scheduled
    ([asyncio.create_task(self._advertise_routes([prefix]))]). *)
Record Originated := mkOriginated {
  or_agent : BGPAgent;
  or_result : bool;
  or_scheduled : list string
}.

Section Originate.
Context {E : Externals}.

(** The route object [originate_route] builds; [now] is the default
    [timestamp] of the dataclass, the clock at construction. *)
Definition local_route_for (self : BGPAgent) (p : string) (prefix_len : Z)
    (next_hop : string) (local_pref origin now : Z) : BGPRoute :=
  mkBGPRoute p prefix_len
    (mkPathAttributes (Some origin) (Some []) (Some next_hop) None (Some local_pref) ∅)
    (router_id self) (router_id self) now "local" AFI_IPV4 SAFI_UNICAST.

(** The prefix length read off the argument: 32 without a slash, [int] of
    what follows a single slash; [None] is the ValueError of [int] or of
    unpacking more than two parts. *)
Definition originate_prefix_len (p : string) : option Z :=
  match split_on "/"%char p with
  | [_] => Some 32
  | [prefix_ip; prefix_len_str] => py_int prefix_len_str
  | _ => None
  end.

(** [originate_route(prefix, next_hop, local_pref, origin)].
    [loop_running] tells whether an event loop is running:
    [asyncio.create_task] raises RuntimeError without one, after the route
    has been installed, and the handler answers False. *)
Definition originate_route (self : BGPAgent) (p : string) (next_hop : option string)
    (local_pref origin now : Z) (loop_running : bool) : Originated :=
  match originate_prefix_len p with
  | None => mkOriginated self false []
  | Some prefix_len =>
      let nh := str_or next_hop (router_id self) in
      let route := local_route_for self p prefix_len nh local_pref origin now in
      let self' := set_loc_rib self (install_route (loc_rib self) route) in
      if loop_running then mkOriginated self' true [p]
      else mkOriginated self' false []
  end.

End Originate.

(** ** bgp/agent.py: remove_peer *)

(** What [remove_peer] asks of its collaborators: stopping the session
    ([asyncio.create_task(session.stop())]) and taking the peer off the
    route reflector. *)
Inductive PeerEffect :=
| SessionStop (key : string)
| ReflectorRemovePeer (key : string).

(** [remove_peer(peer_ip)].  Without a running event loop [create_task]
    raises RuntimeError, which is passed over.  An entry of the mesh index
    is dropped when it is the removed session object, that is when it
    refers to the removed key. *)
Definition remove_peer (self : BGPAgent) (peer_ip : string) (loop_running : bool)
    : BGPAgent * list PeerEffect :=
  match sessions self !! peer_ip with
  | None => (self, [])
  | Some session =>
      let stop := if loop_running then [SessionStop peer_ip] else [] in
      let reflector :=
        match route_reflector self with
        | Some _ => [ReflectorRemovePeer peer_ip]
        | None => []
        end in
      (mkBGPAgent (local_as self) (router_id self)
         (delete peer_ip (sessions self))
         (filter (fun entry : Z * string => entry.2 <> peer_ip) (mesh_sessions self))
         (loc_rib self) (best_path_selector self) (import_policy self)
         (route_reflector self) (kernel_route_manager self),
       stop ++ reflector)
  end.

(** ** connectors/bgp_connector.py: adjust_local_pref *)

(** The dicts [adjust_local_pref] returns. *)
Inductive AdjustResult :=
| AdjustFailure (error : string)
| AdjustSuccess (network : string) (old_local_pref : PyValue) (new_local_pref : Z).

Inductive AdjustOutcome :=
| AdjustRaises
| AdjustReturns (result : AdjustResult).

(** [route_info["local_pref"] = local_pref]. *)
Definition set_local_pref (info : RouteInfo) (local_pref : Z) : RouteInfo :=
  mkRouteInfo (ri_next_hop info) (ri_as_path info) (PyInt local_pref)
    (ri_med info) (ri_origin info).

Section ConnectorMore.
Context {E : Externals}.

Definition adjust_local_pref (speaker : BGPSpeaker) (network : string)
    (local_pref : Z) : BGPSpeaker * AdjustOutcome :=
  match split_on "/"%char network with
  | [p; len_str] =>
      match py_int len_str with
      | None => (speaker, AdjustRaises)
      | Some prefix_len =>
          match rib speaker with
          | Some table =>
              match List.find (fun item : RouteKey * RouteInfo =>
                                 key_matches p prefix_len item.1)
                              (map_to_list table) with
              | Some (route_key, route_info) =>
                  (set_rib speaker
                     (<[route_key := set_local_pref route_info local_pref]> table),
                   AdjustReturns
                     (AdjustSuccess network (ri_local_pref route_info) local_pref))
              | None => (speaker, AdjustReturns (AdjustFailure "Route not found"))
              end
          | None => (speaker, AdjustReturns (AdjustFailure "Route not found"))
          end
      end
  | _ => (speaker, AdjustReturns (AdjustFailure "Invalid network format"))
  end.

End ConnectorMore.

(** ** bgp/agent.py: _advertise_routes *)

(** [c in s] for a one-character [c]. *)
Definition char_in (c : ascii) (s : string) : bool :=
  existsb (fun x => bool_decide (x = c)) (list_ascii_of_string s).

(** [d[k] = v] on a dict kept as its items in insertion order: a key the
    dict holds keeps its place and takes the new value, a new key goes to
    the end. *)
Fixpoint dict_set {V} (k : Z) (v : V) (d : list (Z * V)) : list (Z * V) :=
  match d with
  | [] => [(k, v)]
  | (k', v') :: rest =>
      if k' =? k then (k, v) :: rest else (k', v') :: dict_set k v rest
  end.

(** [{attr.type_code: attr for attr in path_attrs_list}]. *)
Definition attrs_dict (path_attrs_list : list PathAttribute)
    : list (Z * PathAttribute) :=
  fold_left (fun d attr => dict_set (type_code attr) attr d) path_attrs_list [].

(** The arguments of the [BGPUpdate(...)] call. *)
Record BGPUpdate := mkBGPUpdate {
  withdrawn_routes : list string;
  update_path_attributes : list (Z * PathAttribute);
  nlri : list string
}.

(** What a call of [_advertise_routes] did: the messages handed to
    [session._send_message], in order, each with the key of its session,
    and whether the call ended in an exception. *)
Record Advertised := mkAdvertised {
  adv_sent : list (string * BGPUpdate);
  adv_raised : bool
}.

Section Advertise.

(** [policy_engine.apply_export_policy]. *)
Variable apply_export_policy : BGPRoute -> string -> option BGPRoute.

(** [list(route.path_attributes.values())]: the attribute objects in the
    order the dict holds them, which is the order they were put in and
    which [PathAttributes] does not record. *)
Variable attribute_values : PathAttributes -> list PathAttribute.

(** One iteration of [for prefix in changed_prefixes], on the pair
    ([nlri], [withdrawn]). *)
Definition advertise_prefix (self : BGPAgent) (session : BGPSession)
    (acc : list string * list string) (p : string) : list string * list string :=
  match loc_rib self !! p with
  | Some best_route =>
      if char_in ":" p then acc
      else if _should_advertise_to_peer self best_route session then
        match apply_export_policy best_route (session_peer_id session) with
        | Some exported_route => (acc.1 ++ [p], acc.2)
        | None => acc
        end
      else acc
  | None =>
      if negb (char_in ":" p) then (acc.1, acc.2 ++ [p]) else acc
  end.

(** [path_attrs_dict]; [None] when preparing the attributes raises. *)
Definition update_attributes (self : BGPAgent) (session : BGPSession)
    (nlri_list changed_prefixes : list string) : option (list (Z * PathAttribute)) :=
  match nlri_list, changed_prefixes with
  | first :: _, _ :: _ =>
      match loc_rib self !! first with
      | Some best_route =>
          path_attrs_list ←
            _prepare_attributes_for_advertisement self
              (attribute_values (path_attributes best_route)) session;
          Some (attrs_dict path_attrs_list)
      | None => Some []
      end
  | _, _ => Some []
  end.

(** The loop over [self.sessions.values()].  The counters of
    [session.stats] and the log lines are not part of the state. *)
Fixpoint advertise_loop (self : BGPAgent) (changed_prefixes : list string)
    (ss : list (string * BGPSession)) (sent : list (string * BGPUpdate)) : Advertised :=
  match ss with
  | [] => mkAdvertised sent false
  | (key, session) :: rest =>
      if negb (is_established session) then
        advertise_loop self changed_prefixes rest sent
      else
        let '(nlri_list, withdrawn) :=
          fold_left (advertise_prefix self session) changed_prefixes ([], []) in
        match nlri_list, withdrawn with
        | [], [] => advertise_loop self changed_prefixes rest sent
        | _, _ =>
            match update_attributes self session nlri_list changed_prefixes with
            | None => mkAdvertised sent true
            | Some path_attrs_dict =>
                let update := mkBGPUpdate withdrawn path_attrs_dict nlri_list in
                advertise_loop self changed_prefixes rest (sent ++ [(key, update)])
            end
        end
  end.

Definition _advertise_routes (self : BGPAgent) (changed_prefixes : list string)
    : Advertised :=
  advertise_loop self changed_prefixes (map_to_list (sessions self)) [].

(** The whole of [_run_decision_process]: the loop over the prefixes, then
    [if changed_prefixes: await self._advertise_routes(changed_prefixes)]. *)
Definition decision_cycle {E : Externals} (self : BGPAgent)
    : BGPAgent * DecisionState * Advertised :=
  let '(self', st) := _run_decision_process self in
  match ds_changed st with
  | [] => (self', st, mkAdvertised [] false)
  | _ :: _ => (self', st, _advertise_routes self' (ds_changed st))
  end.

(** [_on_session_established]: [loc_rib.get_all_routes()] lists the
    routes of the Loc-RIB; their prefixes go to [_advertise_routes]. *)
Definition _on_session_established (self : BGPAgent) (peer_ip : string) : Advertised :=
  let all_routes := (map_to_list (loc_rib self)).*2 in
  let all_prefixes := prefix <$> all_routes in
  match all_prefixes with
  | [] => mkAdvertised [] false
  | _ :: _ => _advertise_routes self all_prefixes
  end.

End Advertise.

(** ** bgp/path_selection.py: run_decision_process *)

Section SelectorDecision.
Context {E : Externals}.




End SelectorDecision.

(** ** Vocabulary of the statements *)

(** [compare] is transitive on the routes of [routes]. *)
Definition compare_transitive_on {E : Externals} (self : BestPathSelector)
    (routes : list BGPRoute) : Prop :=
  forall x y z, In x routes -> In y routes -> In z routes ->
    compare self x y <= 0 -> compare self y z <= 0 -> compare self x z <= 0.

(** A step comparator orders the routes of [routes] as a weak order: it is
    transitive on them, and a tie between the ends of a chain is a tie all
    along the chain. *)
Definition weak_order_on (routes : list BGPRoute) (step : BGPRoute -> BGPRoute -> Z)
    : Prop :=
  forall a b c, In a routes -> In b routes -> In c routes ->
    step a b <= 0 -> step b c <= 0 ->
    step a c <= 0 /\ (step a c = 0 -> step a b = 0 /\ step b c = 0).

(** The strings [f] reads off the routes are all addresses for
    [ip_address], or none of them is. *)
Definition ids_uniform {E : Externals} (routes : list BGPRoute) (f : BGPRoute -> string)
    : Prop :=
  (forall r, In r routes -> is_Some (ip_address_int (f r)))
  \/ (forall r, In r routes -> ip_address_int (f r) = None).

(** The AS numbers of a path, leftmost first. *)
Definition as_numbers (segments : list Segment) : list Z := concat (segments.*2).

(** The first AS in AS_PATH, in the words of the specification: the
    leftmost AS number of the path, absent without the attribute and for
    a path without AS numbers.  It reads the path, not [_get_neighbor_as]. *)
Definition first_as (route : BGPRoute) : option Z :=
  match attr_as_path (path_attributes route) with
  | None => None
  | Some segments => head (as_numbers segments)
  end.


(** The segment lists of the AS_PATH attributes of a list, in order. *)
Definition as_paths_of (attributes : list PathAttribute) : list (list Segment) :=
  omap attr_segments attributes.

(** The attributes of a list that carry type code [c], in order. *)
Definition with_code (c : Z) (attributes : list PathAttribute) : list PathAttribute :=
  List.filter (fun attr => type_code attr =? c) attributes.

(** Every attribute under the AS_PATH type code is an ASPathAttribute
    object, as the decoder and [originate_route] build them. *)
Definition as_path_typed (attr : PathAttribute) : Prop :=
  type_code attr = ATTR_AS_PATH -> exists segments, attr = ASPathAttribute segments.

(** What the loop of [_prepare_attributes_for_advertisement] appends for
    one attribute of the input. *)
Definition prepared (self : BGPAgent) (session : BGPSession) (attr : PathAttribute)
    : list PathAttribute :=
  if type_code attr =? ATTR_ORIGIN then [attr]
  else if type_code attr =? ATTR_NEXT_HOP
  then [NextHopAttribute (local_ip (config session))]
  else if type_code attr =? ATTR_AS_PATH then
    match attr_segments attr with
    | Some segments =>
        [ASPathAttribute
           (if negb (peer_as (config session) =? local_as self)
            then aspath_prepend (local_as self) segments
            else segments)]
    | None => []
    end
  else if type_code attr =? ATTR_LOCAL_PREF then
    if peer_as (config session) =? local_as self then [attr] else []
  else [attr].

(** Every candidate gathered for a prefix carries that prefix: the
    Adj-RIB-Ins store a route under its own prefix and the import policy
    does not rewrite it. *)
Definition candidates_keyed (self : BGPAgent) : Prop :=
  forall p route, In route (candidates_for self p) -> prefix route = p.

(** The Loc-RIB entry of a prefix after its iteration of the decision
    loop, from the entry before it. *)
Definition entry_after {E : Externals} (self : BGPAgent) (current : option BGPRoute)
    (p : string) : option BGPRoute :=
  match candidates_for self p with
  | [] => None
  | candidates =>
      match select_best (best_path_selector self) candidates, current with
      | None, _ => current
      | Some best_route, None => Some best_route
      | Some best_route, Some current_best =>
          if bool_decide (peer_id current_best = peer_id best_route)
          then Some current_best
          else Some best_route
      end
  end.

(** ** Example routes and agents *)

Definition example_selector : BestPathSelector :=
  mkBestPathSelector 65001 "4.4.4.4" None.

(** A route for 10.0.0.0/8 with ORIGIN IGP, a one-segment AS_PATH and the
    given MED, LOCAL_PREF, peer and age. *)
Definition example_route (first_as : Z) (med lp : option Z) (peer : string)
    (age : Z) : BGPRoute :=
  mkBGPRoute "10.0.0.0/8" 8
    (mkPathAttributes (Some ORIGIN_IGP) (Some [(AS_SEQUENCE, [first_as])])
                      (Some peer) med lp ∅)
    peer peer age "peer" 1 1.

(** Three candidates: [route_A] from AS 65010; [route_B] and [route_C] from
    AS 65020 with MED 0 and 5; [route_C] is the oldest, [route_B] the
    youngest. *)
Definition route_A : BGPRoute := example_route 65010 None None "192.0.2.1" 1000.
Definition route_B : BGPRoute := example_route 65020 (Some 0) None "192.0.2.2" 2000.
Definition route_C : BGPRoute := example_route 65020 (Some 5) None "192.0.2.3" 500.



(** A session towards 172.16.0.2 (local address) with an outgoing
    connection 1 read by task 1. *)
Definition example_session (key : string) (asn : Z) (is_passive mesh : bool)
    (state : FsmState) : BGPSession :=
  mkBGPSession (mkBGPSessionConfig key asn "172.16.0.2" is_passive mesh None false)
    state key ∅ (Some (mkStreamReader [] [] false)) (Some 1%nat)
    (Some (mkTask 1 false)) None.

Definition example_agent (rid : string) (ss : gmap string BGPSession)
    (mesh : gmap Z string) : BGPAgent :=
  mkBGPAgent 65001 rid ss mesh ∅ example_selector (fun route _ => Some route)
    None false.

(** An OPEN message: version 4, the given my-as (two bytes), hold time 90,
    identifier 9.9.9.9, no optional parameters. *)
Definition open_bytes (as_hi as_lo : Byte.byte) : list Byte.byte :=
  (repeat Byte.xff 16 ++
   [Byte.x00; Byte.x1d; Byte.x01;
    Byte.x04; as_hi; as_lo; Byte.x00; Byte.x5a;
    Byte.x09; Byte.x09; Byte.x09; Byte.x09; Byte.x00])%list.

(** An incoming connection 2 from [ip] on which [data] arrives after
    [delay] milliseconds. *)
Definition example_connection (ip : string) (delay : Z) (data : list Byte.byte)
    : IncomingConnection :=
  mkIncomingConnection ip (mkStreamReader [] [(delay, data)] false) 2.

(** A passive peer found by source address, in the given state. *)
Definition passive_agent (rid : string) (state : FsmState) : BGPAgent :=
  example_agent rid {[ "172.16.0.1"%string := example_session "172.16.0.1" 65000 true false state ]} ∅.

(** An active peer found by source address, in the given state. *)
Definition active_agent (rid : string) (state : FsmState) : BGPAgent :=
  example_agent rid {[ "9.9.9.9"%string := example_session "9.9.9.9" 65000 false false state ]} ∅.

(** One mesh peer for AS 65002. *)
Definition mesh_agent (state : FsmState) : BGPAgent :=
  example_agent "4.4.4.4"
    {[ "mesh-as65002"%string := example_session "mesh-as65002" 65002 true true state ]}
    {[ 65002 := "mesh-as65002"%string ]}.

(** A route reflector that reflects everything. *)
Definition reflect_all : RouteReflector := mkRouteReflector (fun _ _ _ _ => true).

(** The example agent with route reflection enabled. *)
Definition reflecting_agent : BGPAgent :=
  mkBGPAgent 65001 "4.4.4.4" ∅ ∅ ∅ example_selector (fun route _ => Some route)
    (Some reflect_all) false.

(** A locally originated route, as [originate_route] builds it. *)
Definition local_route : BGPRoute :=
  mkBGPRoute "10.99.99.0/24" 24
    (mkPathAttributes (Some ORIGIN_IGP) (Some []) (Some "4.4.4.4"%string) None (Some 100) ∅)
    "4.4.4.4" "4.4.4.4" 0 "local" 1 1.

(** Attributes of a route learned over eBGP, in dict order, and of a
    locally originated route. *)
Definition learned_attributes : list PathAttribute :=
  [OriginAttribute ORIGIN_IGP; ASPathAttribute [(AS_SEQUENCE, [65010; 65030])];
   NextHopAttribute "192.0.2.1"; MEDAttribute 5; LocalPrefAttribute 200].

Definition local_attributes : list PathAttribute :=
  [OriginAttribute ORIGIN_IGP; ASPathAttribute []; NextHopAttribute "4.4.4.4"].

(** A speaker whose agent holds the local route in its Loc-RIB and whose
    shadow table does not exist yet. *)
Definition example_speaker : BGPSpeaker :=
  mkBGPSpeaker 65001
    (set_loc_rib (example_agent "4.4.4.4" ∅ ∅) {[ "10.99.99.0/24"%string := local_route ]})
    None.

(** The peer 192.0.2.1 announces 10.0.0.0/8 with LOCAL_PREF 100 and later
    again with LOCAL_PREF 200. *)
Definition advertised_first : BGPRoute :=
  example_route 65010 None (Some 100) "192.0.2.1" 1000.
Definition advertised_again : BGPRoute :=
  example_route 65010 None (Some 200) "192.0.2.1" 2000.

(** One established peer and an empty Loc-RIB. *)
Definition one_peer_agent : BGPAgent :=
  example_agent "4.4.4.4"
    {[ "192.0.2.1"%string :=
         example_session "192.0.2.1" 65010 false false STATE_ESTABLISHED ]} ∅.

(** The peer of [one_peer_agent] has announced 10.0.0.0/8 once; the
    Loc-RIB is still empty. *)
Definition announced_agent : BGPAgent :=
  example_agent "4.4.4.4"
    {[ "192.0.2.1"%string :=
         set_adj_rib_in
           (example_session "192.0.2.1" 65010 false false STATE_ESTABLISHED)
           {[ "10.0.0.0/8"%string := [advertised_first] ]} ]} ∅.

(** ** Further vocabulary *)

(** The LOCAL_PREF the selector reads off a route: 100 without the
    attribute. *)
Definition local_pref_of (route : BGPRoute) : Z :=
  default 100 (attr_local_pref (path_attributes route)).

(** Every entry of the mesh index refers to a configured session that
    accepts any source and whose peer AS is the index key. *)
Definition mesh_consistent (self : BGPAgent) : Prop :=
  forall asn key, mesh_sessions self !! asn = Some key ->
    exists session, sessions self !! key = Some session
                    /\ accept_any_source (config session) = true
                    /\ peer_as (config session) = asn.

(** Two states of a session object that are the same except, at most, for
    a pending OPEN that has been cleared. *)
Definition kept_connection (s s' : BGPSession) : Prop :=
  config s' = config s
  /\ fsm_state s' = fsm_state s
  /\ session_peer_id s' = session_peer_id s
  /\ adj_rib_in s' = adj_rib_in s
  /\ reader s' = reader s
  /\ writer s' = writer s
  /\ message_reader_task s' = message_reader_task s
  /\ (_pending_open s' = _pending_open s \/ _pending_open s' = None).

(** The address family [inject_route] files a prefix under. *)
Definition afi_of {E : Externals} (p : string) : option Z :=
  match ip_address p with
  | Some (version, _) => Some (if version =? 4 then 1 else 2)
  | None => None
  end.

(** Every key of the shadow table is one [inject_route] builds: unicast,
    with the address family of its prefix. *)
Definition rib_canonical {E : Externals} (table : gmap RouteKey RouteInfo) : Prop :=
  forall p len afi safi,
    is_Some (table !! ((p, len, afi, safi) : RouteKey)) ->
    safi = 1 /\ afi_of p = Some afi.

(** The shadow table of a speaker, empty before its first use. *)
Definition shadow_table (speaker : BGPSpeaker) : gmap RouteKey RouteInfo :=
  default ∅ (rib speaker).

(** The network argument reads as prefix [p] and length [len]. *)
Definition reads_as {E : Externals} (network p : string) (len : Z) : Prop :=
  exists len_str, split_on "/"%char network = [p; len_str] /\ py_int len_str = Some len.

(** Whether the loop of [_advertise_routes] puts a changed prefix into the
    NLRI for a session, and whether it puts it among the withdrawn. *)
Definition announced_to (apply_export_policy : BGPRoute -> string -> option BGPRoute)
    (self : BGPAgent) (session : BGPSession) (p : string) : bool :=
  match loc_rib self !! p with
  | Some best_route =>
      negb (char_in ":" p)
      && _should_advertise_to_peer self best_route session
      && bool_decide (is_Some (apply_export_policy best_route (session_peer_id session)))
  | None => false
  end.

Definition withdrawn_for (self : BGPAgent) (p : string) : bool :=
  match loc_rib self !! p with
  | Some _ => false
  | None => negb (char_in ":" p)
  end.

(** What [_advertise_routes] sends to one established session. *)
Definition sent_to (apply_export_policy : BGPRoute -> string -> option BGPRoute)
    (attribute_values : PathAttributes -> list PathAttribute)
    (self : BGPAgent) (changed_prefixes : list string)
    (session : BGPSession) (update : BGPUpdate) : Prop :=
  is_established session = true
  /\ nlri update = List.filter (announced_to apply_export_policy self session)
                     changed_prefixes
  /\ withdrawn_routes update = List.filter (withdrawn_for self) changed_prefixes
  /\ (nlri update <> [] \/ withdrawn_routes update <> [])
  /\ update_attributes attribute_values self session (nlri update) changed_prefixes
     = Some (update_path_attributes update).

(** The loop of [_advertise_routes] has something to tell a session. *)
Definition has_news (apply_export_policy : BGPRoute -> string -> option BGPRoute)
    (self : BGPAgent) (changed_prefixes : list string) (session : BGPSession) : Prop :=
  List.filter (announced_to apply_export_policy self session) changed_prefixes <> []
  \/ List.filter (withdrawn_for self) changed_prefixes <> [].

(** ** Further example data *)

(** An order of [path_attributes.values()]: the recognised attributes by
    type code, which is the order [originate_route] puts them in. *)
Definition recognised_values (attrs : PathAttributes) : list PathAttribute :=
  option_list (OriginAttribute <$> attr_origin attrs)
  ++ option_list (ASPathAttribute <$> attr_as_path attrs)
  ++ option_list (NextHopAttribute <$> attr_next_hop attrs)
  ++ option_list (MEDAttribute <$> attr_med attrs)
  ++ option_list (LocalPrefAttribute <$> attr_local_pref attrs).

(** An export policy that lets every route through, and one that lets it
    through with its age reset. *)
Definition export_all (route : BGPRoute) (peer : string) : option BGPRoute :=
  Some route.

Definition export_fresh (route : BGPRoute) (peer : string) : option BGPRoute :=
  Some (mkBGPRoute (prefix route) (prefix_len route) (path_attributes route)
          (peer_id route) (peer_ip route) 0 (source route) (afi route) (safi route)).

(** Two established eBGP peers; the first has announced 10.0.0.0/8, which
    is in the Loc-RIB beside the local route. *)
Definition two_peer_agent : BGPAgent :=
  set_loc_rib
    (example_agent "4.4.4.4"
       {[ "192.0.2.1"%string :=
            set_adj_rib_in
              (example_session "192.0.2.1" 65010 false false STATE_ESTABLISHED)
              {[ "10.0.0.0/8"%string := [advertised_first] ]};
          "192.0.2.2"%string :=
            example_session "192.0.2.2" 65020 false false STATE_ESTABLISHED ]} ∅)
    {[ "10.0.0.0/8"%string := advertised_first;
       "10.99.99.0/24"%string := local_route ]}.

(** The prefixes of that Loc-RIB and one it does not hold. *)
Definition example_changed : list string :=
  ["10.0.0.0/8"; "10.99.99.0/24"; "10.1.0.0/16"]%string.

(** The UPDATE the second peer of [two_peer_agent] is sent for
    [example_changed]. *)
Definition example_update : BGPUpdate :=
  mkBGPUpdate ["10.1.0.0/16"%string]
    [(1, OriginAttribute 0);
     (2, ASPathAttribute [(2, [65001; 65010])]);
     (3, NextHopAttribute "172.16.0.2")]
    ["10.0.0.0/8"%string; "10.99.99.0/24"%string].

(** [announced_agent] with a Loc-RIB that holds the local route, which no
    peer has announced. *)
Definition originating_agent : BGPAgent :=
  set_loc_rib announced_agent {[ "10.99.99.0/24"%string := local_route ]}.

(** A mesh peer for AS 65003, not configured in [mesh_agent]. *)
Definition second_mesh_session : BGPSession :=
  example_session "mesh-as65003" 65003 true true STATE_IDLE.




Example dotted_quad_example :
  dotted_quad "4.4.4.4" = Some 67372036 /\ dotted_quad "9.9.9.9" = Some 151587081
  /\ dotted_quad "10.0.0.300" = None /\ decimal "24" = Some 24
  /\ decimal_string 65002 = "65002"%string
  /\ split_on "/"%char "10.99.99.0/24" = ["10.99.99.0"; "24"]%string.
Proof. vm_compute. repeat split; reflexivity. Qed.

(** ** Properties of the best-path selector *)

Section PathSelectionFacts.
Context {E : Externals}.
Variable self : BestPathSelector.

(** Every step answers -1, 0 or 1 through the same three-way test. *)
Lemma three_way_swap (x y : Z) :
  (if x <? y then -1 else if y <? x then 1 else 0)
  = - (if y <? x then -1 else if x <? y then 1 else 0).
Proof. destruct (Z.ltb_spec x y), (Z.ltb_spec y x); lia. Qed.

Lemma string_three_way_swap (s t : string) :
  (if String.ltb s t then -1 else if String.ltb t s then 1 else 0)
  = - (if String.ltb t s then -1 else if String.ltb s t then 1 else 0).
Proof.
  unfold String.ltb. rewrite (String.compare_antisym t s).
  destruct (String.compare s t); reflexivity.
Qed.

Lemma or_else_opp (x y : Z) : or_else (- x) (- y) = - or_else x y.
Proof.
  unfold or_else.
  destruct (Z.eqb_spec x 0), (Z.eqb_spec (- x) 0); simpl; lia.
Qed.

Lemma _compare_local_pref_swap a b :
  _compare_local_pref a b = - _compare_local_pref b a.
Proof. unfold _compare_local_pref. cbv zeta. apply three_way_swap. Qed.

Lemma _compare_as_path_length_swap a b :
  _compare_as_path_length a b = - _compare_as_path_length b a.
Proof. unfold _compare_as_path_length. cbv zeta. apply three_way_swap. Qed.

Lemma _compare_origin_swap a b : _compare_origin a b = - _compare_origin b a.
Proof. unfold _compare_origin. cbv zeta. apply three_way_swap. Qed.

Lemma _compare_med_swap a b : _compare_med a b = - _compare_med b a.
Proof.
  unfold _compare_med. cbv zeta.
  destruct (decide (_get_neighbor_as a = _get_neighbor_as b)) as [e|n].
  - rewrite !bool_decide_eq_true_2 by congruence. simpl. apply three_way_swap.
  - rewrite !bool_decide_eq_false_2 by congruence. reflexivity.
Qed.

Lemma _compare_ebgp_ibgp_swap a b :
  _compare_ebgp_ibgp self a b = - _compare_ebgp_ibgp self b a.
Proof.
  unfold _compare_ebgp_ibgp. cbv zeta.
  destruct (bool_decide (_get_neighbor_as a = Some (sel_local_as self))),
           (bool_decide (_get_neighbor_as b = Some (sel_local_as self)));
    reflexivity.
Qed.

Lemma _compare_igp_metric_swap a b :
  _compare_igp_metric self a b = - _compare_igp_metric self b a.
Proof.
  unfold _compare_igp_metric.
  destruct (igp_cost_lookup self) as [lookup|]; [|reflexivity].
  cbv zeta.
  destruct (route_next_hop a) as [[|c1 nha]|], (route_next_hop b) as [[|c2 nhb]|];
    simpl; try reflexivity.
  destruct (lookup (String c1 nha)) as [|[ca|]], (lookup (String c2 nhb)) as [|[cb|]];
    try reflexivity.
  apply three_way_swap.
Qed.

Lemma _compare_age_swap a b : _compare_age a b = - _compare_age b a.
Proof. unfold _compare_age. apply three_way_swap. Qed.

Lemma compare_ip_or_str_swap s t : compare_ip_or_str s t = - compare_ip_or_str t s.
Proof.
  unfold compare_ip_or_str.
  destruct (ip_address_int s), (ip_address_int t);
    auto using three_way_swap, string_three_way_swap.
Qed.

Lemma _compare_router_id_swap a b :
  _compare_router_id a b = - _compare_router_id b a.
Proof. apply compare_ip_or_str_swap. Qed.

Lemma _compare_peer_ip_swap a b : _compare_peer_ip a b = - _compare_peer_ip b a.
Proof. apply compare_ip_or_str_swap. Qed.

Create HintDb swap.
#[local] Hint Resolve _compare_local_pref_swap _compare_as_path_length_swap
  _compare_origin_swap _compare_med_swap _compare_ebgp_ibgp_swap
  _compare_igp_metric_swap _compare_age_swap _compare_router_id_swap
  _compare_peer_ip_swap : swap.

(** Shared by the statements below: swapping the arguments negates. *)
Lemma compare_swap a b : compare self a b = - compare self b a.
Proof.
  unfold compare.
  rewrite (_compare_local_pref_swap a b), (_compare_as_path_length_swap a b),
    (_compare_origin_swap a b), (_compare_med_swap a b),
    (_compare_ebgp_ibgp_swap a b), (_compare_igp_metric_swap a b),
    (_compare_age_swap a b), (_compare_router_id_swap a b),
    (_compare_peer_ip_swap a b).
  change 0 with (- 0) at 1.
  rewrite !or_else_opp. reflexivity.
Qed.

Lemma compare_refl a : compare self a a = 0.
Proof. pose proof (compare_swap a a). lia. Qed.

(** C10.  The comparator is antisymmetric: for every pair of routes and
    every selector (any [igp_cost_lookup], also none), [compare a b] is
    the negation of [compare b a], and so is each of the nine steps. *)
Theorem compare_antisymmetric (a b : BGPRoute) :
  compare self a b = - compare self b a
  /\ _compare_local_pref a b = - _compare_local_pref b a
  /\ _compare_as_path_length a b = - _compare_as_path_length b a
  /\ _compare_origin a b = - _compare_origin b a
  /\ _compare_med a b = - _compare_med b a
  /\ _compare_ebgp_ibgp self a b = - _compare_ebgp_ibgp self b a
  /\ _compare_igp_metric self a b = - _compare_igp_metric self b a
  /\ _compare_age a b = - _compare_age b a
  /\ _compare_router_id a b = - _compare_router_id b a
  /\ _compare_peer_ip a b = - _compare_peer_ip b a.
Proof.
  split; [apply compare_swap|]. repeat split; auto with swap.
Qed.

(** *** The MED step *)



(** [_get_neighbor_as] is the leftmost AS number of the path when no
    segment of the path is empty, and when the path has no AS number at
    all. *)
Lemma _get_neighbor_as_leftmost (route : BGPRoute) (segments : list Segment) :
  attr_as_path (path_attributes route) = Some segments ->
  (forall seg, In seg segments -> snd seg <> []) \/ as_numbers segments = [] ->
  _get_neighbor_as route = head (as_numbers segments).
Proof.
  intros Hpath Hshape. unfold _get_neighbor_as. rewrite Hpath.
  destruct segments as [|[seg_type as_list] rest]; [reflexivity|].
  destruct as_list as [|asn as_list]; [|reflexivity].
  destruct Hshape as [Hfull|Hnone].
  - exfalso. apply (Hfull (seg_type, [])); [left|]; reflexivity.
  - unfold as_numbers in *. simpl in *. rewrite Hnone. reflexivity.
Qed.

(** *** The scan of [select_best] *)

Lemma select_step_cases best candidate :
  (0 < compare self best candidate /\ select_step self best candidate = candidate)
  \/ (compare self best candidate <= 0 /\ select_step self best candidate = best).
Proof.
  unfold select_step. destruct (Z.ltb_spec 0 (compare self best candidate)); auto.
Qed.

(** The survivor of the loop stands in the list, and no later candidate
    beat it. *)
Lemma fold_select_suffix rest : forall first,
  exists pre post,
    first :: rest = pre ++ fold_left (select_step self) rest first :: post
    /\ forall c, In c post -> compare self (fold_left (select_step self) rest first) c <= 0.
Proof.
  induction rest as [|cand rest IH]; intros first; simpl.
  - exists [], []. split; [reflexivity | intros c []].
  - destruct (select_step_cases first cand) as [[Hgt ->]|[Hle ->]].
    + destruct (IH cand) as (pre & post & Heq & Hpost).
      exists (first :: pre), post. split; [|assumption].
      simpl. f_equal. assumption.
    + destruct (IH first) as (pre & post & Heq & Hpost).
      destruct pre as [|p pre]; simpl in Heq.
      * injection Heq as Hbest Hrest.
        exists [], (cand :: post). split.
        { simpl. congruence. }
        intros c [<-|Hc]; [rewrite <- Hbest; assumption | auto].
      * injection Heq as -> Hrest.
        exists (p :: cand :: pre), post. split; [|assumption].
        simpl. do 2 f_equal. exact Hrest.
Qed.

(** With a transitive comparator the survivor is at least as good as every
    route met so far. *)
Lemma fold_select_best routes rest : forall seen best,
  compare_transitive_on self routes ->
  (forall x, In x (best :: seen ++ rest) -> In x routes) ->
  (forall x, In x seen -> compare self best x <= 0) ->
  forall c, In c (best :: seen ++ rest) ->
    compare self (fold_left (select_step self) rest best) c <= 0.
Proof.
  induction rest as [|cand rest IH]; intros seen best Htrans Hin Hseen c Hc; simpl.
  - rewrite app_nil_r in Hc. destruct Hc as [<-|Hc].
    + rewrite compare_refl. lia.
    + auto.
  - assert (Hcand : In cand routes).
    { apply Hin. right. apply in_or_app. right. left. reflexivity. }
    assert (Hbest : In best routes) by (apply Hin; left; reflexivity).
    destruct (select_step_cases best cand) as [[Hgt ->]|[Hle ->]].
    + apply (IH (best :: seen) cand Htrans).
      * intros x [<-|Hx]; [assumption|]. apply Hin.
        simpl in Hx. destruct Hx as [<-|Hx]; [left; reflexivity|].
        right. apply in_app_or in Hx. apply in_or_app.
        destruct Hx; [left; assumption | right; right; assumption].
      * assert (Hcb : compare self cand best <= 0).
        { rewrite compare_swap. lia. }
        intros x [<-|Hx]; [assumption|].
        apply (Htrans cand best x); auto.
        apply Hin. right. apply in_or_app. left. assumption.
      * destruct Hc as [<-|Hc]; [right; left; reflexivity|].
        apply in_app_or in Hc. destruct Hc as [Hc|[<-|Hc]].
        { right. right. apply in_or_app. left. assumption. }
        { left. reflexivity. }
        { right. right. apply in_or_app. right. assumption. }
    + apply (IH (cand :: seen) best Htrans).
      * intros x [<-|Hx]; [assumption|]. apply Hin.
        simpl in Hx. destruct Hx as [<-|Hx]; [right; apply in_or_app; right; left; reflexivity|].
        right. apply in_app_or in Hx. apply in_or_app.
        destruct Hx; [left; assumption | right; right; assumption].
      * intros x [<-|Hx]; [assumption | auto].
      * destruct Hc as [<-|Hc]; [left; reflexivity|].
        apply in_app_or in Hc. destruct Hc as [Hc|[<-|Hc]].
        { right. right. apply in_or_app. left. assumption. }
        { right. left. reflexivity. }
        { right. right. apply in_or_app. right. assumption. }
Qed.

Lemma select_best_fold first rest :
  select_best self (first :: rest) = Some (fold_left (select_step self) rest first).
Proof. destruct rest; reflexivity. Qed.

(** C2 (amended).  [select_best] answers None on the empty list.  On a
    non-empty list it returns the survivor [r] of a left-to-right scan:
    [r] stands in the list, [compare r c <= 0] for every candidate [c]
    that follows it, and for every candidate of the list when [compare]
    is transitive on the candidates. *)
Theorem select_best_scan (routes : list BGPRoute) :
  select_best self [] = None
  /\ (routes <> [] ->
      exists r pre post,
        select_best self routes = Some r
        /\ routes = pre ++ r :: post
        /\ (forall c, In c post -> compare self r c <= 0)
        /\ (compare_transitive_on self routes ->
              forall c, In c routes -> compare self r c <= 0)).
Proof.
  split; [reflexivity|]. intros Hne.
  destruct routes as [|first rest]; [congruence|].
  destruct (fold_select_suffix rest first) as (pre & post & Heq & Hpost).
  exists (fold_left (select_step self) rest first), pre, post.
  rewrite select_best_fold.
  split; [reflexivity|]. split; [assumption|]. split; [assumption|].
  intros Htrans c Hc.
  apply (fold_select_best (first :: rest) rest [] first Htrans); auto.
  intros x [].
Qed.

End PathSelectionFacts.

(** *** When the comparator is transitive *)

Section Transitivity.
Context {E : Externals}.
Variable self : BestPathSelector.
Variable routes : list BGPRoute.

Lemma weak_order_or_else (s1 s2 : BGPRoute -> BGPRoute -> Z) :
  weak_order_on routes s1 -> weak_order_on routes s2 ->
  weak_order_on routes (fun a b => or_else (s1 a b) (s2 a b)).
Proof.
  intros H1 H2 a b c Ha Hb Hc. unfold or_else.
  specialize (H1 a b c Ha Hb Hc). specialize (H2 a b c Ha Hb Hc).
  destruct (Z.eqb_spec (s1 a b) 0), (Z.eqb_spec (s1 b c) 0), (Z.eqb_spec (s1 a c) 0);
    cbn [negb]; intros Hab Hbc; lia.
Qed.

Lemma weak_order_tie : weak_order_on routes (fun _ _ => 0).
Proof. intros a b c _ _ _ _ _. lia. Qed.

(** Case split on every integer test of the goal. *)
Ltac split_ltb :=
  repeat match goal with
         | |- context [?x <? ?y] => destruct (Z.ltb_spec x y)
         end.

(** A step that compares an integer key three ways. *)
Lemma weak_order_key (k : BGPRoute -> Z) :
  weak_order_on routes
    (fun a b => if k a <? k b then -1 else if k b <? k a then 1 else 0).
Proof. intros a b c _ _ _. split_ltb; lia. Qed.

Lemma weak_order_ext (s1 s2 : BGPRoute -> BGPRoute -> Z) :
  (forall a b, In a routes -> In b routes -> s1 a b = s2 a b) ->
  weak_order_on routes s2 -> weak_order_on routes s1.
Proof.
  intros Hext H2 a b c Ha Hb Hc.
  rewrite (Hext a b Ha Hb), (Hext b c Hb Hc), (Hext a c Ha Hc). apply H2; assumption.
Qed.

Lemma weak_order_local_pref : weak_order_on routes _compare_local_pref.
Proof.
  apply (weak_order_ext _ (fun a b =>
    let k r := - default 100 (attr_local_pref (path_attributes r)) in
    if k a <? k b then -1 else if k b <? k a then 1 else 0)).
  - intros a b _ _. unfold _compare_local_pref. cbv zeta.
    split_ltb; lia.
  - apply weak_order_key.
Qed.

Lemma weak_order_as_path_length : weak_order_on routes _compare_as_path_length.
Proof.
  exact (weak_order_key
           (fun r => default 0 (as_path_length <$> attr_as_path (path_attributes r)))).
Qed.

Lemma weak_order_origin : weak_order_on routes _compare_origin.
Proof.
  exact (weak_order_key
           (fun r => default ORIGIN_INCOMPLETE (attr_origin (path_attributes r)))).
Qed.

Lemma weak_order_age : weak_order_on routes _compare_age.
Proof. exact (weak_order_key timestamp). Qed.

(** Among routes of one neighbor AS the MED step compares a key. *)
Lemma weak_order_med (neighbor : option Z) :
  (forall r, In r routes -> _get_neighbor_as r = neighbor) ->
  weak_order_on routes _compare_med.
Proof.
  intros Hsame.
  apply (weak_order_ext _ (fun a b =>
    let k r := default 0 (attr_med (path_attributes r)) in
    if k a <? k b then -1 else if k b <? k a then 1 else 0)).
  - intros a b Ha Hb. unfold _compare_med. cbv zeta.
    rewrite (Hsame a Ha), (Hsame b Hb).
    rewrite bool_decide_eq_true_2 by reflexivity. reflexivity.
  - apply weak_order_key.
Qed.

Lemma weak_order_ebgp_ibgp : weak_order_on routes (_compare_ebgp_ibgp self).
Proof.
  intros a b c _ _ _. unfold _compare_ebgp_ibgp. cbv zeta.
  destruct (bool_decide (_get_neighbor_as a = Some (sel_local_as self))),
    (bool_decide (_get_neighbor_as b = Some (sel_local_as self))),
    (bool_decide (_get_neighbor_as c = Some (sel_local_as self)));
    simpl; lia.
Qed.

Lemma string_three_way (s t : string) :
  (if String.ltb s t then -1 else if String.ltb t s then 1 else 0)
  = match String.compare s t with Lt => -1 | Eq => 0 | Gt => 1 end.
Proof.
  unfold String.ltb. rewrite (String.compare_antisym s t).
  destruct (String.compare t s); reflexivity.
Qed.

Lemma string_compare_trans (s t u : string) :
  String.compare s t <> Gt -> String.compare t u <> Gt ->
  String.compare s u <> Gt
  /\ (String.compare s u = Eq -> String.compare s t = Eq /\ String.compare t u = Eq).
Proof.
  intros Hst Htu.
  destruct (String.compare s t) eqn:Est; [| |congruence];
    destruct (String.compare t u) eqn:Etu; try congruence.
  - apply String_as_OT.cmp_eq in Est, Etu. subst.
    assert (Huu : String.compare u u = Eq) by (apply String_as_OT.cmp_eq; reflexivity).
    rewrite Huu. split; [discriminate | auto].
  - apply String_as_OT.cmp_eq in Est. subst. rewrite Etu.
    split; [discriminate | discriminate].
  - apply String_as_OT.cmp_eq in Etu. subst. rewrite Est.
    split; [discriminate | discriminate].
  - apply String_as_OT.cmp_lt in Est, Etu.
    pose proof (String_as_OT.lt_trans _ _ _ Est Etu) as Hsu.
    apply String_as_OT.cmp_lt in Hsu. unfold String_as_OT.cmp in Hsu. rewrite Hsu.
    split; [discriminate | discriminate].
Qed.

(** The router-id and peer-address steps compare integers when every
    string is an address, and strings when none is. *)
Lemma weak_order_ip_or_str (f : BGPRoute -> string) :
  ids_uniform routes f ->
  weak_order_on routes (fun a b => compare_ip_or_str (f a) (f b)).
Proof.
  intros [Hall|Hnone].
  - apply (weak_order_ext _ (fun a b =>
      let k r := default 0 (ip_address_int (f r)) in
      if k a <? k b then -1 else if k b <? k a then 1 else 0)).
    + intros a b Ha Hb. unfold compare_ip_or_str. cbv zeta.
      destruct (Hall a Ha) as [ia ->], (Hall b Hb) as [ib ->]. reflexivity.
    + apply weak_order_key.
  - intros a b c Ha Hb Hc. unfold compare_ip_or_str.
    rewrite (Hnone a Ha), (Hnone b Hb), ?(Hnone c Hc).
    rewrite !string_three_way.
    intros Hab Hbc.
    destruct (string_compare_trans (f a) (f b) (f c)) as [Hle Htie].
    { destruct (String.compare (f a) (f b)); [discriminate | discriminate | lia]. }
    { destruct (String.compare (f b) (f c)); [discriminate | discriminate | lia]. }
    split.
    + destruct (String.compare (f a) (f c)); [lia | lia | congruence].
    + intros Hac.
      destruct (String.compare (f a) (f c)); [|lia|lia].
      destruct (Htie eq_refl) as [-> ->]. split; reflexivity.
Qed.

(** [compare] is transitive on candidates that share one neighbor AS, tie
    on the IGP step (as they do without a cost lookup), and whose peer
    identifiers and peer addresses are uniformly addresses or not. *)
Lemma compare_transitive_on_uniform (neighbor : option Z) :
  (forall r, In r routes -> _get_neighbor_as r = neighbor) ->
  (forall a b, In a routes -> In b routes -> _compare_igp_metric self a b = 0) ->
  ids_uniform routes peer_id ->
  ids_uniform routes peer_ip ->
  compare_transitive_on self routes.
Proof.
  intros Hmed Higp Hid Hip.
  assert (Hweak : weak_order_on routes (compare self)).
  { unfold compare.
    repeat apply weak_order_or_else;
      auto using weak_order_local_pref, weak_order_as_path_length, weak_order_origin,
        weak_order_age, weak_order_ebgp_ibgp, weak_order_tie.
    - apply (weak_order_med neighbor Hmed).
    - apply (weak_order_ext _ (fun _ _ => 0)); [assumption | apply weak_order_tie].
    - exact (weak_order_ip_or_str peer_id Hid).
    - exact (weak_order_ip_or_str peer_ip Hip). }
  intros x y z Hx Hy Hz Hxy Hyz. apply (Hweak x y z); assumption.
Qed.

End Transitivity.



(** C2 as stated fails: the scan over [route_A; route_B; route_C] ends on
    [route_C], which loses to [route_B] on MED. *)
Lemma select_best_not_best :
  select_best (E := cpython) example_selector [route_A; route_B; route_C] = Some route_C
  /\ In route_B [route_A; route_B; route_C]
  /\ compare (E := cpython) example_selector route_C route_B = 1
  /\ ~ (compare (E := cpython) example_selector route_C route_B <= 0).
Proof.
  split; [vm_compute; reflexivity|].
  split; [right; left; reflexivity|].
  split; [vm_compute; reflexivity|].
  vm_compute. intros Hle. apply Hle. reflexivity.
Qed.

Lemma compare_transitive_on_pair :
  compare_transitive_on (E := cpython) example_selector [route_B; route_C].
Proof.
  apply (compare_transitive_on_uniform (E := cpython) example_selector
           [route_B; route_C] (Some 65020)).
  - intros r [<-|[<-|[]]]; reflexivity.
  - intros a b _ _. reflexivity.
  - left. intros r [<-|[<-|[]]]; vm_compute; eexists; reflexivity.
  - left. intros r [<-|[<-|[]]]; vm_compute; eexists; reflexivity.
Qed.

(** C2 (amended), on the two candidates from AS 65020. *)
Lemma select_best_scan_witness :
  exists r, select_best (E := cpython) example_selector [route_B; route_C] = Some r
    /\ forall c, In c [route_B; route_C] ->
         compare (E := cpython) example_selector r c <= 0.
Proof.
  destruct (select_best_scan (E := cpython) example_selector [route_B; route_C])
    as (_ & Hscan).
  destruct Hscan as (r & pre & post & Hsel & _ & _ & Hall); [discriminate|].
  exists r. split; [assumption|].
  apply Hall. exact compare_transitive_on_pair.
Defined.

(** ** Properties of the incoming-connection handler *)

Section HandlerFacts.
Context {E : Externals}.

Lemma store_session_twice self key s1 s2 :
  store_session (store_session self key s1) key s2 = store_session self key s2.
Proof.
  unfold store_session, set_sessions. simpl. rewrite insert_insert_eq. reflexivity.
Qed.

(** C4 (amended).  A connection dispatched to an Established session is
    rejected (its writer is closed, [accept_connection] is not called)
    when the session was found by source address and is not passive, and
    when it was identified as a mesh peer through its OPEN.  A passive
    session found by source address is handed the connection whatever
    its FSM state. *)
Theorem established_session_rejects (self : BGPAgent) (conn : IncomingConnection) :
  (forall session,
      sessions self !! peername conn = Some session ->
      passive (config session) = false ->
      fsm_state session = STATE_ESTABLISHED ->
      _handle_incoming_connection self conn
      = (self, [WriterClose (conn_writer conn)]))
  /\ (forall open_msg rd key session,
      sessions self !! peername conn = None ->
      mesh_sessions self <> ∅ ->
      _read_open_message (conn_reader conn) 30000 = (Some open_msg, rd) ->
      mesh_get self (my_as open_msg) = Some (key, session) ->
      fsm_state session = STATE_ESTABLISHED ->
      _handle_incoming_connection self conn
      = (store_session self key (set_pending_open session None),
         [WriterClose (conn_writer conn)]))
  /\ (forall session,
      sessions self !! peername conn = Some session ->
      passive (config session) = true ->
      _handle_incoming_connection self conn
      = (self, [AcceptConnection (peername conn) (conn_reader conn)
                                 (conn_writer conn) false])).
Proof.
  split; [|split].
  - intros session Hget Hpassive Hstate.
    unfold _handle_incoming_connection. rewrite Hget.
    unfold collision_handling. rewrite Hpassive, Hstate. reflexivity.
  - intros open_msg rd key session Hget Hmesh Hread Hmatch Hstate.
    unfold _handle_incoming_connection. rewrite Hget.
    rewrite bool_decide_eq_false_2 by assumption. cbn [negb].
    rewrite Hread, Hmatch.
    unfold collision_handling. cbn [negb andb].
    rewrite andb_false_r.
    simpl fsm_state. rewrite bool_decide_eq_true_2 by assumption.
    unfold reject. rewrite store_session_twice. reflexivity.
  - intros session Hget Hpassive.
    unfold _handle_incoming_connection. rewrite Hget.
    unfold collision_handling, accept. rewrite Hpassive. reflexivity.
Qed.



(** The mesh index answers with the peer added for that AS number. *)
Lemma add_peer_mesh_get (self : BGPAgent) (config : BGPSessionConfig)
    (session : BGPSession) :
  sessions self !! cfg_peer_ip config = None ->
  accept_any_source config = true ->
  mesh_get (fst (add_peer self config session)) (peer_as config)
  = Some (cfg_peer_ip config, session).
Proof.
  intros Hfresh Hmesh. unfold add_peer. rewrite Hfresh, Hmesh.
  unfold mesh_get. simpl. rewrite lookup_insert_eq. simpl.
  rewrite lookup_insert_eq. reflexivity.
Qed.

Lemma wait_readexactly_buffered n timeout buf chunks eof elapsed :
  (n <= length buf)%nat ->
  wait_readexactly n timeout buf chunks eof elapsed
  = (ReadBytes (take n buf), mkStreamReader (drop n buf) chunks eof).
Proof.
  intros Hlen. apply Nat.leb_le in Hlen.
  destruct chunks as [|[delay chunk] rest]; simpl; rewrite Hlen; reflexivity.
Qed.

(** Exactly one message is taken off the stream: with a well-formed OPEN
    header announcing [body] at the front of the buffer, the decoder
    receives header and body, and what follows stays buffered. *)
Lemma _read_open_message_consumes header body rest chunks eof timeout :
  length header = BGP_HEADER_SIZE ->
  take 16 header = repeat Byte.xff 16 ->
  byte_val (header !! 18%nat) = MSG_OPEN ->
  256 * byte_val (header !! 16%nat) + byte_val (header !! 17%nat)
  = Z.of_nat (BGP_HEADER_SIZE + length body) ->
  body <> [] ->
  _read_open_message (mkStreamReader (header ++ body ++ rest) chunks eof) timeout
  = (BGPOpen_decode (header ++ body), mkStreamReader rest chunks eof).
Proof.
  intros Hlen Hmarker Htype Hfield Hbody.
  unfold _read_open_message, wait_for_readexactly. simpl.
  rewrite wait_readexactly_buffered by (rewrite length_app; lia).
  rewrite (take_app_length' header) by (symmetry; exact Hlen).
  rewrite (drop_app_length' header) by (symmetry; exact Hlen).
  rewrite Hmarker, Htype, Hfield.
  rewrite bool_decide_eq_true_2 by reflexivity. simpl negb. cbn [negb].
  assert (Hpos : (0 < length body)%nat) by (destruct body; [congruence | simpl; lia]).
  replace (Z.of_nat (BGP_HEADER_SIZE + length body) - Z.of_nat BGP_HEADER_SIZE)
    with (Z.of_nat (length body)) by lia.
  destruct (Z.ltb_spec 0 (Z.of_nat (length body))) as [_|Hle]; [|lia].
  rewrite Nat2Z.id. unfold wait_for_readexactly. simpl.
  rewrite wait_readexactly_buffered by (rewrite length_app; lia).
  rewrite take_app_length, drop_app_length. reflexivity.
Qed.

(** No header within the timeout: the read answers None. *)
Lemma _read_open_message_timeout reader timeout rd :
  wait_for_readexactly reader BGP_HEADER_SIZE timeout = (TimeoutError, rd) ->
  _read_open_message reader timeout = (None, rd).
Proof. intros Hwait. unfold _read_open_message. rewrite Hwait. reflexivity. Qed.

(** The timeout bounds each of the two reads: a header in time followed by
    a body that is late also answers None. *)
Lemma _read_open_message_body_timeout reader timeout header rd1 rd2 n :
  wait_for_readexactly reader BGP_HEADER_SIZE timeout = (ReadBytes header, rd1) ->
  wait_for_readexactly rd1 n timeout = (TimeoutError, rd2) ->
  256 * byte_val (header !! 16%nat) + byte_val (header !! 17%nat)
  = Z.of_nat (BGP_HEADER_SIZE + n) ->
  (0 < n)%nat ->
  fst (_read_open_message reader timeout) = None.
Proof.
  intros Hhead Hbody Hfield Hn. unfold _read_open_message. rewrite Hhead.
  cbv zeta. destruct (negb (bool_decide _)); [reflexivity|].
  destruct (negb (_ =? MSG_OPEN)); [reflexivity|].
  rewrite Hfield.
  replace (Z.of_nat (BGP_HEADER_SIZE + n) - Z.of_nat BGP_HEADER_SIZE)
    with (Z.of_nat n) by lia.
  destruct (Z.ltb_spec 0 (Z.of_nat n)) as [_|Hle]; [|lia].
  rewrite Nat2Z.id, Hbody. reflexivity.
Qed.

End HandlerFacts.

(** C4 (amended), on an active peer and on a mesh peer, both Established. *)
Lemma established_session_rejects_witness :
  _handle_incoming_connection (E := cpython)
    (active_agent "4.4.4.4" STATE_ESTABLISHED) (example_connection "9.9.9.9" 0 [])
  = (active_agent "4.4.4.4" STATE_ESTABLISHED, [WriterClose 2])
  /\ snd (_handle_incoming_connection (E := cpython)
            (mesh_agent STATE_ESTABLISHED)
            (example_connection "203.0.113.7" 0 (open_bytes Byte.xfd Byte.xea)))
     = [WriterClose 2]
  /\ snd (_handle_incoming_connection (E := cpython)
            (passive_agent "4.4.4.4" STATE_IDLE) (example_connection "172.16.0.1" 0 []))
     = [AcceptConnection "172.16.0.1" (mkStreamReader [] [(0, [])] false) 2 false].
Proof.
  pose proof (established_session_rejects (E := cpython)
                (active_agent "4.4.4.4" STATE_ESTABLISHED)
                (example_connection "9.9.9.9" 0 [])) as (Hactive & _ & _).
  pose proof (established_session_rejects (E := cpython)
                (mesh_agent STATE_ESTABLISHED)
                (example_connection "203.0.113.7" 0 (open_bytes Byte.xfd Byte.xea)))
    as (_ & Hmesh & _).
  pose proof (established_session_rejects (E := cpython)
                (passive_agent "4.4.4.4" STATE_IDLE)
                (example_connection "172.16.0.1" 0 [])) as (_ & _ & Hpassive).
  split; [|split].
  - apply (Hactive (example_session "9.9.9.9" 65000 false false STATE_ESTABLISHED));
      reflexivity.
  - rewrite (Hmesh (mkBGPOpen 4 65002 90 "9.9.9.9")
                   (mkStreamReader [] [] false) "mesh-as65002"%string
                   (example_session "mesh-as65002" 65002 true true STATE_ESTABLISHED));
      try reflexivity.
    vm_compute. discriminate.
  - rewrite (Hpassive (example_session "172.16.0.1" 65000 true false STATE_IDLE));
      reflexivity.
Defined.

(** C4 as stated fails: a passive peer found by source address is
    Established, and the new connection is handed to its session; nothing
    is closed. *)
Lemma established_passive_session_accepts :
  let self := passive_agent "4.4.4.4" STATE_ESTABLISHED in
  let conn := example_connection "172.16.0.1" 0 [] in
  (exists session, sessions self !! peername conn = Some session
                   /\ fsm_state session = STATE_ESTABLISHED)
  /\ snd (_handle_incoming_connection (E := cpython) self conn)
     = [AcceptConnection "172.16.0.1" (conn_reader conn) 2 false]
  /\ ~ In (WriterClose (conn_writer conn))
          (snd (_handle_incoming_connection (E := cpython) self conn)).
Proof.
  split; [|split].
  - eexists. split; reflexivity.
  - reflexivity.
  - intros [Habs|[]]. discriminate Habs.
Qed.



Lemma mesh_agent_consistent (state : FsmState) : mesh_consistent (mesh_agent state).
Proof.
  intros asn key Hget. unfold mesh_agent, example_agent in Hget. cbn in Hget.
  apply lookup_singleton_Some in Hget as [<- <-].
  eexists. split; [apply lookup_singleton_eq|]. split; reflexivity.
Qed.



(** ** Properties of the advertisement policy *)

(** C8.  A route that is not locally originated is never advertised to the
    session whose peer-id it was learned from; a locally originated route
    is advertised to every session.  Both hold for every agent, with or
    without a route reflector. *)
Theorem _should_advertise_to_peer_split_horizon (self : BGPAgent)
    (route : BGPRoute) (session : BGPSession) :
  (source route <> "local"%string ->
   peer_id route = session_peer_id session ->
   _should_advertise_to_peer self route session = false)
  /\ (source route = "local"%string ->
      _should_advertise_to_peer self route session = true).
Proof.
  unfold _should_advertise_to_peer. split.
  - intros Hsource Hpeer.
    rewrite bool_decide_eq_false_2 by assumption.
    rewrite bool_decide_eq_true_2 by assumption. reflexivity.
  - intros Hsource. rewrite bool_decide_eq_true_2 by assumption. reflexivity.
Qed.

(** C8, with route reflection enabled: a route learned from 192.0.2.1 is
    not sent back there, a local route is. *)
Lemma _should_advertise_to_peer_split_horizon_witness :
  _should_advertise_to_peer reflecting_agent route_A
    (example_session "192.0.2.1" 65010 false false STATE_ESTABLISHED) = false
  /\ _should_advertise_to_peer reflecting_agent local_route
       (example_session "4.4.4.4" 65001 false false STATE_ESTABLISHED) = true.
Proof.
  split.
  - apply (_should_advertise_to_peer_split_horizon reflecting_agent route_A
             (example_session "192.0.2.1" 65010 false false STATE_ESTABLISHED)).
    + vm_compute. discriminate.
    + reflexivity.
  - apply (_should_advertise_to_peer_split_horizon reflecting_agent local_route
             (example_session "4.4.4.4" 65001 false false STATE_ESTABLISHED)).
    reflexivity.
Defined.

(** ** Properties of the attribute preparation *)

Lemma as_numbers_prepend (asn : Z) (segments : list Segment) :
  as_numbers (aspath_prepend asn segments) = asn :: as_numbers segments.
Proof.
  destruct segments as [|[seg_type as_list] rest]; [reflexivity|].
  unfold aspath_prepend. destruct (seg_type =? AS_SEQUENCE); reflexivity.
Qed.

Lemma as_paths_of_app (l1 l2 : list PathAttribute) :
  as_paths_of (l1 ++ l2) = as_paths_of l1 ++ as_paths_of l2.
Proof. apply omap_app. Qed.

Lemma with_code_app (c : Z) (l1 l2 : list PathAttribute) :
  with_code c (l1 ++ l2) = with_code c l1 ++ with_code c l2.
Proof. apply List.filter_app. Qed.

Lemma as_paths_of_cons (a : PathAttribute) (l : list PathAttribute) :
  as_paths_of (a :: l)
  = match attr_segments a with
    | Some segments => segments :: as_paths_of l
    | None => as_paths_of l
    end.
Proof. unfold as_paths_of. simpl. destruct (attr_segments a); reflexivity. Qed.

Lemma with_code_cons (c : Z) (a : PathAttribute) (l : list PathAttribute) :
  with_code c (a :: l)
  = if type_code a =? c then a :: with_code c l else with_code c l.
Proof. reflexivity. Qed.

Lemma py_insert_split {A} (i : nat) (x : A) (l : list A) :
  exists l1 l2, l = l1 ++ l2 /\ py_insert i x l = l1 ++ x :: l2.
Proof.
  exists (take i l), (drop i l). split; [symmetry; apply take_drop | reflexivity].
Qed.

(** Inserting an attribute that is no AS_PATH leaves the AS_PATHs alone. *)
Lemma as_paths_of_py_insert_other (i : nat) (x : PathAttribute)
    (l : list PathAttribute) :
  attr_segments x = None -> as_paths_of (py_insert i x l) = as_paths_of l.
Proof.
  intros Hx. destruct (py_insert_split i x l) as (l1 & l2 & -> & ->).
  rewrite !as_paths_of_app, as_paths_of_cons, Hx. reflexivity.
Qed.

(** Inserting an AS_PATH into a list without one. *)
Lemma as_paths_of_py_insert_first (i : nat) (segments : list Segment)
    (l : list PathAttribute) :
  as_paths_of l = [] ->
  as_paths_of (py_insert i (ASPathAttribute segments) l) = [segments].
Proof.
  intros Hl. destruct (py_insert_split i (ASPathAttribute segments) l)
    as (l1 & l2 & -> & ->).
  rewrite as_paths_of_app in Hl. apply app_eq_nil in Hl as [H1 H2].
  rewrite as_paths_of_app, as_paths_of_cons, H1, H2. reflexivity.
Qed.

Lemma with_code_py_insert_other (c : Z) (i : nat) (x : PathAttribute)
    (l : list PathAttribute) :
  type_code x <> c -> with_code c (py_insert i x l) = with_code c l.
Proof.
  intros Hx. destruct (py_insert_split i x l) as (l1 & l2 & -> & ->).
  rewrite !with_code_app, with_code_cons.
  destruct (Z.eqb_spec (type_code x) c); [contradiction | reflexivity].
Qed.

Lemma with_code_nil_existsb (c : Z) (l : list PathAttribute) :
  existsb (fun attr => type_code attr =? c) l = false <-> with_code c l = [].
Proof.
  induction l as [|a l IH]; [simpl; tauto|].
  rewrite with_code_cons. simpl existsb.
  destruct (type_code a =? c); simpl; [split; discriminate | exact IH].
Qed.

Lemma as_paths_of_nil_existsb (l : list PathAttribute) :
  existsb (fun attr => type_code attr =? ATTR_AS_PATH) l = false -> as_paths_of l = [].
Proof.
  induction l as [|a l IH]; [reflexivity|].
  simpl existsb. intros Hex. apply orb_false_iff in Hex as [Ha Hl].
  rewrite as_paths_of_cons, (IH Hl).
  destruct a; try reflexivity. discriminate Ha.
Qed.

Section PrepareFacts.
Variable self : BGPAgent.
Variable session : BGPSession.

Lemma prepare_step_spec (st : PrepareState) (attr : PathAttribute) :
  as_path_typed attr ->
  prepare_step self session st attr
  = Some (mkPrepareState
            (modified st ++ prepared self session attr)
            (has_origin st || (type_code attr =? ATTR_ORIGIN))
            (has_as_path st || (type_code attr =? ATTR_AS_PATH))
            (has_next_hop st || (type_code attr =? ATTR_NEXT_HOP))).
Proof.
  intros Htyped. unfold prepare_step, prepared.
  destruct (Z.eqb_spec (type_code attr) ATTR_ORIGIN) as [e1|n1].
  { rewrite e1. simpl. rewrite orb_true_r, !orb_false_r. reflexivity. }
  destruct (Z.eqb_spec (type_code attr) ATTR_NEXT_HOP) as [e3|n3].
  { rewrite e3. simpl. rewrite orb_true_r, !orb_false_r. reflexivity. }
  destruct (Z.eqb_spec (type_code attr) ATTR_AS_PATH) as [e2|n2].
  { destruct (Htyped e2) as [segments ->]. simpl.
    rewrite orb_true_r, !orb_false_r. reflexivity. }
  rewrite !orb_false_r.
  destruct (type_code attr =? ATTR_LOCAL_PREF);
    [destruct (peer_as (config session) =? local_as self)|];
    try reflexivity.
  rewrite app_nil_r. destruct st; reflexivity.
Qed.

Lemma prepare_loop_spec (attributes : list PathAttribute) :
  Forall as_path_typed attributes ->
  forall st,
    prepare_loop self session attributes st
    = Some (mkPrepareState
              (modified st ++ flat_map (prepared self session) attributes)
              (has_origin st
               || existsb (fun attr => type_code attr =? ATTR_ORIGIN) attributes)
              (has_as_path st
               || existsb (fun attr => type_code attr =? ATTR_AS_PATH) attributes)
              (has_next_hop st
               || existsb (fun attr => type_code attr =? ATTR_NEXT_HOP) attributes)).
Proof.
  induction 1 as [|attr rest Hattr Hrest IH]; intros st.
  - simpl. rewrite app_nil_r, !orb_false_r. destruct st; reflexivity.
  - simpl. rewrite (prepare_step_spec st attr Hattr). simpl.
    rewrite IH. simpl. rewrite <- app_assoc, !orb_assoc. reflexivity.
Qed.

(** The AS_PATHs the loop emits are the input's, each with the local AS in
    front on an eBGP session. *)
Lemma as_paths_of_prepared (attributes : list PathAttribute) :
  Forall as_path_typed attributes ->
  as_paths_of (flat_map (prepared self session) attributes)
  = map (fun segments =>
           if negb (peer_as (config session) =? local_as self)
           then aspath_prepend (local_as self) segments
           else segments)
        (as_paths_of attributes).
Proof.
  induction 1 as [|attr rest Hattr Hrest IH]; [reflexivity|].
  simpl flat_map. rewrite as_paths_of_app, IH, as_paths_of_cons.
  unfold prepared.
  destruct (Z.eqb_spec (type_code attr) ATTR_ORIGIN) as [e1|n1].
  { destruct attr; try discriminate e1; reflexivity. }
  destruct (Z.eqb_spec (type_code attr) ATTR_NEXT_HOP) as [e3|n3].
  { destruct attr; try discriminate e3; reflexivity. }
  destruct (Z.eqb_spec (type_code attr) ATTR_AS_PATH) as [e2|n2].
  { destruct (Hattr e2) as [segments ->]. reflexivity. }
  destruct attr; try reflexivity;
    try (destruct (_ =? ATTR_LOCAL_PREF); [destruct (_ =? _)|]; reflexivity).
  contradiction n2. reflexivity.
Qed.

(** The LOCAL_PREFs the loop emits: the input's on iBGP, none on eBGP. *)
Lemma with_code_local_pref_prepared (attributes : list PathAttribute) :
  with_code ATTR_LOCAL_PREF (flat_map (prepared self session) attributes)
  = if peer_as (config session) =? local_as self
    then with_code ATTR_LOCAL_PREF attributes
    else [].
Proof.
  induction attributes as [|attr rest IH].
  { destruct (_ =? _); reflexivity. }
  simpl flat_map. rewrite with_code_app, IH, with_code_cons.
  unfold prepared.
  destruct (Z.eqb_spec (type_code attr) ATTR_ORIGIN) as [e1|n1].
  { rewrite e1. rewrite with_code_cons, e1. simpl.
    destruct (_ =? _); reflexivity. }
  destruct (Z.eqb_spec (type_code attr) ATTR_NEXT_HOP) as [e3|n3].
  { rewrite e3. simpl. destruct (_ =? _); reflexivity. }
  destruct (Z.eqb_spec (type_code attr) ATTR_AS_PATH) as [e2|n2].
  { rewrite e2. simpl. destruct (attr_segments attr); destruct (_ =? _); reflexivity. }
  destruct (Z.eqb_spec (type_code attr) ATTR_LOCAL_PREF) as [e5|n5].
  - destruct (peer_as (config session) =? local_as self); [|reflexivity].
    rewrite with_code_cons, e5. reflexivity.
  - rewrite with_code_cons.
    destruct (Z.eqb_spec (type_code attr) ATTR_LOCAL_PREF); [contradiction|].
    destruct (_ =? _); reflexivity.
Qed.

End PrepareFacts.

Lemma as_paths_of_existsb_true (l : list PathAttribute) :
  Forall as_path_typed l ->
  existsb (fun attr => type_code attr =? ATTR_AS_PATH) l = true ->
  as_paths_of l <> [].
Proof.
  induction 1 as [|a l Ha Hl IH]; [discriminate|].
  simpl existsb. rewrite as_paths_of_cons. intros Hex.
  destruct (Z.eqb_spec (type_code a) ATTR_AS_PATH) as [e|n].
  - destruct (Ha e) as [segments ->]. discriminate.
  - simpl in Hex. destruct (attr_segments a); [discriminate | auto].
Qed.

Lemma Forall_head_prepend (asn : Z) (paths : list (list Segment)) :
  Forall (fun segments => head (as_numbers segments) = Some asn)
         (map (aspath_prepend asn) paths).
Proof.
  apply List.Forall_forall. intros segments Hin.
  apply in_map_iff in Hin as (input & <- & _).
  rewrite as_numbers_prepend. reflexivity.
Qed.

(** C7.  On an attribute list whose entries under the AS_PATH code are
    ASPathAttribute objects the function returns a list [modified].  For
    an eBGP session no attribute of [modified] has the LOCAL_PREF code and
    its AS_PATHs are the input's with the local AS prepended (one AS_PATH
    holding just the local AS when the input has none), so the local AS is
    their leftmost number.  For an iBGP session its AS_PATHs are the
    input's, unchanged (an empty one when the input has none), and its
    LOCAL_PREF attributes are the input's, or one LOCAL_PREF of 100 when
    the input has none. *)
Theorem _prepare_attributes_for_advertisement_spec (self : BGPAgent)
    (attributes : list PathAttribute) (session : BGPSession) :
  Forall as_path_typed attributes ->
  exists modified,
    _prepare_attributes_for_advertisement self attributes session = Some modified
    /\ (peer_as (config session) <> local_as self ->
        (forall attr, In attr modified -> type_code attr <> ATTR_LOCAL_PREF)
        /\ as_paths_of modified
           = match as_paths_of attributes with
             | [] => [aspath_prepend (local_as self) []]
             | paths => map (aspath_prepend (local_as self)) paths
             end
        /\ as_paths_of modified <> []
        /\ Forall (fun segments => head (as_numbers segments) = Some (local_as self))
                  (as_paths_of modified))
    /\ (peer_as (config session) = local_as self ->
        as_paths_of modified
        = match as_paths_of attributes with
          | [] => [[]]
          | paths => paths
          end
        /\ with_code ATTR_LOCAL_PREF modified
           = match with_code ATTR_LOCAL_PREF attributes with
             | [] => [LocalPrefAttribute 100]
             | prefs => prefs
             end).
Proof.
  intros Htyped. unfold _prepare_attributes_for_advertisement.
  rewrite (prepare_loop_spec self session attributes Htyped). simpl.
  pose proof (as_paths_of_prepared self session attributes Htyped) as HAP.
  pose proof (with_code_local_pref_prepared self session attributes) as HLP.
  set (L := flat_map (prepared self session) attributes) in *.
  set (ho := existsb (fun attr => type_code attr =? ATTR_ORIGIN) attributes).
  set (hn := existsb (fun attr => type_code attr =? ATTR_NEXT_HOP) attributes).
  revert HAP HLP.
  destruct (Z.eqb_spec (peer_as (config session)) (local_as self)) as [Hibgp|Hebgp];
    cbn [negb]; intros HAP HLP.
  - (* iBGP *)
    rewrite map_id in HAP.
    assert (Hfinal : forall m3 : list PathAttribute,
      with_code ATTR_LOCAL_PREF m3 = with_code ATTR_LOCAL_PREF attributes ->
      with_code ATTR_LOCAL_PREF
        (if negb (existsb (fun attr => type_code attr =? ATTR_LOCAL_PREF) m3)
         then m3 ++ [LocalPrefAttribute 100] else m3)
      = match with_code ATTR_LOCAL_PREF attributes with
        | [] => [LocalPrefAttribute 100]
        | prefs => prefs
        end
      /\ as_paths_of
           (if negb (existsb (fun attr => type_code attr =? ATTR_LOCAL_PREF) m3)
            then m3 ++ [LocalPrefAttribute 100] else m3)
         = as_paths_of m3).
    { intros m3 Hm3.
      destruct (existsb (fun attr => type_code attr =? ATTR_LOCAL_PREF) m3) eqn:Hlp;
        cbn [negb].
      - split; [|reflexivity]. rewrite Hm3.
        destruct (with_code ATTR_LOCAL_PREF attributes) eqn:Hw; [|reflexivity].
        apply with_code_nil_existsb in Hm3. congruence.
      - apply with_code_nil_existsb in Hlp. split.
        + rewrite with_code_app, Hlp. rewrite <- Hm3, Hlp. reflexivity.
        + rewrite as_paths_of_app, app_nil_r. reflexivity. }
    destruct (existsb (fun attr => type_code attr =? ATTR_AS_PATH) attributes) eqn:Hhp;
      cbn [negb].
    + pose proof (as_paths_of_existsb_true attributes Htyped Hhp) as Hne.
      set (m1 := if negb ho then py_insert 0 (OriginAttribute ORIGIN_IGP) L else L).
      set (m3 := if negb hn then _ else m1).
      assert (Hpaths : as_paths_of m3 = as_paths_of L).
      { subst m3 m1. destruct hn, ho; cbn [negb];
          rewrite ?as_paths_of_py_insert_other by reflexivity; reflexivity. }
      assert (Hprefs : with_code ATTR_LOCAL_PREF m3 = with_code ATTR_LOCAL_PREF L).
      { subst m3 m1. destruct hn, ho; cbn [negb];
          rewrite ?with_code_py_insert_other by discriminate; reflexivity. }
      rewrite HLP in Hprefs. destruct (Hfinal m3 Hprefs) as [Hlp Hap].
      eexists. split; [reflexivity|]. split; [intros; contradiction|].
      intros _. split; [|exact Hlp].
      rewrite Hap, Hpaths, HAP.
      destruct (as_paths_of attributes); [congruence | reflexivity].
    + pose proof (as_paths_of_nil_existsb attributes Hhp) as Hnil.
      rewrite Hnil in HAP.
      set (m1 := if negb ho then py_insert 0 (OriginAttribute ORIGIN_IGP) L else L).
      set (m2 := py_insert (if ho then 1%nat else 0%nat) (ASPathAttribute []) m1).
      set (m3 := if negb hn
                 then py_insert ((if ho then 1%nat else 0%nat) + 0)
                        (NextHopAttribute (local_ip (config session))) m2
                 else m2).
      assert (Hpaths : as_paths_of m3 = [[]]).
      { subst m3 m2 m1. destruct hn, ho; cbn [negb];
          rewrite ?as_paths_of_py_insert_other by reflexivity;
          apply as_paths_of_py_insert_first;
          rewrite ?as_paths_of_py_insert_other by reflexivity; assumption. }
      assert (Hprefs : with_code ATTR_LOCAL_PREF m3 = with_code ATTR_LOCAL_PREF L).
      { subst m3 m2 m1. destruct hn, ho; cbn [negb];
          rewrite ?with_code_py_insert_other by discriminate; reflexivity. }
      rewrite HLP in Hprefs. destruct (Hfinal m3 Hprefs) as [Hlp Hap].
      eexists. split; [reflexivity|]. split; [intros; contradiction|].
      intros _. split; [|exact Hlp].
      rewrite Hap, Hpaths, Hnil. reflexivity.
  - (* eBGP *)
    assert (Hstrip : forall m3 : list PathAttribute,
      with_code ATTR_LOCAL_PREF m3 = [] ->
      forall attr, In attr m3 -> type_code attr <> ATTR_LOCAL_PREF).
    { intros m3 Hm3 attr Hin Hcode.
      assert (Hmem : In attr (with_code ATTR_LOCAL_PREF m3)).
      { apply List.filter_In. split; [assumption|]. apply Z.eqb_eq. assumption. }
      rewrite Hm3 in Hmem. destruct Hmem. }
    destruct (existsb (fun attr => type_code attr =? ATTR_AS_PATH) attributes) eqn:Hhp;
      cbn [negb].
    + pose proof (as_paths_of_existsb_true attributes Htyped Hhp) as Hne.
      set (m1 := if negb ho then py_insert 0 (OriginAttribute ORIGIN_IGP) L else L).
      set (m3 := if negb hn then _ else m1).
      assert (Hpaths : as_paths_of m3 = as_paths_of L).
      { subst m3 m1. destruct hn, ho; cbn [negb];
          rewrite ?as_paths_of_py_insert_other by reflexivity; reflexivity. }
      assert (Hprefs : with_code ATTR_LOCAL_PREF m3 = with_code ATTR_LOCAL_PREF L).
      { subst m3 m1. destruct hn, ho; cbn [negb];
          rewrite ?with_code_py_insert_other by discriminate; reflexivity. }
      rewrite HLP in Hprefs. rewrite HAP in Hpaths.
      eexists. split; [reflexivity|]. split; [|intros; contradiction].
      intros _. split; [exact (Hstrip m3 Hprefs)|].
      rewrite Hpaths. split; [|split].
      * destruct (as_paths_of attributes); [congruence | reflexivity].
      * destruct (as_paths_of attributes); [congruence | discriminate].
      * apply Forall_head_prepend.
    + pose proof (as_paths_of_nil_existsb attributes Hhp) as Hnil.
      rewrite Hnil in HAP.
      set (m1 := if negb ho then py_insert 0 (OriginAttribute ORIGIN_IGP) L else L).
      set (m2 := py_insert (if ho then 1%nat else 0%nat)
                   (ASPathAttribute [(AS_SEQUENCE, [local_as self])]) m1).
      set (m3 := if negb hn
                 then py_insert ((if ho then 1%nat else 0%nat) + 0)
                        (NextHopAttribute (local_ip (config session))) m2
                 else m2).
      assert (Hpaths : as_paths_of m3 = [[(AS_SEQUENCE, [local_as self])]]).
      { subst m3 m2 m1. destruct hn, ho; cbn [negb];
          rewrite ?as_paths_of_py_insert_other by reflexivity;
          apply as_paths_of_py_insert_first;
          rewrite ?as_paths_of_py_insert_other by reflexivity; assumption. }
      assert (Hprefs : with_code ATTR_LOCAL_PREF m3 = with_code ATTR_LOCAL_PREF L).
      { subst m3 m2 m1. destruct hn, ho; cbn [negb];
          rewrite ?with_code_py_insert_other by discriminate; reflexivity. }
      rewrite HLP in Hprefs.
      eexists. split; [reflexivity|]. split; [|intros; contradiction].
      intros _. split; [exact (Hstrip m3 Hprefs)|].
      rewrite Hpaths, Hnil. split; [reflexivity|]. split; [discriminate|].
      repeat constructor.
Qed.

Lemma learned_attributes_typed : Forall as_path_typed learned_attributes.
Proof.
  repeat constructor; intros Hcode; try discriminate Hcode.
  eexists. reflexivity.
Qed.

(** C7, on the attributes of a learned route sent to an eBGP peer (AS
    65000) and to an iBGP peer (AS 65001) by the speaker of AS 65001. *)
Lemma _prepare_attributes_for_advertisement_spec_witness :
  (exists modified,
      _prepare_attributes_for_advertisement (example_agent "4.4.4.4" ∅ ∅)
        learned_attributes (example_session "172.16.0.1" 65000 false false STATE_ESTABLISHED)
      = Some modified
      /\ (forall attr, In attr modified -> type_code attr <> ATTR_LOCAL_PREF)
      /\ as_paths_of modified = [[(AS_SEQUENCE, [65001; 65010; 65030])]])
  /\ (exists modified,
      _prepare_attributes_for_advertisement (example_agent "4.4.4.4" ∅ ∅)
        learned_attributes (example_session "172.16.0.3" 65001 false false STATE_ESTABLISHED)
      = Some modified
      /\ as_paths_of modified = [[(AS_SEQUENCE, [65010; 65030])]]
      /\ with_code ATTR_LOCAL_PREF modified = [LocalPrefAttribute 200]).
Proof.
  split.
  - destruct (_prepare_attributes_for_advertisement_spec (example_agent "4.4.4.4" ∅ ∅)
                learned_attributes
                (example_session "172.16.0.1" 65000 false false STATE_ESTABLISHED)
                learned_attributes_typed) as (modified & Heq & Hebgp & _).
    destruct Hebgp as (Hstrip & Hpaths & _); [vm_compute; discriminate|].
    exists modified. split; [exact Heq|]. split; [exact Hstrip | exact Hpaths].
  - destruct (_prepare_attributes_for_advertisement_spec (example_agent "4.4.4.4" ∅ ∅)
                learned_attributes
                (example_session "172.16.0.3" 65001 false false STATE_ESTABLISHED)
                learned_attributes_typed) as (modified & Heq & _ & Hibgp).
    destruct Hibgp as (Hpaths & Hprefs); [reflexivity|].
    exists modified. split; [exact Heq|]. split; [exact Hpaths | exact Hprefs].
Defined.

Example _prepare_attributes_for_advertisement_local :
  _prepare_attributes_for_advertisement (example_agent "4.4.4.4" ∅ ∅)
    local_attributes (example_session "172.16.0.1" 65000 false false STATE_ESTABLISHED)
  = Some [OriginAttribute ORIGIN_IGP; ASPathAttribute [(AS_SEQUENCE, [65001])];
          NextHopAttribute "172.16.0.2"].
Proof. reflexivity. Qed.

(** ** Properties of the connector *)

Section ConnectorFacts.
Context {E : Externals}.

Lemma get_rib_agent (speaker speaker' : BGPSpeaker) (p : option string) :
  agent speaker' = agent speaker -> get_rib speaker' p = get_rib speaker p.
Proof. intros Hagent. unfold get_rib. rewrite Hagent. reflexivity. Qed.

Lemma inject_route_agent speaker network next_hop as_path attributes :
  agent (fst (inject_route speaker network next_hop as_path attributes)) = agent speaker.
Proof.
  unfold inject_route.
  destruct (split_on "/" network) as [|p [|len_str [|? ?]]]; try reflexivity.
  destruct (py_int len_str); [|reflexivity].
  destruct (ip_address p) as [[version value]|]; reflexivity.
Qed.

Lemma withdraw_route_agent speaker network :
  agent (fst (withdraw_route speaker network)) = agent speaker.
Proof.
  unfold withdraw_route.
  destruct (split_on "/" network) as [|p [|len_str [|? ?]]]; try reflexivity.
  destruct (py_int len_str); [|reflexivity].
  destruct (rib speaker); [|reflexivity].
  destruct (List.find _ _); reflexivity.
Qed.

(** C9.  [inject_route] and [withdraw_route] leave the agent, and with it
    the Loc-RIB, as it was, so [get_rib] answers as before; what a
    successful [inject_route] writes is an entry of the speaker's own
    table [rib]. *)
Theorem connector_leaves_loc_rib (speaker : BGPSpeaker) (network : string)
    (next_hop : option string) (as_path : option (list Z))
    (attributes : gmap string PyValue) (p : option string) :
  let injected := inject_route speaker network next_hop as_path attributes in
  let withdrawn := withdraw_route speaker network in
  loc_rib (agent (fst injected)) = loc_rib (agent speaker)
  /\ get_rib (fst injected) p = get_rib speaker p
  /\ loc_rib (agent (fst withdrawn)) = loc_rib (agent speaker)
  /\ get_rib (fst withdrawn) p = get_rib speaker p
  /\ (forall info, snd injected = Returns (InjectSuccess network info) ->
        exists route_key table,
          rib (fst injected) = Some table /\ table !! route_key = Some info).
Proof.
  intros injected withdrawn. subst injected withdrawn.
  pose proof (inject_route_agent speaker network next_hop as_path attributes) as Hi.
  pose proof (withdraw_route_agent speaker network) as Hw.
  split; [rewrite Hi; reflexivity|].
  split; [apply get_rib_agent; exact Hi|].
  split; [rewrite Hw; reflexivity|].
  split; [apply get_rib_agent; exact Hw|].
  intros info. unfold inject_route.
  destruct (split_on "/" network) as [|q [|len_str [|? ?]]]; try discriminate.
  destruct (py_int len_str) as [prefix_len|]; [|discriminate].
  destruct (ip_address q) as [[version value]|]; [|discriminate].
  simpl. intros Hout. injection Hout as <-.
  eexists _, _. split; [reflexivity|]. apply lookup_insert_eq.
Qed.

End ConnectorFacts.

(** C9, on the injection of 10.1.0.0/16 into a speaker whose Loc-RIB holds
    one local route: the Loc-RIB and the answer of [get_rib] stay, the
    shadow table receives the entry. *)
Lemma connector_leaves_loc_rib_witness :
  let injected := inject_route (E := cpython) example_speaker "10.1.0.0/16" None None ∅ in
  loc_rib (agent (fst injected)) = {[ "10.99.99.0/24"%string := local_route ]}
  /\ get_rib (E := cpython) (fst injected) None
     = get_rib (E := cpython) example_speaker None
  /\ exists route_key table,
       rib (fst injected) = Some table
       /\ table !! route_key
          = Some (mkRouteInfo "0.0.0.0" [65001] (PyInt 100) (PyInt 0) (PyStr "igp")).
Proof.
  intros injected.
  destruct (connector_leaves_loc_rib (E := cpython) example_speaker "10.1.0.0/16"
              None None ∅ None) as (Hloc & Hget & _ & _ & Hshadow).
  split; [exact Hloc|]. split; [exact Hget|].
  apply Hshadow. reflexivity.
Defined.

(** ** The decision process and the Loc-RIB *)

(** C1 fails on a re-advertisement: the peer announces 10.0.0.0/8, a
    decision cycle installs the route, the same peer announces the prefix
    again with LOCAL_PREF 200, and after the next cycle the Loc-RIB still
    holds the first route although the selector's output over the
    Adj-RIB-Ins is the second. *)
Theorem decision_process_keeps_stale_route :
  let after_first :=
    fst (_run_decision_process (E := cpython)
           (receive_route one_peer_agent "192.0.2.1" advertised_first)) in
  let readvertised := receive_route after_first "192.0.2.1" advertised_again in
  let after_second := fst (_run_decision_process (E := cpython) readvertised) in
  loc_rib after_first !! "10.0.0.0/8"%string = Some advertised_first
  /\ elements (all_prefixes readvertised) = ["10.0.0.0/8"%string]
  /\ candidates_for readvertised "10.0.0.0/8" = [advertised_again]
  /\ select_best (E := cpython) (best_path_selector readvertised)
       (candidates_for readvertised "10.0.0.0/8") = Some advertised_again
  /\ loc_rib after_second !! "10.0.0.0/8"%string = Some advertised_first
  /\ advertised_first <> advertised_again.
Proof.
  repeat split; try (vm_compute; reflexivity).
  discriminate.
Qed.

Section DecisionFacts.
Context {E : Externals}.
Variable self : BGPAgent.

Lemma elem_of_all_prefixes (p : string) :
  p ∈ all_prefixes self
  <-> exists key session,
        sessions self !! key = Some session
        /\ is_established session = true
        /\ is_Some (adj_rib_in session !! p).
Proof.
  unfold all_prefixes.
  assert (Hlist : forall l : list (string * BGPSession),
    p ∈ foldr (fun '(_, session) acc =>
                 if is_established session
                 then acc ∪ get_prefixes (adj_rib_in session) else acc) ∅ l
    <-> exists key session, (key, session) ∈ l
          /\ is_established session = true
          /\ is_Some (adj_rib_in session !! p)).
  { induction l as [|[key session] l IH]; simpl.
    - split; [intros Hin; apply not_elem_of_empty in Hin; destruct Hin|].
      intros (k & s & Hin & _). apply elem_of_nil in Hin. destruct Hin.
    - destruct (is_established session) eqn:Hest.
      + rewrite elem_of_union, IH. unfold get_prefixes. rewrite elem_of_dom. split.
        * intros [(k & s & Hin & Hs)|Hdom].
          { exists k, s. split; [apply elem_of_cons; right; assumption | assumption]. }
          { exists key, session. split; [apply elem_of_cons; left; reflexivity | auto]. }
        * intros (k & s & Hin & Hs & Hdom).
          apply elem_of_cons in Hin as [Heq|Hin].
          { injection Heq as -> ->. right. assumption. }
          { left. exists k, s. auto. }
      + rewrite IH. split.
        * intros (k & s & Hin & Hs). exists k, s.
          split; [apply elem_of_cons; right; assumption | assumption].
        * intros (k & s & Hin & Hs & Hdom).
          apply elem_of_cons in Hin as [Heq|Hin].
          { injection Heq as -> ->. congruence. }
          { exists k, s. auto. } }
  rewrite Hlist. split.
  - intros (k & s & Hin & Hs). exists k, s.
    split; [apply elem_of_map_to_list; assumption | assumption].
  - intros (k & s & Hget & Hs). exists k, s.
    split; [apply elem_of_map_to_list; assumption | assumption].
Qed.

Lemma select_best_In (sel : BestPathSelector) (routes : list BGPRoute) (r : BGPRoute) :
  select_best sel routes = Some r -> In r routes.
Proof.
  destruct routes as [|first rest]; [discriminate|].
  rewrite select_best_fold. intros Hsel. injection Hsel as <-.
  destruct (fold_select_suffix sel rest first) as (pre & post & Heq & _).
  rewrite Heq. apply in_or_app. right. left. reflexivity.
Qed.

(** An iteration touches the entry of its own prefix only. *)
Lemma decide_prefix_other (st : DecisionState) (p q : string) :
  candidates_keyed self -> p <> q ->
  ds_loc_rib (decide_prefix self st p) !! q = ds_loc_rib st !! q.
Proof.
  intros Hkeyed Hpq. unfold decide_prefix.
  destruct (candidates_for self p) as [|c cs] eqn:Hcands.
  - destruct (ds_loc_rib st !! p); [|reflexivity].
    simpl. unfold remove_route. apply lookup_delete_ne. assumption.
  - destruct (select_best (best_path_selector self) (c :: cs)) as [best|] eqn:Hsel;
      [|reflexivity].
    assert (Hbest : prefix best = p).
    { apply Hkeyed. rewrite Hcands. eapply select_best_In. eassumption. }
    assert (Hinstall : ds_loc_rib (install_best self st p best) !! q = ds_loc_rib st !! q).
    { simpl. unfold install_route. rewrite Hbest. apply lookup_insert_ne. assumption. }
    destruct (ds_loc_rib st !! p) as [current|]; [|assumption].
    destruct (bool_decide (peer_id current = peer_id best)); [reflexivity | assumption].
Qed.

Lemma decide_prefix_entry (st : DecisionState) (p : string) :
  candidates_keyed self ->
  ds_loc_rib (decide_prefix self st p) !! p = entry_after self (ds_loc_rib st !! p) p.
Proof.
  intros Hkeyed. unfold decide_prefix, entry_after.
  destruct (candidates_for self p) as [|c cs] eqn:Hcands.
  - destruct (ds_loc_rib st !! p) eqn:Hcur; [|assumption].
    simpl. unfold remove_route. apply lookup_delete_eq.
  - destruct (select_best (best_path_selector self) (c :: cs)) as [best|] eqn:Hsel;
      [|reflexivity].
    assert (Hbest : prefix best = p).
    { apply Hkeyed. rewrite Hcands. eapply select_best_In. eassumption. }
    assert (Hinstall : ds_loc_rib (install_best self st p best) !! p = Some best).
    { simpl. unfold install_route. rewrite Hbest. apply lookup_insert_eq. }
    destruct (ds_loc_rib st !! p) as [current|] eqn:Hcur; [|assumption].
    destruct (bool_decide (peer_id current = peer_id best)); [assumption | assumption].
Qed.

Lemma foldl_decide_other (l : list string) (q : string) :
  candidates_keyed self -> q ∉ l ->
  forall st, ds_loc_rib (foldl (decide_prefix self) st l) !! q = ds_loc_rib st !! q.
Proof.
  intros Hkeyed. induction l as [|p l IH]; intros Hq st; [reflexivity|].
  apply not_elem_of_cons in Hq as [Hne Hq]. simpl.
  rewrite (IH Hq). apply decide_prefix_other; [assumption | congruence].
Qed.

Lemma foldl_decide_entry (l : list string) (p : string) :
  candidates_keyed self -> NoDup l -> p ∈ l ->
  forall st,
    ds_loc_rib (foldl (decide_prefix self) st l) !! p
    = entry_after self (ds_loc_rib st !! p) p.
Proof.
  intros Hkeyed Hnodup. induction Hnodup as [|q l Hq Hl IH]; intros Hp st.
  - apply elem_of_nil in Hp. destruct Hp.
  - simpl. apply elem_of_cons in Hp as [->|Hp].
    + rewrite (foldl_decide_other l q Hkeyed Hq). apply decide_prefix_entry. assumption.
    + rewrite (IH Hp). f_equal. apply decide_prefix_other; [assumption|].
      intros ->. contradiction.
Qed.

(** What one run of the decision process leaves in the Loc-RIB for a
    prefix of an established session's Adj-RIB-In. *)
Lemma _run_decision_process_entry (p : string) :
  candidates_keyed self ->
  p ∈ all_prefixes self ->
  loc_rib (fst (_run_decision_process self)) !! p = entry_after self (loc_rib self !! p) p.
Proof.
  intros Hkeyed Hp. unfold _run_decision_process. simpl.
  rewrite (foldl_decide_entry (elements (all_prefixes self)) p Hkeyed).
  - reflexivity.
  - apply NoDup_elements.
  - apply elem_of_elements. assumption.
Qed.

(** The Loc-RIB entry equals the selector's output over the candidates
    whenever the Loc-RIB held no route for the prefix, or one learned from
    another peer-id than the new best route. *)
Lemma _run_decision_process_fresh (p : string) :
  candidates_keyed self ->
  p ∈ all_prefixes self ->
  (forall current best,
      loc_rib self !! p = Some current ->
      select_best (best_path_selector self) (candidates_for self p) = Some best ->
      peer_id current <> peer_id best) ->
  loc_rib (fst (_run_decision_process self)) !! p
  = select_best (best_path_selector self) (candidates_for self p).
Proof.
  intros Hkeyed Hp Hfresh.
  rewrite (_run_decision_process_entry p Hkeyed Hp). unfold entry_after.
  destruct (candidates_for self p) as [|c cs] eqn:Hcands; [reflexivity|].
  destruct (select_best (best_path_selector self) (c :: cs)) as [best|] eqn:Hsel.
  - destruct (loc_rib self !! p) as [current|] eqn:Hcur; [|reflexivity].
    rewrite bool_decide_eq_false_2; [reflexivity|]. apply Hfresh; reflexivity.
  - destruct c; destruct cs; discriminate Hsel.
Qed.

(** The entry is left as it was when the Loc-RIB route and the new best
    route come from one peer-id, whatever their attributes. *)
Lemma _run_decision_process_same_peer (p : string) (current best : BGPRoute) :
  candidates_keyed self ->
  p ∈ all_prefixes self ->
  loc_rib self !! p = Some current ->
  select_best (best_path_selector self) (candidates_for self p) = Some best ->
  peer_id current = peer_id best ->
  loc_rib (fst (_run_decision_process self)) !! p = Some current.
Proof.
  intros Hkeyed Hp Hcur Hsel Hpeer.
  rewrite (_run_decision_process_entry p Hkeyed Hp). unfold entry_after.
  destruct (candidates_for self p) as [|c cs] eqn:Hcands; [discriminate Hsel|].
  rewrite Hsel, Hcur. rewrite bool_decide_eq_true_2 by assumption. reflexivity.
Qed.

End DecisionFacts.

Lemma announced_agent_keyed : candidates_keyed announced_agent.
Proof.
  intros p route. unfold candidates_for, announced_agent, example_agent. simpl.
  rewrite map_to_list_singleton. simpl. rewrite app_nil_r.
  unfold session_candidates. simpl. unfold get_routes. simpl.
  destruct (decide (p = "10.0.0.0/8"%string)) as [->|Hne].
  - rewrite lookup_singleton_eq. simpl. intros [<-|[]]. reflexivity.
  - rewrite lookup_singleton_ne by congruence. simpl. intros [].
Qed.

(** On a first announcement the cycle installs the selector's output. *)
Example _run_decision_process_first_announcement :
  loc_rib (fst (_run_decision_process (E := cpython) announced_agent))
    !! "10.0.0.0/8"%string
  = Some advertised_first.
Proof.
  rewrite (_run_decision_process_fresh (E := cpython) announced_agent "10.0.0.0/8").
  - vm_compute. reflexivity.
  - exact announced_agent_keyed.
  - apply elem_of_all_prefixes.
    eexists _, _. split; [apply lookup_singleton_eq|].
    split; [reflexivity|]. simpl. rewrite lookup_singleton_eq. eauto.
  - intros current best Hcur. simpl in Hcur. rewrite lookup_empty in Hcur.
    discriminate Hcur.
Qed.

(** * Further properties of the embedded code *)

(** ** Best-path selection *)

Section SelectionMore.
Context {E : Externals}.
Variable self : BestPathSelector.

Lemma three_way_range (x y : Z) :
  let r := if x <? y then -1 else if y <? x then 1 else 0 in
  r = -1 \/ r = 0 \/ r = 1.
Proof. cbv zeta. destruct (x <? y), (y <? x); auto. Qed.

Lemma or_else_range (x y : Z) :
  (x = -1 \/ x = 0 \/ x = 1) -> (y = -1 \/ y = 0 \/ y = 1) ->
  or_else x y = -1 \/ or_else x y = 0 \/ or_else x y = 1.
Proof. unfold or_else. intros [Hx|[Hx|Hx]] Hy; subst x; simpl; auto. Qed.

Lemma compare_ip_or_str_range (s t : string) :
  compare_ip_or_str s t = -1 \/ compare_ip_or_str s t = 0 \/ compare_ip_or_str s t = 1.
Proof.
  unfold compare_ip_or_str.
  destruct (ip_address_int s), (ip_address_int t);
    try apply three_way_range;
    destruct (String.ltb s t), (String.ltb t s); auto.
Qed.

(** X1.  [compare] answers -1, 0 or 1 and nothing else, for every pair of
    routes and every selector. *)
Theorem compare_range (a b : BGPRoute) :
  compare self a b = -1 \/ compare self a b = 0 \/ compare self a b = 1.
Proof.
  unfold compare. repeat apply or_else_range; auto.
  - apply three_way_range.
  - apply three_way_range.
  - apply three_way_range.
  - unfold _compare_med. cbv zeta. destruct (negb _); [auto | apply three_way_range].
  - unfold _compare_ebgp_ibgp. cbv zeta.
    destruct (negb _ && negb (negb _)); [auto|].
    destruct (negb (negb _) && negb _); auto.
  - unfold _compare_igp_metric.
    destruct (igp_cost_lookup self) as [lookup|]; [|auto]. cbv zeta.
    destruct (negb _ || negb _); [auto|].
    destruct (route_next_hop a) as [nha|], (route_next_hop b) as [nhb|]; auto.
    destruct (lookup nha) as [|[ca|]]; auto;
      destruct (lookup nhb) as [|[cb|]]; auto.
    apply three_way_range.
  - apply three_way_range.
  - apply compare_ip_or_str_range.
  - apply compare_ip_or_str_range.
Qed.

(** The loop keeps its incumbent through candidates that do not beat it. *)
Lemma fold_select_keeps (rest : list BGPRoute) (best : BGPRoute) :
  (forall c, In c rest -> compare self best c <= 0) ->
  fold_left (select_step self) rest best = best.
Proof.
  induction rest as [|c rest IH]; intros Hle; [reflexivity|].
  simpl. destruct (select_step_cases self best c) as [[Hgt _]|[_ ->]].
  - specialize (Hle c (or_introl eq_refl)). lia.
  - apply IH. intros c' Hc'. apply Hle. right. assumption.
Qed.

(** The survivor of the loop is the incumbent or one of the candidates. *)
Lemma fold_select_In (rest : list BGPRoute) (best : BGPRoute) :
  In (fold_left (select_step self) rest best) (best :: rest).
Proof.
  destruct (fold_select_suffix self rest best) as (pre & post & Heq & _).
  rewrite Heq. apply in_or_app. right. left. reflexivity.
Qed.

(** X2.  Ties go to the earlier candidate: when no later candidate is
    strictly better than the first route of the list, [select_best]
    returns the first route. *)
Theorem select_best_keeps_first (first : BGPRoute) (rest : list BGPRoute) :
  (forall c, In c rest -> compare self first c <= 0) ->
  select_best self (first :: rest) = Some first.
Proof.
  intros Hle. rewrite select_best_fold. f_equal. apply fold_select_keeps. assumption.
Qed.

(** Rule 1 decides alone between routes of different LOCAL_PREF. *)
Lemma compare_local_pref_decides (a b : BGPRoute) :
  local_pref_of b < local_pref_of a ->
  compare self a b = -1 /\ compare self b a = 1.
Proof.
  intros Hlt. unfold compare, _compare_local_pref, local_pref_of in *. cbv zeta.
  destruct (Z.ltb_spec (default 100 (attr_local_pref (path_attributes b)))
                       (default 100 (attr_local_pref (path_attributes a))));
    [|lia].
  destruct (Z.ltb_spec (default 100 (attr_local_pref (path_attributes a)))
                       (default 100 (attr_local_pref (path_attributes b))));
    [lia|].
  split; reflexivity.
Qed.

(** X3.  A route whose LOCAL_PREF (100 when absent) is strictly above that
    of every other candidate is selected wherever it stands in the list
    and whatever the other attributes are. *)
Theorem select_best_highest_local_pref (pre post : list BGPRoute) (a : BGPRoute) :
  (forall c, In c (pre ++ post) -> local_pref_of c < local_pref_of a) ->
  select_best self (pre ++ a :: post) = Some a.
Proof.
  intros Hlow.
  assert (Hpost : forall best, best = a ->
            fold_left (select_step self) post best = a).
  { intros best ->. apply fold_select_keeps. intros c Hc.
    destruct (compare_local_pref_decides a c) as [-> _]; [|lia].
    apply Hlow. apply in_or_app. right. assumption. }
  destruct pre as [|first pre].
  - cbn [app]. rewrite select_best_fold. f_equal. apply Hpost. reflexivity.
  - cbn [app]. rewrite select_best_fold. f_equal.
    rewrite fold_left_app. cbn [fold_left]. apply Hpost.
    pose proof (fold_select_In pre first) as Hin.
    assert (Hb : local_pref_of (fold_left (select_step self) pre first)
                 < local_pref_of a).
    { apply Hlow. apply in_or_app. left. exact Hin. }
    destruct (compare_local_pref_decides a _ Hb) as [_ Hgt].
    unfold select_step at 1. rewrite Hgt. reflexivity.
Qed.

End SelectionMore.

(** ** The decision process: what it leaves alone, what it reports *)

Section DecisionMore.
Context {E : Externals}.
Variable self : BGPAgent.
Hypothesis Hkeyed : candidates_keyed self.

(** An iteration reports its prefix exactly when it changes the entry. *)
Lemma decide_prefix_changed (st : DecisionState) (p : string) :
  (ds_changed (decide_prefix self st p) = ds_changed st
   /\ ds_loc_rib (decide_prefix self st p) !! p = ds_loc_rib st !! p)
  \/ (ds_changed (decide_prefix self st p) = ds_changed st ++ [p]
      /\ ds_loc_rib (decide_prefix self st p) !! p <> ds_loc_rib st !! p).
Proof.
  unfold decide_prefix.
  destruct (candidates_for self p) as [|c cs] eqn:Hcands.
  - destruct (ds_loc_rib st !! p) as [current|] eqn:Hcur; [|left; auto].
    right. split; [reflexivity|]. simpl. unfold remove_route.
    rewrite lookup_delete_eq. discriminate.
  - destruct (select_best (best_path_selector self) (c :: cs)) as [best|] eqn:Hsel;
      [|left; auto].
    assert (Hbest : prefix best = p).
    { apply Hkeyed. rewrite Hcands. eapply select_best_In. eassumption. }
    assert (Hinstall : ds_loc_rib (install_best self st p best) !! p = Some best).
    { simpl. unfold install_route. rewrite Hbest. apply lookup_insert_eq. }
    destruct (ds_loc_rib st !! p) as [current|] eqn:Hcur.
    + destruct (bool_decide (peer_id current = peer_id best)) eqn:Hpeer.
      * left. simpl. auto.
      * right. simpl negb. cbn [negb]. split; [reflexivity|].
        rewrite Hinstall. intros Heq. injection Heq as ->.
        apply bool_decide_eq_false in Hpeer. apply Hpeer. reflexivity.
    + right. split; [reflexivity|]. rewrite Hinstall. discriminate.
Qed.

(** The prefixes reported by the loop over a duplicate-free list. *)
Lemma foldl_decide_changed (l : list string) :
  NoDup l ->
  forall st p,
    p ∈ ds_changed (foldl (decide_prefix self) st l)
    <-> p ∈ ds_changed st
        \/ (p ∈ l
            /\ ds_loc_rib (foldl (decide_prefix self) st l) !! p <> ds_loc_rib st !! p).
Proof.
  induction 1 as [|q l Hq Hl IH]; intros st p.
  - simpl. split; [auto|]. intros [Hin|[Hin _]]; [assumption|].
    apply elem_of_nil in Hin. destruct Hin.
  - simpl. rewrite IH.
    destruct (decide (p = q)) as [->|Hne].
    + rewrite (foldl_decide_other self l q Hkeyed Hq).
      destruct (decide_prefix_changed st q) as [[Hch Hloc]|[Hch Hloc]];
        rewrite Hch.
      * split.
        { intros [Hin|[Hin _]]; [left; assumption | contradiction]. }
        { intros [Hin|[_ Hdiff]]; [left; assumption | contradiction]. }
      * split.
        { intros [Hin|[Hin _]]; [|contradiction].
          apply elem_of_app in Hin as [Hin|_]; [left; assumption|].
          right. split; [apply elem_of_cons; left; reflexivity | assumption]. }
        { intros _. left. apply elem_of_app. right. apply list_elem_of_singleton.
          reflexivity. }
    + rewrite (decide_prefix_other self st q p Hkeyed) by congruence.
      assert (Hsame : p ∈ ds_changed (decide_prefix self st q) <-> p ∈ ds_changed st).
      { destruct (decide_prefix_changed st q) as [[Hch _]|[Hch _]]; rewrite Hch;
          [reflexivity|].
        rewrite elem_of_app, list_elem_of_singleton. tauto. }
      rewrite Hsame, elem_of_cons. tauto.
Qed.

(** The reported prefixes come out of the list walked, in its order. *)
Lemma foldl_decide_changed_sublist (l : list string) :
  forall st, exists k,
    ds_changed (foldl (decide_prefix self) st l) = ds_changed st ++ k /\ sublist k l.
Proof.
  induction l as [|q l IH]; intros st.
  - exists []. simpl. rewrite app_nil_r. split; [reflexivity | constructor].
  - simpl. destruct (IH (decide_prefix self st q)) as (k & Hk & Hsub). rewrite Hk.
    destruct (decide_prefix_changed st q) as [[Hch _]|[Hch _]]; rewrite Hch.
    + exists k. split; [reflexivity|]. apply sublist_cons. assumption.
    + exists (q :: k). split; [rewrite <- app_assoc; reflexivity|].
      apply sublist_skip. assumption.
Qed.

Lemma _run_decision_process_other (q : string) :
  q ∉ all_prefixes self ->
  loc_rib (fst (_run_decision_process self)) !! q = loc_rib self !! q.
Proof.
  intros Hq. unfold _run_decision_process. simpl.
  rewrite (foldl_decide_other self (elements (all_prefixes self)) q Hkeyed);
    [reflexivity|].
  intros Hin. apply Hq. apply elem_of_elements. assumption.
Qed.

(** X4.  A prefix that no established session holds in its Adj-RIB-In
    keeps its Loc-RIB entry through a decision cycle: the cycle neither
    replaces nor removes it. *)
Theorem _run_decision_process_untouched (q : string) :
  q ∉ all_prefixes self ->
  loc_rib (fst (_run_decision_process self)) !! q = loc_rib self !! q.
Proof. apply _run_decision_process_other. Qed.

Lemma _run_decision_process_reports (p : string) :
  p ∈ ds_changed (snd (_run_decision_process self))
  <-> loc_rib (fst (_run_decision_process self)) !! p <> loc_rib self !! p.
Proof.
  unfold _run_decision_process. simpl.
  rewrite (foldl_decide_changed _ (NoDup_elements (all_prefixes self))). simpl.
  split.
  - intros [Hin|[_ Hdiff]]; [apply elem_of_nil in Hin; destruct Hin | assumption].
  - intros Hdiff. right. split; [|assumption].
    destruct (decide (p ∈ elements (all_prefixes self))) as [Hin|Hout];
      [assumption|].
    exfalso. apply Hdiff.
    apply (foldl_decide_other self _ p Hkeyed Hout).
Qed.

(** X5.  The prefixes a decision cycle hands to the advertisement are
    exactly the prefixes whose Loc-RIB entry the cycle changed, each
    reported once. *)
Theorem _run_decision_process_changed (p : string) :
  (p ∈ ds_changed (snd (_run_decision_process self))
   <-> loc_rib (fst (_run_decision_process self)) !! p <> loc_rib self !! p)
  /\ NoDup (ds_changed (snd (_run_decision_process self))).
Proof.
  split; [apply _run_decision_process_reports|].
  unfold _run_decision_process. simpl.
  destruct (foldl_decide_changed_sublist (elements (all_prefixes self))
              (mkDecisionState (loc_rib self) [] [])) as (k & -> & Hsub).
  simpl. exact (sublist_NoDup _ _ (NoDup_elements (all_prefixes self)) Hsub).
Qed.

Lemma entry_after_idempotent (current : option BGPRoute) (p : string) :
  entry_after self (entry_after self current p) p = entry_after self current p.
Proof.
  unfold entry_after.
  destruct (candidates_for self p) as [|c cs]; [reflexivity|].
  destruct (select_best (best_path_selector self) (c :: cs)) as [best|];
    [|reflexivity].
  destruct current as [cur|].
  - destruct (bool_decide (peer_id cur = peer_id best)) eqn:Hpeer.
    + rewrite Hpeer. reflexivity.
    + rewrite bool_decide_eq_true_2 by reflexivity. reflexivity.
  - rewrite bool_decide_eq_true_2 by reflexivity. reflexivity.
Qed.

End DecisionMore.

Lemma _run_decision_process_settled {E : Externals} (self : BGPAgent) :
  candidates_keyed self ->
  let once := fst (_run_decision_process self) in
  loc_rib (fst (_run_decision_process once)) = loc_rib once
  /\ ds_changed (snd (_run_decision_process once)) = [].
Proof.
  intros Hkeyed once.
  assert (Hkeyed1 : candidates_keyed once) by exact Hkeyed.
  assert (Hsame : forall p,
            loc_rib (fst (_run_decision_process once)) !! p = loc_rib once !! p).
  { intros p. destruct (decide (p ∈ all_prefixes self)) as [Hin|Hout].
    - rewrite (_run_decision_process_entry once p Hkeyed1 Hin).
      unfold once at 2 3.
      rewrite (_run_decision_process_entry self p Hkeyed Hin).
      apply (entry_after_idempotent self).
    - apply (_run_decision_process_other once Hkeyed1). exact Hout. }
  split; [apply map_eq; exact Hsame|].
  destruct (ds_changed (snd (_run_decision_process once))) as [|p k] eqn:Hch;
    [reflexivity|].
  exfalso.
  assert (Hin : p ∈ ds_changed (snd (_run_decision_process once))).
  { rewrite Hch. apply elem_of_cons. left. reflexivity. }
  apply (_run_decision_process_reports once Hkeyed1) in Hin.
  apply Hin. apply Hsame.
Qed.

(** X6.  A second decision cycle over unchanged Adj-RIB-Ins changes
    nothing: the Loc-RIB stays as the first cycle left it and no prefix is
    reported. *)
Theorem _run_decision_process_twice {E : Externals} (self : BGPAgent) :
  candidates_keyed self ->
  let once := fst (_run_decision_process self) in
  loc_rib (fst (_run_decision_process once)) = loc_rib once
  /\ ds_changed (snd (_run_decision_process once)) = [].
Proof. apply _run_decision_process_settled. Qed.


(** ** Route origination *)

Section OriginateFacts.
Context {E : Externals}.
Variable self : BGPAgent.

(** X7.  With a prefix length that reads (or no slash at all, which means
    /32) [originate_route] stores under the prefix string, as given, a
    route marked local with an empty AS_PATH, the given ORIGIN and
    LOCAL_PREF and the next hop (the router-id when none is given); every
    other Loc-RIB entry stays; the route may be advertised to every
    session; the call answers True when an event loop is running. *)
Theorem originate_route_installs (p : string) (next_hop : option string)
    (local_pref origin now : Z) (loop_running : bool) (prefix_len : Z) :
  originate_prefix_len p = Some prefix_len ->
  let out := originate_route self p next_hop local_pref origin now loop_running in
  let route := local_route_for self p prefix_len (str_or next_hop (router_id self))
                 local_pref origin now in
  loc_rib (or_agent out) !! p = Some route
  /\ (forall q, q <> p -> loc_rib (or_agent out) !! q = loc_rib self !! q)
  /\ sessions (or_agent out) = sessions self
  /\ or_result out = loop_running
  /\ or_scheduled out = (if loop_running then [p] else [])
  /\ (forall session, _should_advertise_to_peer (or_agent out) route session = true).
Proof.
  intros Hlen out route. subst out. unfold originate_route. rewrite Hlen.
  fold route.
  assert (Hloc : loc_rib (set_loc_rib self (install_route (loc_rib self) route)) !! p
                 = Some route).
  { simpl. unfold install_route. simpl. apply lookup_insert_eq. }
  assert (Hother : forall q, q <> p ->
            loc_rib (set_loc_rib self (install_route (loc_rib self) route)) !! q
            = loc_rib self !! q).
  { intros q Hq. simpl. unfold install_route. simpl. apply lookup_insert_ne. congruence. }
  destruct loop_running; simpl or_agent; simpl or_result; simpl or_scheduled;
    repeat split; try assumption; try reflexivity.
Qed.

(** X8.  [originate_route] answers False, schedules nothing and leaves
    the agent as it was when the prefix has more than one slash, or one
    slash followed by a length that [int] rejects.  Without a running
    event loop it also answers False, but then the route has been
    installed. *)
Theorem originate_route_failure (p : string) (next_hop : option string)
    (local_pref origin now : Z) (loop_running : bool) :
  ((exists a b c rest, split_on "/"%char p = a :: b :: c :: rest)
   \/ (exists a b, split_on "/"%char p = [a; b] /\ py_int b = None) ->
   originate_route self p next_hop local_pref origin now loop_running
   = mkOriginated self false [])
  /\ (forall prefix_len, originate_prefix_len p = Some prefix_len ->
        or_result (originate_route self p next_hop local_pref origin now false) = false
        /\ is_Some (loc_rib (or_agent (originate_route self p next_hop local_pref
                                         origin now false)) !! p)).
Proof.
  split.
  - intros Hbad.
    assert (Hlen : originate_prefix_len p = None).
    { unfold originate_prefix_len.
      destruct Hbad as [(a & b & c & rest & ->)|(a & b & -> & Hint)];
        [reflexivity | exact Hint]. }
    unfold originate_route. rewrite Hlen. reflexivity.
  - intros prefix_len Hlen. unfold originate_route. rewrite Hlen.
    split; [reflexivity|]. simpl. unfold install_route. simpl.
    rewrite lookup_insert_eq. eauto.
Qed.

(** X9.  A locally originated route does not compete in the decision
    process: once an established session holds the prefix in its
    Adj-RIB-In, the next cycle puts the selector's choice among the
    learned routes in its place, whatever the preferences, provided that
    route comes from a peer-id other than the router-id. *)
Theorem originate_route_then_decision (p : string) (next_hop : option string)
    (local_pref origin now : Z) (loop_running : bool) (prefix_len : Z)
    (best : BGPRoute) :
  candidates_keyed self ->
  originate_prefix_len p = Some prefix_len ->
  p ∈ all_prefixes self ->
  select_best (best_path_selector self) (candidates_for self p) = Some best ->
  peer_id best <> router_id self ->
  let originated :=
    or_agent (originate_route self p next_hop local_pref origin now loop_running) in
  loc_rib (fst (_run_decision_process originated)) !! p = Some best.
Proof.
  intros Hkeyed Hlen Hp Hsel Hpeer originated.
  assert (Hagent : originated
                   = set_loc_rib self
                       (install_route (loc_rib self)
                          (local_route_for self p prefix_len
                             (str_or next_hop (router_id self)) local_pref origin now))).
  { subst originated. unfold originate_route. rewrite Hlen.
    destruct loop_running; reflexivity. }
  rewrite Hagent.
  rewrite (_run_decision_process_fresh _ p); [exact Hsel | exact Hkeyed | exact Hp |].
  intros current best' Hcur Hbest'. simpl in Hcur. unfold install_route in Hcur.
  simpl in Hcur. rewrite lookup_insert_eq in Hcur. injection Hcur as <-.
  simpl. change (select_best (best_path_selector self) (candidates_for self p)
                 = Some best') in Hbest'.
  rewrite Hsel in Hbest'. injection Hbest' as <-. congruence.
Qed.

(** X10.  A prefix originated through the agent is what the connector's
    [get_rib] shows for it: one entry with that network, the next hop, the
    LOCAL_PREF, MED 0, the ORIGIN code printed as a number and the
    AS sequence of an empty path. *)
Theorem originate_route_get_rib (p : string) (next_hop : option string)
    (local_pref origin now : Z) (loop_running : bool) (prefix_len : Z)
    (las : Z) (shadow : option (gmap RouteKey RouteInfo)) :
  originate_prefix_len p = Some prefix_len ->
  str_truthy (Some p) = true ->
  get_rib (mkBGPSpeaker las
             (or_agent (originate_route self p next_hop local_pref origin now
                          loop_running)) shadow) (Some p)
  = [mkRibEntry p (str_or next_hop (router_id self)) (as_sequence []) local_pref 0
       (py_str origin) []].
Proof.
  intros Hlen Htruthy. unfold get_rib. rewrite Htruthy.
  unfold originate_route. rewrite Hlen.
  destruct loop_running; simpl; unfold install_route; simpl;
    rewrite lookup_insert_eq; reflexivity.
Qed.

End OriginateFacts.

(** ** Peers and the mesh index *)

Section PeerFacts.
Variable self : BGPAgent.

Lemma store_session_consistent (key : string) (old new : BGPSession) :
  sessions self !! key = Some old ->
  config new = config old ->
  mesh_consistent self -> mesh_consistent (store_session self key new).
Proof.
  intros Hold Hconfig Hmesh asn k Hk. simpl in Hk.
  destruct (Hmesh asn k Hk) as (session & Hget & Hany & Has).
  simpl. destruct (decide (key = k)) as [->|Hne].
  - exists new. rewrite lookup_insert_eq. rewrite Hold in Hget. injection Hget as <-.
    rewrite Hconfig. auto.
  - exists session. rewrite lookup_insert_ne by assumption. auto.
Qed.

(** X11.  [add_peer] and [remove_peer] keep the mesh index consistent:
    after either, every entry still refers to a configured session that
    accepts any source and has the entry's AS number. *)
Theorem mesh_index_consistent (cfg : BGPSessionConfig) (session : BGPSession)
    (peer_ip : string) (loop_running : bool) :
  mesh_consistent self ->
  config session = cfg ->
  mesh_consistent (fst (add_peer self cfg session))
  /\ mesh_consistent (fst (remove_peer self peer_ip loop_running)).
Proof.
  intros Hmesh Hconfig. split.
  - unfold add_peer.
    destruct (sessions self !! cfg_peer_ip cfg) eqn:Hfresh; [exact Hmesh|].
    intros asn key Hkey. simpl in *.
    assert (Hold : mesh_sessions self !! asn = Some key ->
              exists s, <[cfg_peer_ip cfg := session]> (sessions self) !! key = Some s
                        /\ accept_any_source (config s) = true
                        /\ peer_as (config s) = asn).
    { intros Hk. destruct (Hmesh asn key Hk) as (s & Hget & Hs).
      exists s. split; [|exact Hs].
      rewrite lookup_insert_ne; [exact Hget|]. intros Heq. rewrite <- Heq in Hget.
      congruence. }
    destruct (accept_any_source cfg) eqn:Hany; [|auto].
    destruct (decide (peer_as cfg = asn)) as [<-|Hne].
    + rewrite lookup_insert_eq in Hkey. injection Hkey as <-.
      exists session. rewrite lookup_insert_eq. rewrite Hconfig. auto.
    + rewrite lookup_insert_ne in Hkey by assumption. auto.
  - unfold remove_peer.
    destruct (sessions self !! peer_ip) eqn:Hpeer; [|exact Hmesh].
    intros asn key Hkey. simpl in *.
    apply map_lookup_filter_Some in Hkey as [Hkey Hne]. simpl in Hne.
    destruct (Hmesh asn key Hkey) as (s & Hget & Hs).
    exists s. split; [|exact Hs]. rewrite lookup_delete_ne; [exact Hget | congruence].
Qed.

(** X12.  Removing a peer that has just been added under a fresh key
    restores the sessions; the mesh index is what it was except at the
    AS number of a mesh peer, where it is empty afterwards: a mesh peer
    configured earlier for the same AS number is still a session but is
    no longer found through the index. *)
Theorem add_then_remove_peer (cfg : BGPSessionConfig) (session : BGPSession)
    (loop_running : bool) :
  mesh_consistent self ->
  sessions self !! cfg_peer_ip cfg = None ->
  let added := fst (add_peer self cfg session) in
  let removed := fst (remove_peer added (cfg_peer_ip cfg) loop_running) in
  sessions removed = sessions self
  /\ mesh_sessions removed
     = (if accept_any_source cfg
        then delete (peer_as cfg) (mesh_sessions self)
        else mesh_sessions self)
  /\ loc_rib removed = loc_rib self
  /\ (accept_any_source cfg = true -> mesh_get removed (peer_as cfg) = None).
Proof.
  intros Hmesh Hfresh added removed. subst removed added.
  unfold add_peer. rewrite Hfresh. unfold remove_peer. simpl.
  rewrite lookup_insert_eq. simpl.
  assert (Hrefs : forall asn key, mesh_sessions self !! asn = Some key ->
                    key <> cfg_peer_ip cfg).
  { intros asn key Hkey Heq. destruct (Hmesh _ _ Hkey) as (s & Hget & _).
    rewrite Heq in Hget. congruence. }
  assert (Hfilter :
    filter (fun entry : Z * string => entry.2 <> cfg_peer_ip cfg)
      (if accept_any_source cfg
       then <[peer_as cfg := cfg_peer_ip cfg]> (mesh_sessions self)
       else mesh_sessions self)
    = (if accept_any_source cfg
       then delete (peer_as cfg) (mesh_sessions self)
       else mesh_sessions self)).
  { apply map_eq. intros asn. apply option_eq. intros key.
    rewrite map_lookup_filter_Some. simpl.
    destruct (accept_any_source cfg).
    - destruct (decide (peer_as cfg = asn)) as [<-|Hne].
      + rewrite lookup_insert_eq, lookup_delete_eq. split; [|discriminate].
        intros [Heq Hkey]. injection Heq as <-. contradiction.
      + rewrite lookup_insert_ne, lookup_delete_ne by assumption.
        split; [tauto|]. intros Hkey. split; [assumption | eapply Hrefs; eassumption].
    - split; [tauto|]. intros Hkey. split; [assumption | eapply Hrefs; eassumption]. }
  split; [apply delete_insert_id; exact Hfresh|].
  split; [exact Hfilter|]. split; [reflexivity|].
  intros Hany. unfold mesh_get. simpl. rewrite Hfilter, Hany.
  rewrite lookup_delete_eq. reflexivity.
Qed.

End PeerFacts.

(** ** Connections the handler turns away *)

Section HandlerFrame.
Context {E : Externals}.

Lemma mesh_get_Some (self : BGPAgent) (asn : Z) (key : string) (s : BGPSession) :
  mesh_get self asn = Some (key, s) -> sessions self !! key = Some s.
Proof.
  unfold mesh_get. destruct (mesh_sessions self !! asn) as [k|]; [|discriminate].
  simpl. destruct (sessions self !! k) as [s0|] eqn:Hk; [|discriminate].
  simpl. intros Heq. injection Heq as <- <-. exact Hk.
Qed.

(** Without a call of [accept_connection] the part after the lookup only
    closes the incoming writer, and writes to the agent only to clear the
    pending OPEN of a mesh-identified session. *)
Lemma collision_handling_turned_away (self : BGPAgent) (key : string)
    (s : BGPSession) (rd : StreamReader) (conn : IncomingConnection)
    (mesh_identified : bool) :
  (forall k r w c,
     ~ In (AcceptConnection k r w c)
          (snd (collision_handling self key s rd conn mesh_identified))) ->
  snd (collision_handling self key s rd conn mesh_identified)
  = [WriterClose (conn_writer conn)]
  /\ fst (collision_handling self key s rd conn mesh_identified)
     = (if mesh_identified then store_session self key (set_pending_open s None)
        else self).
Proof.
  unfold collision_handling, accept, reject. intros Hno.
  assert (Haccepted : forall (l : list Action) k r w c,
            In (AcceptConnection k r w c) (l ++ [AcceptConnection k r w c])).
  { intros. apply in_or_app. right. left. reflexivity. }
  destruct mesh_identified.
  - rewrite andb_false_r in *.
    destruct (bool_decide (fsm_state s = STATE_ESTABLISHED)); cbn [fst snd] in *.
    + split; reflexivity.
    + exfalso. eapply Hno. left. reflexivity.
  - rewrite andb_true_r in *.
    destruct (negb (passive (config s)));
      [|exfalso; eapply Hno; left; reflexivity].
    destruct (fsm_state s); cbn [fst snd] in *;
      try (split; reflexivity);
      try (exfalso; eapply Hno; left; reflexivity).
    + destruct (inet_aton (router_id self)); cbn [fst snd] in *;
        [|split; reflexivity].
      destruct (inet_aton (peer_router_id_or s (peername conn))); cbn [fst snd] in *;
        [|split; reflexivity].
      destruct (_ <? _); cbn [fst snd] in *; [split; reflexivity|].
      exfalso. eapply Hno. rewrite app_assoc. apply Haccepted.
    + destruct (inet_aton (router_id self)); cbn [fst snd] in *;
        [|split; reflexivity].
      destruct (inet_aton (peer_router_id_or s (peername conn))); cbn [fst snd] in *;
        [|split; reflexivity].
      destruct (_ <? _); cbn [fst snd] in *; [split; reflexivity|].
      exfalso. eapply Hno. rewrite app_assoc. apply Haccepted.
Qed.

(** X13.  A connection the handler turns away (it makes no call of
    [accept_connection]) costs the agent nothing: the one thing done is
    closing the incoming writer, so no reader task is cancelled and no
    session's own connection is closed; no peer is added or removed, the
    mesh index and the Loc-RIB stay, and every session keeps its
    configuration, FSM state, peer-id, Adj-RIB-In, reader, writer and
    reader task; its pending OPEN stays or is cleared. *)
Theorem _handle_incoming_connection_turned_away (self : BGPAgent)
    (conn : IncomingConnection) :
  (forall key rd w collision,
     ~ In (AcceptConnection key rd w collision)
          (snd (_handle_incoming_connection self conn))) ->
  let after := fst (_handle_incoming_connection self conn) in
  snd (_handle_incoming_connection self conn) = [WriterClose (conn_writer conn)]
  /\ mesh_sessions after = mesh_sessions self
  /\ loc_rib after = loc_rib self
  /\ (forall key,
        match sessions self !! key, sessions after !! key with
        | Some s, Some s' => kept_connection s s'
        | None, None => True
        | _, _ => False
        end).
Proof.
  intros Hno after. subst after.
  assert (Hsame : forall key,
            match sessions self !! key, sessions self !! key with
            | Some s, Some s' => kept_connection s s'
            | None, None => True
            | _, _ => False
            end).
  { intros key. destruct (sessions self !! key); [|exact I].
    repeat split. left. reflexivity. }
  assert (Hrejected :
    snd (reject self conn) = [WriterClose (conn_writer conn)]
    /\ mesh_sessions (fst (reject self conn)) = mesh_sessions self
    /\ loc_rib (fst (reject self conn)) = loc_rib self
    /\ (forall key,
          match sessions self !! key, sessions (fst (reject self conn)) !! key with
          | Some s, Some s' => kept_connection s s'
          | None, None => True
          | _, _ => False
          end)).
  { split; [reflexivity|]. split; [reflexivity|]. split; [reflexivity|]. exact Hsame. }
  unfold _handle_incoming_connection in *.
  destruct (sessions self !! peername conn) as [s|] eqn:Hget.
  - destruct (collision_handling_turned_away self (peername conn) s (conn_reader conn)
                conn false Hno) as [Hactions Hagent].
    rewrite Hactions, Hagent. exact Hrejected.
  - destruct (negb (bool_decide (mesh_sessions self = ∅))); [|exact Hrejected].
    destruct (_read_open_message (conn_reader conn) 30000) as [[open_msg|] rd];
      [|exact Hrejected].
    destruct (mesh_get self (my_as open_msg)) as [[key s]|] eqn:Hmesh;
      [|exact Hrejected].
    apply mesh_get_Some in Hmesh.
    destruct (collision_handling_turned_away
                (store_session self key (set_pending_open s (Some open_msg))) key
                (set_pending_open s (Some open_msg)) rd conn true Hno)
      as [Hactions Hagent].
    rewrite Hactions, Hagent.
    split; [reflexivity|]. split; [reflexivity|]. split; [reflexivity|].
    intros k. cbn. destruct (decide (key = k)) as [->|Hne].
    + rewrite !lookup_insert_eq, Hmesh. cbn.
      repeat (split; [reflexivity|]). right. reflexivity.
    + rewrite !lookup_insert_ne by assumption. apply Hsame.
Qed.

End HandlerFrame.

(** ** The connector's shadow table *)

Section ShadowTable.
Context {E : Externals}.

Lemma find_fst {A B} (f : A -> bool) (l : list (A * B)) :
  List.find f (l.*1) = fst <$> List.find (fun item => f item.1) l.
Proof.
  induction l as [|[a b] l IH]; [reflexivity|].
  simpl. destruct (f a); [reflexivity | exact IH].
Qed.

Lemma key_matches_inv p len (route_key : RouteKey) :
  key_matches p len route_key = true ->
  exists afi safi, route_key = (p, len, afi, safi).
Proof.
  destruct route_key as [[[kp klen] afi] safi]. unfold key_matches.
  intros Hmatch. apply andb_true_iff in Hmatch as [Hp Hlen].
  apply bool_decide_eq_true in Hp. apply Z.eqb_eq in Hlen. subst. eauto.
Qed.

Lemma key_matches_refl p len afi safi :
  key_matches p len ((p, len, afi, safi) : RouteKey) = true.
Proof.
  unfold key_matches. rewrite bool_decide_eq_true_2 by reflexivity.
  rewrite Z.eqb_refl. reflexivity.
Qed.

(** In a canonical table the walk over the items stops at the one key of
    the prefix and length. *)
Lemma find_canonical (table : gmap RouteKey RouteInfo) p len afi safi info :
  rib_canonical table ->
  table !! ((p, len, afi, safi) : RouteKey) = Some info ->
  List.find (fun item : RouteKey * RouteInfo => key_matches p len item.1)
            (map_to_list table)
  = Some ((p, len, afi, safi), info).
Proof.
  intros Hcanon Hget.
  destruct (Hcanon p len afi safi) as [Hsafi Hafi]; [eauto|].
  destruct (List.find _ _) as [[k' i']|] eqn:Hfind.
  - apply find_some in Hfind as [Hin Hmatch]. simpl in Hmatch.
    apply list_elem_of_In, elem_of_map_to_list in Hin.
    destruct (key_matches_inv _ _ _ Hmatch) as (afi' & safi' & ->).
    destruct (Hcanon p len afi' safi') as [Hsafi' Hafi']; [eauto|].
    rewrite Hafi in Hafi'. injection Hafi' as <-. subst safi safi'.
    rewrite Hget in Hin. injection Hin as <-. reflexivity.
  - exfalso.
    assert (Hin : In ((p, len, afi, safi, info) : RouteKey * RouteInfo)
                     (map_to_list table)).
    { apply list_elem_of_In, elem_of_map_to_list. exact Hget. }
    pose proof (find_none _ _ Hfind _ Hin) as Hnone.
    change (key_matches p len ((p, len, afi, safi) : RouteKey) = false) in Hnone.
    rewrite key_matches_refl in Hnone. discriminate.
Qed.

(** Without a key of the prefix and length the walk finds nothing. *)
Lemma find_absent (table : gmap RouteKey RouteInfo) p len :
  (forall afi safi, table !! ((p, len, afi, safi) : RouteKey) = None) ->
  List.find (fun item : RouteKey * RouteInfo => key_matches p len item.1)
            (map_to_list table) = None.
Proof.
  intros Habsent.
  destruct (List.find _ _) as [[k' i']|] eqn:Hfind; [|reflexivity].
  apply find_some in Hfind as [Hin Hmatch]. simpl in Hmatch.
  apply list_elem_of_In, elem_of_map_to_list in Hin.
  destruct (key_matches_inv _ _ _ Hmatch) as (afi' & safi' & ->).
  rewrite Habsent in Hin. discriminate.
Qed.

(** What a successful [inject_route] does to the table. *)
Lemma inject_route_success speaker network next_hop as_path attributes p len afi :
  reads_as network p len ->
  afi_of p = Some afi ->
  exists info,
    inject_route speaker network next_hop as_path attributes
    = (set_rib speaker (<[((p, len, afi, 1) : RouteKey) := info]> (shadow_table speaker)),
       Returns (InjectSuccess network info))
    /\ info = mkRouteInfo (str_or next_hop "0.0.0.0")
                (list_or as_path [speaker_local_as speaker])
                (default (PyInt 100) (attributes !! "local_pref"%string))
                (default (PyInt 0) (attributes !! "med"%string))
                (default (PyStr "igp") (attributes !! "origin"%string)).
Proof.
  intros (len_str & Hsplit & Hint) Hafi. unfold afi_of in Hafi.
  unfold inject_route. rewrite Hsplit, Hint.
  destruct (ip_address p) as [[version value]|]; [|discriminate].
  injection Hafi as <-. eexists. split; reflexivity.
Qed.

Lemma rib_canonical_insert table p len afi info :
  rib_canonical table -> afi_of p = Some afi ->
  rib_canonical (<[((p, len, afi, 1) : RouteKey) := info]> table).
Proof.
  intros Hcanon Hafi q qlen qafi qsafi Hsome.
  destruct (decide (((p, len, afi, 1) : RouteKey) = (q, qlen, qafi, qsafi))) as [Heq|Hne].
  - injection Heq as <- <- <- <-. auto.
  - rewrite lookup_insert_ne in Hsome by assumption. exact (Hcanon _ _ _ _ Hsome).
Qed.

Lemma rib_canonical_delete table route_key :
  rib_canonical table -> rib_canonical (delete route_key table).
Proof.
  intros Hcanon q qlen qafi qsafi [info Hsome].
  apply lookup_delete_Some in Hsome as [_ Hsome]. apply (Hcanon q qlen qafi qsafi). eauto.
Qed.

Lemma rib_canonical_update table route_key info :
  rib_canonical table -> is_Some (table !! route_key) ->
  rib_canonical (<[route_key := info]> table).
Proof.
  intros Hcanon Hold q qlen qafi qsafi Hsome.
  destruct (decide (route_key = ((q, qlen, qafi, qsafi) : RouteKey))) as [->|Hne].
  - exact (Hcanon _ _ _ _ Hold).
  - rewrite lookup_insert_ne in Hsome by assumption. exact (Hcanon _ _ _ _ Hsome).
Qed.

(** X14.  The shadow table only ever holds keys of the shape
    [inject_route] builds (unicast, with the address family of the
    prefix): [inject_route], [withdraw_route] and [adjust_local_pref] all
    keep it so, whatever their arguments and whether they succeed. *)
Theorem shadow_table_canonical (speaker : BGPSpeaker) (network : string)
    (next_hop : option string) (as_path : option (list Z))
    (attributes : gmap string PyValue) (local_pref : Z) :
  rib_canonical (shadow_table speaker) ->
  rib_canonical (shadow_table (fst (inject_route speaker network next_hop as_path
                                      attributes)))
  /\ rib_canonical (shadow_table (fst (withdraw_route speaker network)))
  /\ rib_canonical (shadow_table (fst (adjust_local_pref speaker network local_pref))).
Proof.
  intros Hcanon. split; [|split].
  - unfold inject_route.
    destruct (split_on "/" network) as [|p [|len_str [|? ?]]]; try exact Hcanon.
    destruct (py_int len_str) as [len|]; [|exact Hcanon].
    destruct (ip_address p) as [[version value]|] eqn:Hip; [|exact Hcanon].
    simpl. apply rib_canonical_insert; [exact Hcanon|].
    unfold afi_of. rewrite Hip. reflexivity.
  - unfold withdraw_route.
    destruct (split_on "/" network) as [|p [|len_str [|? ?]]]; try exact Hcanon.
    destruct (py_int len_str) as [len|]; [|exact Hcanon].
    destruct (rib speaker) as [table|] eqn:Hrib; [|exact Hcanon].
    destruct (List.find _ _) as [route_key|]; [|exact Hcanon].
    simpl. apply rib_canonical_delete.
    unfold shadow_table in Hcanon. rewrite Hrib in Hcanon. exact Hcanon.
  - unfold adjust_local_pref.
    destruct (split_on "/" network) as [|p [|len_str [|? ?]]]; try exact Hcanon.
    destruct (py_int len_str) as [len|]; [|exact Hcanon].
    destruct (rib speaker) as [table|] eqn:Hrib; [|exact Hcanon].
    destruct (List.find _ _) as [[route_key info]|] eqn:Hfind; [|exact Hcanon].
    simpl. unfold shadow_table in Hcanon. rewrite Hrib in Hcanon.
    apply rib_canonical_update; [exact Hcanon|].
    apply find_some in Hfind as [Hin _].
    apply list_elem_of_In, elem_of_map_to_list in Hin. eauto.
Qed.

Lemma withdraw_route_present speaker network p len afi safi info table :
  reads_as network p len ->
  rib speaker = Some table ->
  rib_canonical table ->
  table !! ((p, len, afi, safi) : RouteKey) = Some info ->
  withdraw_route speaker network
  = (set_rib speaker (delete ((p, len, afi, safi) : RouteKey) table),
     Returns (WithdrawSuccess network)).
Proof.
  intros (len_str & Hsplit & Hint) Hrib Hcanon Hget.
  unfold withdraw_route. rewrite Hsplit, Hint, Hrib.
  rewrite find_fst, (find_canonical table p len afi safi info Hcanon Hget).
  reflexivity.
Qed.

Lemma withdraw_route_missing speaker network p len :
  reads_as network p len ->
  (forall afi safi, shadow_table speaker !! ((p, len, afi, safi) : RouteKey) = None) ->
  withdraw_route speaker network = (speaker, Returns (Failure "Route not found")).
Proof.
  intros (len_str & Hsplit & Hint) Habsent.
  unfold withdraw_route. rewrite Hsplit, Hint.
  destruct (rib speaker) as [table|] eqn:Hrib; [|reflexivity].
  unfold shadow_table in Habsent. rewrite Hrib in Habsent. simpl in Habsent.
  rewrite find_fst, (find_absent table p len Habsent). reflexivity.
Qed.

(** X15.  Withdrawing a network right after injecting it succeeds and
    takes exactly the injected key out of the shadow table: the table is
    the one before the injection, less whatever it held under that key.
    A second withdrawal of the same network answers "Route not found" and
    changes nothing. *)
Theorem inject_then_withdraw (speaker : BGPSpeaker) (network : string)
    (next_hop : option string) (as_path : option (list Z))
    (attributes : gmap string PyValue) (p : string) (len afi : Z) :
  rib_canonical (shadow_table speaker) ->
  reads_as network p len ->
  afi_of p = Some afi ->
  let injected := fst (inject_route speaker network next_hop as_path attributes) in
  let withdrawn := fst (withdraw_route injected network) in
  snd (withdraw_route injected network) = Returns (WithdrawSuccess network)
  /\ shadow_table withdrawn
     = delete ((p, len, afi, 1) : RouteKey) (shadow_table speaker)
  /\ (shadow_table speaker !! ((p, len, afi, 1) : RouteKey) = None ->
      shadow_table withdrawn = shadow_table speaker)
  /\ withdraw_route withdrawn network
     = (withdrawn, Returns (Failure "Route not found")).
Proof.
  intros Hcanon Hreads Hafi injected withdrawn.
  destruct (inject_route_success speaker network next_hop as_path attributes p len afi
              Hreads Hafi) as (info & Hinject & _).
  assert (Hwithdraw :
    withdraw_route injected network
    = (set_rib injected
         (delete ((p, len, afi, 1) : RouteKey)
            (<[((p, len, afi, 1) : RouteKey) := info]> (shadow_table speaker))),
       Returns (WithdrawSuccess network))).
  { subst injected. rewrite Hinject. simpl fst.
    apply (withdraw_route_present _ network p len afi 1 info); try assumption.
    - reflexivity.
    - apply rib_canonical_insert; assumption.
    - apply lookup_insert_eq. }
  subst withdrawn. rewrite Hwithdraw. simpl fst. simpl snd.
  rewrite delete_insert_eq.
  split; [reflexivity|]. split; [reflexivity|]. split.
  - intros Hnone. unfold shadow_table at 1. simpl. apply delete_id. exact Hnone.
  - apply (withdraw_route_missing _ network p len Hreads).
    intros afi' safi'. unfold shadow_table at 1. simpl.
    destruct (decide (((p, len, afi, 1) : RouteKey) = (p, len, afi', safi'))) as [<-|Hne].
    + apply lookup_delete_eq.
    + rewrite lookup_delete_ne by assumption.
      destruct (shadow_table speaker !! ((p, len, afi', safi') : RouteKey)) eqn:Hget;
        [|reflexivity].
      exfalso. destruct (Hcanon p len afi' safi') as [Hs Ha]; [eauto|].
      rewrite Hafi in Ha. injection Ha as <-. subst safi'. contradiction.
Qed.

(** X16.  Withdrawing a network for which the shadow table holds no key
    (also before the table exists) answers "Route not found" and leaves
    the speaker as it is; so does adjusting its local preference. *)
Theorem withdraw_route_not_found (speaker : BGPSpeaker) (network p : string)
    (len local_pref : Z) :
  reads_as network p len ->
  (forall afi safi, shadow_table speaker !! ((p, len, afi, safi) : RouteKey) = None) ->
  withdraw_route speaker network = (speaker, Returns (Failure "Route not found"))
  /\ adjust_local_pref speaker network local_pref
     = (speaker, AdjustReturns (AdjustFailure "Route not found")).
Proof.
  intros Hreads Habsent. split; [apply (withdraw_route_missing _ _ p len); assumption|].
  destruct Hreads as (len_str & Hsplit & Hint).
  unfold adjust_local_pref. rewrite Hsplit, Hint.
  destruct (rib speaker) as [table|] eqn:Hrib; [|reflexivity].
  unfold shadow_table in Habsent. rewrite Hrib in Habsent. simpl in Habsent.
  rewrite (find_absent table p len Habsent). reflexivity.
Qed.

Lemma adjust_local_pref_agent speaker network local_pref :
  agent (fst (adjust_local_pref speaker network local_pref)) = agent speaker.
Proof.
  unfold adjust_local_pref.
  destruct (split_on "/" network) as [|p [|len_str [|? ?]]]; try reflexivity.
  destruct (py_int len_str); [|reflexivity].
  destruct (rib speaker); [|reflexivity].
  destruct (List.find _ _) as [[route_key info]|]; reflexivity.
Qed.

Lemma adjust_local_pref_present speaker network local_pref p len afi safi info table :
  reads_as network p len ->
  rib speaker = Some table ->
  rib_canonical table ->
  table !! ((p, len, afi, safi) : RouteKey) = Some info ->
  adjust_local_pref speaker network local_pref
  = (set_rib speaker
       (<[((p, len, afi, safi) : RouteKey) := set_local_pref info local_pref]> table),
     AdjustReturns (AdjustSuccess network (ri_local_pref info) local_pref)).
Proof.
  intros (len_str & Hsplit & Hint) Hrib Hcanon Hget.
  unfold adjust_local_pref. rewrite Hsplit, Hint, Hrib.
  rewrite (find_canonical table p len afi safi info Hcanon Hget).
  reflexivity.
Qed.

(** X17.  Adjusting the local preference of an injected network reports
    the preference it was injected with (100 by default) and rewrites
    that one field of that one entry of the shadow table; the agent is
    not reached: its Loc-RIB and the answer of [get_rib] are as before. *)
Theorem adjust_local_pref_after_inject (speaker : BGPSpeaker) (network : string)
    (next_hop : option string) (as_path : option (list Z))
    (attributes : gmap string PyValue) (p : string) (len afi local_pref : Z)
    (q : option string) :
  rib_canonical (shadow_table speaker) ->
  reads_as network p len ->
  afi_of p = Some afi ->
  let injected := fst (inject_route speaker network next_hop as_path attributes) in
  let adjusted := adjust_local_pref injected network local_pref in
  snd adjusted
  = AdjustReturns (AdjustSuccess network
                     (default (PyInt 100) (attributes !! "local_pref"%string))
                     local_pref)
  /\ (exists info,
        shadow_table injected !! ((p, len, afi, 1) : RouteKey) = Some info
        /\ shadow_table (fst adjusted)
           = <[((p, len, afi, 1) : RouteKey) := set_local_pref info local_pref]>
               (shadow_table injected))
  /\ loc_rib (agent (fst adjusted)) = loc_rib (agent speaker)
  /\ get_rib (fst adjusted) q = get_rib speaker q.
Proof.
  intros Hcanon Hreads Hafi injected adjusted.
  destruct (inject_route_success speaker network next_hop as_path attributes p len afi
              Hreads Hafi) as (info & Hinject & Hinfo).
  assert (Hagent : agent (fst adjusted) = agent speaker).
  { subst adjusted injected. rewrite adjust_local_pref_agent.
    apply inject_route_agent. }
  assert (Hadjust :
    adjusted
    = (set_rib injected
         (<[((p, len, afi, 1) : RouteKey) := set_local_pref info local_pref]>
            (shadow_table injected)),
       AdjustReturns (AdjustSuccess network (ri_local_pref info) local_pref))).
  { subst adjusted injected. rewrite Hinject. simpl fst.
    apply (adjust_local_pref_present _ network local_pref p len afi 1 info);
      try assumption.
    - reflexivity.
    - apply rib_canonical_insert; assumption.
    - apply lookup_insert_eq. }
  split; [rewrite Hadjust; simpl; rewrite Hinfo; reflexivity|].
  split.
  - exists info. split.
    + subst injected. rewrite Hinject. unfold shadow_table. simpl.
      apply lookup_insert_eq.
    + rewrite Hadjust. reflexivity.
  - split; [rewrite Hagent; reflexivity|].
    apply get_rib_agent. exact Hagent.
Qed.

End ShadowTable.


(** ** Advertisement *)

Lemma NoDup_fst_unique {A B} (l : list (A * B)) (x : A) (y1 y2 : B) :
  NoDup (l.*1) -> In (x, y1) l -> In (x, y2) l -> y1 = y2.
Proof.
  induction l as [|[a b] l IH]; [intros _ []|].
  cbn. intros Hnd. apply NoDup_cons in Hnd as [Hout Hnd].
  assert (Hkey : forall y, In (x, y) l -> a <> x).
  { intros y Hin ->. apply Hout. apply list_elem_of_fmap. exists (x, y).
    split; [reflexivity | apply list_elem_of_In; assumption]. }
  intros [H1|H1] [H2|H2].
  - congruence.
  - injection H1 as Ha _. exfalso. exact (Hkey _ H2 Ha).
  - injection H2 as Ha _. exfalso. exact (Hkey _ H1 Ha).
  - exact (IH Hnd H1 H2).
Qed.

Lemma dict_set_In {V} (k : Z) (v : V) (d : list (Z * V)) (k' : Z) (v' : V) :
  In (k', v') (dict_set k v d) -> (k' = k /\ v' = v) \/ In (k', v') d.
Proof.
  induction d as [|[k0 v0] d IH]; cbn [dict_set].
  - intros [Heq|[]]. injection Heq as <- <-. auto.
  - destruct (k0 =? k).
    + intros [Heq|Hin]; [injection Heq as <- <-; auto | right; right; assumption].
    + intros [Heq|Hin]; [right; left; assumption|].
      destruct (IH Hin) as [?|?]; [left; assumption | right; right; assumption].
Qed.

Lemma dict_set_NoDup {V} (k : Z) (v : V) (d : list (Z * V)) :
  NoDup (d.*1) -> NoDup ((dict_set k v d).*1).
Proof.
  induction d as [|[k0 v0] d IH]; cbn [dict_set].
  - intros _. cbn. apply NoDup_singleton.
  - destruct (Z.eqb_spec k0 k) as [->|Hne]; [intros Hnd; exact Hnd|].
    cbn. intros Hnd. apply NoDup_cons in Hnd as [Hout Hnd].
    apply NoDup_cons. split; [|apply IH; assumption].
    intros Hmem. apply Hout. apply list_elem_of_fmap in Hmem as [[k' v'] [Hk Hmem]].
    cbn in Hk. subst k'. apply list_elem_of_In in Hmem.
    destruct (dict_set_In _ _ _ _ _ Hmem) as [[? _]|Hold]; [congruence|].
    apply list_elem_of_fmap. exists (k0, v'). split; [reflexivity|].
    apply list_elem_of_In. assumption.
Qed.

(** The dict built from a list of attributes holds each type code once,
    with an attribute of the list that carries the code. *)
Lemma attrs_dict_spec (l : list PathAttribute) :
  NoDup ((attrs_dict l).*1)
  /\ (forall k attr, In (k, attr) (attrs_dict l) -> type_code attr = k /\ In attr l).
Proof.
  unfold attrs_dict.
  assert (Hgen : forall l d,
    NoDup (d.*1) ->
    (forall k attr, In (k, attr) d -> type_code attr = k) ->
    NoDup ((fold_left (fun d attr => dict_set (type_code attr) attr d) l d).*1)
    /\ (forall k attr,
          In (k, attr) (fold_left (fun d attr => dict_set (type_code attr) attr d) l d) ->
          type_code attr = k /\ (In attr l \/ In (k, attr) d))).
  { clear l. induction l as [|a l IH]; intros d Hnd Hd.
    - cbn. split; [assumption|]. intros k attr Hin. split; [apply Hd; assumption | auto].
    - cbn [fold_left].
      destruct (IH (dict_set (type_code a) a d)) as [Hnd' Hin'].
      + apply dict_set_NoDup. assumption.
      + intros k attr Hin. destruct (dict_set_In _ _ _ _ _ Hin) as [[-> ->]|Hold];
          [reflexivity | apply Hd; assumption].
      + split; [assumption|]. intros k attr Hin.
        destruct (Hin' _ _ Hin) as [Hcode [Hl|Hset]].
        * split; [assumption | left; right; assumption].
        * split; [assumption|].
          destruct (dict_set_In _ _ _ _ _ Hset) as [[_ ->]|Hold];
            [left; left; reflexivity | right; assumption]. }
  destruct (Hgen l []) as [Hnd Hin].
  - cbn. constructor.
  - intros ? ? [].
  - split; [assumption|]. intros k attr Hmem.
    destruct (Hin _ _ Hmem) as [Hcode [Hl|[]]]. auto.
Qed.

Section AdvertiseFacts.
Context {E : Externals}.
Variable apply_export_policy : BGPRoute -> string -> option BGPRoute.
Variable attribute_values : PathAttributes -> list PathAttribute.
Variable self : BGPAgent.
Variable changed_prefixes : list string.

Lemma fold_advertise_prefix (session : BGPSession) (l : list string) :
  forall acc,
    fold_left (advertise_prefix apply_export_policy self session) l acc
    = (acc.1 ++ List.filter (announced_to apply_export_policy self session) l,
       acc.2 ++ List.filter (withdrawn_for self) l).
Proof.
  induction l as [|p l IH]; intros [n w].
  - simpl. rewrite !app_nil_r. reflexivity.
  - cbn [fold_left List.filter]. rewrite IH.
    unfold advertise_prefix, announced_to, withdrawn_for.
    destruct (loc_rib self !! p) as [best_route|].
    + destruct (char_in ":" p); [reflexivity|].
      destruct (_should_advertise_to_peer self best_route session); [|reflexivity].
      destruct (apply_export_policy best_route (session_peer_id session)) as [r|].
      * rewrite bool_decide_eq_true_2 by eauto. cbn. rewrite <- app_assoc. reflexivity.
      * rewrite bool_decide_eq_false_2 by (intros [? ?]; discriminate). reflexivity.
    + destruct (char_in ":" p); [reflexivity|]. cbn. rewrite <- app_assoc. reflexivity.
Qed.

(** The messages the loop adds, each for an established session of the
    list walked, in its order. *)
Lemma advertise_loop_sent (ss : list (string * BGPSession)) :
  forall sent, exists more,
    adv_sent (advertise_loop apply_export_policy attribute_values self
                changed_prefixes ss sent) = sent ++ more
    /\ sublist (more.*1) (ss.*1)
    /\ (forall key update, In (key, update) more ->
          exists session,
            In (key, session) ss
            /\ sent_to apply_export_policy attribute_values self changed_prefixes
                 session update).
Proof.
  induction ss as [|[key session] ss IH]; intros sent.
  - exists []. simpl. rewrite app_nil_r. split; [reflexivity|].
    split; [constructor|]. intros ? ? [].
  - cbn [advertise_loop].
    assert (Hskip : forall sent0,
      exists more,
        adv_sent (advertise_loop apply_export_policy attribute_values self
                    changed_prefixes ss sent0) = sent0 ++ more
        /\ sublist (more.*1) (((key, session) :: ss).*1)
        /\ (forall key0 update, In (key0, update) more ->
              exists session0,
                In (key0, session0) ((key, session) :: ss)
                /\ sent_to apply_export_policy attribute_values self changed_prefixes
                     session0 update)).
    { intros sent0. destruct (IH sent0) as (more & Hsent & Hsub & Hall).
      exists more. split; [assumption|]. split.
      - cbn. apply sublist_cons. assumption.
      - intros key0 update Hin. destruct (Hall _ _ Hin) as (session0 & Hs & Hto).
        exists session0. split; [right; assumption | assumption]. }
    destruct (is_established session) eqn:Hest; cbn [negb]; [|apply Hskip].
    rewrite fold_advertise_prefix. cbn [fst snd app].
    set (n := List.filter (announced_to apply_export_policy self session)
                changed_prefixes).
    set (w := List.filter (withdrawn_for self) changed_prefixes).
    assert (Hsend :
      (n <> [] \/ w <> []) ->
      exists more,
        adv_sent
          match update_attributes attribute_values self session n changed_prefixes with
          | Some path_attrs_dict =>
              advertise_loop apply_export_policy attribute_values self
                changed_prefixes ss
                (sent ++ [(key, mkBGPUpdate w path_attrs_dict n)])
          | None => mkAdvertised sent true
          end = sent ++ more
        /\ sublist (more.*1) (((key, session) :: ss).*1)
        /\ (forall key0 update, In (key0, update) more ->
              exists session0,
                In (key0, session0) ((key, session) :: ss)
                /\ sent_to apply_export_policy attribute_values self changed_prefixes
                     session0 update)).
    { intros Hne.
      destruct (update_attributes attribute_values self session n changed_prefixes)
        as [d|] eqn:Hattrs.
      - destruct (IH (sent ++ [(key, mkBGPUpdate w d n)]))
          as (more & Hsent & Hsub & Hall).
        exists ((key, mkBGPUpdate w d n) :: more).
        split; [rewrite Hsent, <- app_assoc; reflexivity|]. split.
        + cbn. apply sublist_skip. assumption.
        + intros key0 update [Heq|Hin].
          * injection Heq as <- <-. exists session. split; [left; reflexivity|].
            unfold sent_to. cbn. auto.
          * destruct (Hall _ _ Hin) as (session0 & Hs & Hto).
            exists session0. split; [right; assumption | assumption].
      - exists []. cbn. rewrite app_nil_r. split; [reflexivity|].
        split; [apply sublist_nil_l|]. intros ? ? []. }
    destruct n as [|p n'], w as [|q w'].
    + apply Hskip.
    + apply Hsend. right. discriminate.
    + apply Hsend. left. discriminate.
    + apply Hsend. left. discriminate.
Qed.

Lemma _advertise_routes_sent :
  NoDup ((adv_sent (_advertise_routes apply_export_policy attribute_values self
                      changed_prefixes)).*1)
  /\ (forall key update,
        In (key, update)
           (adv_sent (_advertise_routes apply_export_policy attribute_values self
                        changed_prefixes)) ->
        exists session,
          sessions self !! key = Some session
          /\ sent_to apply_export_policy attribute_values self changed_prefixes
               session update).
Proof.
  unfold _advertise_routes.
  destruct (advertise_loop_sent (map_to_list (sessions self)) [])
    as (more & Hsent & Hsub & Hall).
  rewrite Hsent. cbn [app]. split.
  - exact (sublist_NoDup _ _ (NoDup_fst_map_to_list (sessions self)) Hsub).
  - intros key update Hin. destruct (Hall _ _ Hin) as (session & Hs & Hto).
    exists session. split; [|assumption].
    apply elem_of_map_to_list, list_elem_of_In. assumption.
Qed.

(** X18.  [_advertise_routes] sends only to established sessions of the
    agent, at most one UPDATE to each, and never an UPDATE that neither
    announces nor withdraws a prefix. *)
Theorem _advertise_routes_targets (key : string) (update : BGPUpdate) :
  In (key, update)
     (adv_sent (_advertise_routes apply_export_policy attribute_values self
                  changed_prefixes)) ->
  (exists session,
     sessions self !! key = Some session /\ is_established session = true)
  /\ (nlri update <> [] \/ withdrawn_routes update <> [])
  /\ (forall update',
        In (key, update')
           (adv_sent (_advertise_routes apply_export_policy attribute_values self
                        changed_prefixes)) ->
        update' = update).
Proof.
  intros Hin. destruct _advertise_routes_sent as [Hnodup Hall].
  destruct (Hall _ _ Hin) as (session & Hs & Hest & _ & _ & Hne & _).
  split; [eauto|]. split; [assumption|].
  intros update' Hin'. exact (NoDup_fst_unique _ _ _ _ Hnodup Hin' Hin).
Qed.

(** X19.  The NLRI of an UPDATE sent to a session are exactly the changed
    prefixes without a colon whose Loc-RIB route may be advertised to that
    session and passes the export policy; so no learned route goes back
    to the peer-id it came from.  The withdrawn routes are exactly the
    changed prefixes without a colon that the Loc-RIB no longer holds. *)
Theorem _advertise_routes_contents (key : string) (update : BGPUpdate)
    (session : BGPSession) :
  In (key, update)
     (adv_sent (_advertise_routes apply_export_policy attribute_values self
                  changed_prefixes)) ->
  sessions self !! key = Some session ->
  (forall p,
     In p (nlri update)
     <-> In p changed_prefixes
         /\ char_in ":" p = false
         /\ exists route,
              loc_rib self !! p = Some route
              /\ _should_advertise_to_peer self route session = true
              /\ is_Some (apply_export_policy route (session_peer_id session)))
  /\ (forall p,
        In p (withdrawn_routes update)
        <-> In p changed_prefixes /\ char_in ":" p = false /\ loc_rib self !! p = None)
  /\ (forall p route,
        In p (nlri update) -> loc_rib self !! p = Some route ->
        source route = "local"%string \/ peer_id route <> session_peer_id session).
Proof.
  intros Hin Hkey. destruct _advertise_routes_sent as [_ Hall].
  destruct (Hall _ _ Hin) as (session' & Hs & _ & Hnlri & Hwith & _).
  rewrite Hkey in Hs. injection Hs as <-.
  assert (Hannounced : forall p,
    announced_to apply_export_policy self session p = true
    <-> char_in ":" p = false
        /\ exists route,
             loc_rib self !! p = Some route
             /\ _should_advertise_to_peer self route session = true
             /\ is_Some (apply_export_policy route (session_peer_id session))).
  { intros p. unfold announced_to.
    destruct (loc_rib self !! p) as [route|].
    - rewrite !andb_true_iff, negb_true_iff, bool_decide_eq_true. split.
      + intros [[Hc Hadv] Hpol]. split; [assumption|]. exists route. auto.
      + intros (Hc & route' & Heq & Hadv & Hpol). injection Heq as <-. auto.
    - split; [discriminate|]. intros (_ & route & Heq & _). discriminate. }
  split; [|split].
  - intros p. rewrite Hnlri, filter_In, Hannounced. reflexivity.
  - intros p. rewrite Hwith, filter_In. unfold withdrawn_for.
    destruct (loc_rib self !! p) as [route|].
    + split; [intros [_ Hf]; discriminate | intros (_ & _ & Hf); discriminate].
    + rewrite negb_true_iff. tauto.
  - intros p route Hp Hroute. rewrite Hnlri, filter_In, Hannounced in Hp.
    destruct Hp as (_ & _ & route' & Heq & Hadv & _).
    rewrite Hroute in Heq. injection Heq as <-.
    unfold _should_advertise_to_peer in Hadv.
    destruct (bool_decide (source route = "local"%string)) eqn:Hlocal.
    + left. apply bool_decide_eq_true in Hlocal. assumption.
    + right. destruct (bool_decide (peer_id route = session_peer_id session)) eqn:Hpeer;
        [discriminate|].
      apply bool_decide_eq_false in Hpeer. assumption.
Qed.

(** X20.  Every prefix of an UPDATE is sent under the attributes of the
    first: they are prepared from the Loc-RIB route of the first NLRI
    prefix, which the Loc-RIB always holds, and put under their type
    codes, one attribute per code.  An UPDATE that only withdraws carries
    no attribute. *)
Theorem _advertise_routes_attributes (key : string) (update : BGPUpdate)
    (session : BGPSession) :
  In (key, update)
     (adv_sent (_advertise_routes apply_export_policy attribute_values self
                  changed_prefixes)) ->
  sessions self !! key = Some session ->
  match nlri update with
  | [] => update_path_attributes update = []
  | first :: _ =>
      exists route modified,
        loc_rib self !! first = Some route
        /\ _prepare_attributes_for_advertisement self
             (attribute_values (path_attributes route)) session = Some modified
        /\ update_path_attributes update = attrs_dict modified
        /\ NoDup ((update_path_attributes update).*1)
        /\ (forall code attr, In (code, attr) (update_path_attributes update) ->
              type_code attr = code /\ In attr modified)
  end.
Proof.
  intros Hin Hkey. destruct _advertise_routes_sent as [_ Hall].
  destruct (Hall _ _ Hin) as (session' & Hs & _ & Hnlri & _ & _ & Hattrs).
  rewrite Hkey in Hs. injection Hs as <-.
  unfold update_attributes in Hattrs.
  destruct (nlri update) as [|first others] eqn:Hn.
  - injection Hattrs as <-. reflexivity.
  - assert (Hfirst : In first (List.filter (announced_to apply_export_policy self session)
                                 changed_prefixes)).
    { rewrite <- Hnlri. left. reflexivity. }
    apply filter_In in Hfirst as [Hchanged Hann].
    destruct changed_prefixes as [|c cs]; [destruct Hchanged|].
    unfold announced_to in Hann.
    destruct (loc_rib self !! first) as [route|]; [|discriminate].
    destruct (_prepare_attributes_for_advertisement self
                (attribute_values (path_attributes route)) session)
      as [modified|] eqn:Hprep; [|discriminate].
    cbn in Hattrs. injection Hattrs as <-.
    exists route, modified. split; [reflexivity|]. split; [assumption|].
    split; [reflexivity|]. apply attrs_dict_spec.
Qed.

End AdvertiseFacts.

(** X21.  The export policy only filters: the route it returns is
    dropped, and two policies that accept the same routes for the same
    peers make [_advertise_routes] send the same UPDATEs. *)
Theorem _advertise_routes_policy_filters
    (policy policy' : BGPRoute -> string -> option BGPRoute)
    (attribute_values : PathAttributes -> list PathAttribute)
    (self : BGPAgent) (changed_prefixes : list string) :
  (forall route peer, is_Some (policy route peer) <-> is_Some (policy' route peer)) ->
  _advertise_routes policy attribute_values self changed_prefixes
  = _advertise_routes policy' attribute_values self changed_prefixes.
Proof.
  intros Hsame.
  assert (Hfold : forall session,
    fold_left (advertise_prefix policy self session) changed_prefixes ([], [])
    = fold_left (advertise_prefix policy' self session) changed_prefixes ([], [])).
  { intros session. rewrite !fold_advertise_prefix. f_equal. f_equal.
    apply filter_ext. intros p. unfold announced_to.
    destruct (loc_rib self !! p) as [route|]; [|reflexivity].
    f_equal. apply bool_decide_ext. apply Hsame. }
  unfold _advertise_routes. generalize (@nil (string * BGPUpdate)).
  induction (map_to_list (sessions self)) as [|[key session] ss IH]; intros sent;
    [reflexivity|].
  cbn [advertise_loop]. rewrite Hfold.
  destruct (negb (is_established session)); [apply IH|].
  destruct (fold_left (advertise_prefix policy' self session) changed_prefixes ([], []))
    as [n w].
  assert (Hsend :
    match update_attributes attribute_values self session n changed_prefixes with
    | Some path_attrs_dict =>
        advertise_loop policy attribute_values self changed_prefixes ss
          (sent ++ [(key, mkBGPUpdate w path_attrs_dict n)])
    | None => mkAdvertised sent true
    end
    = match update_attributes attribute_values self session n changed_prefixes with
      | Some path_attrs_dict =>
          advertise_loop policy' attribute_values self changed_prefixes ss
            (sent ++ [(key, mkBGPUpdate w path_attrs_dict n)])
      | None => mkAdvertised sent true
      end).
  { destruct (update_attributes attribute_values self session n changed_prefixes);
      [apply IH | reflexivity]. }
  destruct n, w; [apply IH | exact Hsend..].
Qed.

Lemma In_py_insert {A} (i : nat) (x y : A) (l : list A) :
  In y (py_insert i x l) <-> y = x \/ In y l.
Proof.
  unfold py_insert. rewrite in_app_iff. cbn [In].
  rewrite <- (take_drop i l) at 3. rewrite in_app_iff.
  split; [intros [?|[?|?]] | intros [?|[?|?]]]; auto.
Qed.

(** X22.  When [_prepare_attributes_for_advertisement] gets attributes
    whose AS_PATH entries are AS_PATH objects it returns a list that holds
    an ORIGIN, an AS_PATH and a NEXT_HOP attribute whatever the input
    held, and every attribute under the NEXT_HOP code is the session's
    local address: the next hop learned with the route is never passed
    on. *)
Theorem _prepare_attributes_for_advertisement_mandatory (self : BGPAgent)
    (attributes : list PathAttribute) (session : BGPSession) :
  Forall as_path_typed attributes ->
  exists modified,
    _prepare_attributes_for_advertisement self attributes session = Some modified
    /\ (exists attr, In attr modified /\ type_code attr = ATTR_ORIGIN)
    /\ (exists attr, In attr modified /\ type_code attr = ATTR_AS_PATH)
    /\ (exists attr, In attr modified /\ type_code attr = ATTR_NEXT_HOP)
    /\ (forall attr, In attr modified -> type_code attr = ATTR_NEXT_HOP ->
          attr = NextHopAttribute (local_ip (config session))).
Proof.
  intros Htyped. unfold _prepare_attributes_for_advertisement.
  rewrite (prepare_loop_spec self session attributes Htyped). cbn [mbind option_bind].
  cbn [modified has_origin has_as_path has_next_hop app orb].
  set (L := flat_map (prepared self session) attributes).
  assert (Hthrough : forall code,
    (code = ATTR_ORIGIN \/ code = ATTR_AS_PATH \/ code = ATTR_NEXT_HOP) ->
    existsb (fun attr => type_code attr =? code) attributes = true ->
    exists attr, In attr L /\ type_code attr = code).
  { intros code Hcode Hex. apply existsb_exists in Hex as (attr & Hin & Hc).
    apply Z.eqb_eq in Hc.
    assert (Hout : exists attr', In attr' (prepared self session attr)
                                 /\ type_code attr' = code).
    { unfold prepared.
      pose proof (proj1 (List.Forall_forall as_path_typed attributes) Htyped attr Hin)
        as Htyped_attr.
      destruct Hcode as [Hcode|[Hcode|Hcode]]; subst code.
      - rewrite Hc. cbn. eauto.
      - destruct (Htyped_attr Hc) as [segments Heq]. subst attr. cbn. eauto.
      - rewrite Hc. cbn. eauto. }
    destruct Hout as (attr' & Hin' & Hc'). exists attr'. split; [|assumption].
    unfold L. apply in_flat_map. eauto. }
  assert (HnhL : forall attr, In attr L -> type_code attr = ATTR_NEXT_HOP ->
                   attr = NextHopAttribute (local_ip (config session))).
  { intros attr Hin Hc. unfold L in Hin. apply in_flat_map in Hin as (a & _ & Hin).
    unfold prepared in Hin.
    destruct (Z.eqb_spec (type_code a) ATTR_ORIGIN) as [e1|n1].
    { destruct Hin as [<-|[]]. rewrite e1 in Hc. discriminate. }
    destruct (Z.eqb_spec (type_code a) ATTR_NEXT_HOP) as [e3|n3].
    { destruct Hin as [<-|[]]. reflexivity. }
    destruct (Z.eqb_spec (type_code a) ATTR_AS_PATH) as [e2|n2].
    { destruct (attr_segments a); [|destruct Hin].
      destruct Hin as [<-|[]]. discriminate. }
    destruct (type_code a =? ATTR_LOCAL_PREF);
      [destruct (peer_as (config session) =? local_as self)|];
      try (destruct Hin as [<-|[]]; contradiction).
    destruct Hin. }
  eexists. split; [reflexivity|].
  set (has_o := existsb (fun attr => type_code attr =? ATTR_ORIGIN) attributes) in *.
  set (has_p := existsb (fun attr => type_code attr =? ATTR_AS_PATH) attributes) in *.
  set (has_n := existsb (fun attr => type_code attr =? ATTR_NEXT_HOP) attributes) in *.
  set (M1 := if negb has_o then py_insert 0 (OriginAttribute ORIGIN_IGP) L else L).
  set (M2 := if negb has_p then _ else M1).
  set (M3 := if negb has_n then _ else M2).
  assert (H1 : forall attr, In attr L -> In attr M1).
  { intros attr Hin. unfold M1. destruct (negb has_o); [|assumption].
    apply In_py_insert. auto. }
  assert (H2 : forall attr, In attr M1 -> In attr M2).
  { intros attr Hin. unfold M2. destruct (negb has_p); [|assumption].
    apply In_py_insert. auto. }
  assert (H3 : forall attr, In attr M2 -> In attr M3).
  { intros attr Hin. unfold M3. destruct (negb has_n); [|assumption].
    apply In_py_insert. auto. }
  assert (H4 : forall attr, In attr M3 ->
            In attr (if peer_as (config session) =? local_as self
                     then if negb (existsb (fun attr => type_code attr =? ATTR_LOCAL_PREF)
                                     M3)
                          then M3 ++ [LocalPrefAttribute 100] else M3
                     else M3)).
  { intros attr Hin. destruct (peer_as (config session) =? local_as self); [|assumption].
    destruct (negb (existsb _ M3)); [apply in_or_app; auto | assumption]. }
  split; [|split; [|split]].
  - destruct has_o eqn:Ho.
    + destruct (Hthrough ATTR_ORIGIN) as (attr & Hin & Hc); auto.
      exists attr. auto.
    + exists (OriginAttribute ORIGIN_IGP). split; [|reflexivity].
      apply H4, H3, H2. unfold M1. cbn [negb]. apply In_py_insert. auto.
  - destruct has_p eqn:Hp.
    + destruct (Hthrough ATTR_AS_PATH) as (attr & Hin & Hc); auto.
      exists attr. auto.
    + eexists (ASPathAttribute _). split; [|reflexivity].
      apply H4, H3. unfold M2. cbn [negb]. apply In_py_insert. left. reflexivity.
  - destruct has_n eqn:Hn.
    + destruct (Hthrough ATTR_NEXT_HOP) as (attr & Hin & Hc); auto.
      exists attr. auto.
    + exists (NextHopAttribute (local_ip (config session))). split; [|reflexivity].
      apply H4. unfold M3. cbn [negb]. apply In_py_insert. auto.
  - intros attr Hin Hc.
    assert (Hin3 : In attr M3).
    { destruct (peer_as (config session) =? local_as self); [|assumption].
      destruct (negb (existsb _ M3)); [|assumption].
      apply in_app_or in Hin as [?|[<-|[]]]; [assumption | discriminate]. }
    unfold M3 in Hin3.
    assert (Hin2 : attr = NextHopAttribute (local_ip (config session)) \/ In attr M2).
    { destruct (negb has_n); [apply In_py_insert in Hin3; assumption | auto]. }
    destruct Hin2 as [?|Hin2]; [assumption|].
    unfold M2 in Hin2.
    assert (Hin1 : In attr M1).
    { destruct (negb has_p); [|assumption].
      apply In_py_insert in Hin2 as [->|?]; [discriminate | assumption]. }
    unfold M1 in Hin1.
    assert (Hin0 : In attr L).
    { destruct (negb has_o); [|assumption].
      apply In_py_insert in Hin1 as [->|?]; [discriminate | assumption]. }
    apply HnhL; assumption.
Qed.

Lemma decision_cycle_parts {E : Externals}
    (policy : BGPRoute -> string -> option BGPRoute)
    (attribute_values : PathAttributes -> list PathAttribute) (self : BGPAgent) :
  (decision_cycle policy attribute_values self).1.1 = fst (_run_decision_process self)
  /\ (decision_cycle policy attribute_values self).2
     = match ds_changed (snd (_run_decision_process self)) with
       | [] => mkAdvertised [] false
       | _ :: _ =>
           _advertise_routes policy attribute_values (fst (_run_decision_process self))
             (ds_changed (snd (_run_decision_process self)))
       end.
Proof.
  unfold decision_cycle.
  destruct (_run_decision_process self) as [self' st]. cbn [fst snd].
  destruct (ds_changed st); split; reflexivity.
Qed.

(** X23.  A whole decision cycle announces only prefixes whose Loc-RIB
    entry it has just installed or replaced and withdraws only prefixes
    whose entry it has just removed; a second cycle over unchanged
    Adj-RIB-Ins sends nothing and leaves the Loc-RIB alone. *)
Theorem decision_cycle_messages {E : Externals}
    (policy : BGPRoute -> string -> option BGPRoute)
    (attribute_values : PathAttributes -> list PathAttribute) (self : BGPAgent) :
  candidates_keyed self ->
  let first := decision_cycle policy attribute_values self in
  let once := first.1.1 in
  (forall key update p,
     In (key, update) (adv_sent first.2) ->
     (In p (nlri update) ->
      is_Some (loc_rib once !! p) /\ loc_rib once !! p <> loc_rib self !! p)
     /\ (In p (withdrawn_routes update) ->
         loc_rib once !! p = None /\ is_Some (loc_rib self !! p)))
  /\ (decision_cycle policy attribute_values once).2 = mkAdvertised [] false
  /\ loc_rib (decision_cycle policy attribute_values once).1.1 = loc_rib once.
Proof.
  intros Hkeyed first once.
  destruct (decision_cycle_parts policy attribute_values self) as [Hagent Hadv].
  fold first in Hagent, Hadv. fold once in Hagent.
  split; [|split].
  - intros key update p Hin. rewrite Hadv in Hin.
    destruct (ds_changed (snd (_run_decision_process self))) as [|c cs] eqn:Hch;
      [destruct Hin|].
    rewrite <- Hch in Hin.
    destruct (_advertise_routes_sent policy attribute_values
                (fst (_run_decision_process self))
                (ds_changed (snd (_run_decision_process self)))) as [_ Hall].
    destruct (Hall _ _ Hin) as (session & _ & _ & Hnlri & Hwith & _).
    rewrite Hagent.
    split; intros Hp.
    + rewrite Hnlri in Hp. apply filter_In in Hp as [Hchanged Hann].
      split.
      * unfold announced_to in Hann.
        destruct (loc_rib (fst (_run_decision_process self)) !! p); [eauto|discriminate].
      * apply (_run_decision_process_reports self Hkeyed).
        apply list_elem_of_In. assumption.
    + rewrite Hwith in Hp. apply filter_In in Hp as [Hchanged Hgone].
      apply list_elem_of_In in Hchanged.
      apply (_run_decision_process_reports self Hkeyed) in Hchanged.
      unfold withdrawn_for in Hgone.
      destruct (loc_rib (fst (_run_decision_process self)) !! p) eqn:Hnow;
        [discriminate|].
      split; [reflexivity|].
      destruct (loc_rib self !! p); [eauto | contradiction].
  - destruct (decision_cycle_parts policy attribute_values once) as [_ Hadv'].
    rewrite Hadv'. rewrite Hagent.
    destruct (_run_decision_process_settled self Hkeyed) as [_ Hnone].
    cbn zeta in Hnone. rewrite Hnone. reflexivity.
  - destruct (decision_cycle_parts policy attribute_values once) as [Hagent' _].
    rewrite Hagent'. rewrite Hagent.
    destruct (_run_decision_process_settled self Hkeyed) as [Hrib _].
    exact Hrib.
Qed.

Lemma _prepare_attributes_for_advertisement_returns (self : BGPAgent)
    (attributes : list PathAttribute) (session : BGPSession) :
  Forall as_path_typed attributes ->
  is_Some (_prepare_attributes_for_advertisement self attributes session).
Proof.
  intros Htyped. unfold _prepare_attributes_for_advertisement.
  rewrite (prepare_loop_spec self session attributes Htyped). cbn [mbind option_bind].
  eauto.
Qed.

Section AdvertiseComplete.
Variable apply_export_policy : BGPRoute -> string -> option BGPRoute.
Variable attribute_values : PathAttributes -> list PathAttribute.
Variable self : BGPAgent.
Variable changed_prefixes : list string.
Hypothesis Htyped : forall attrs, Forall as_path_typed (attribute_values attrs).

Lemma update_attributes_returns (session : BGPSession) (n : list string) :
  is_Some (update_attributes attribute_values self session n changed_prefixes).
Proof.
  unfold update_attributes.
  destruct n as [|first n]; [eauto|].
  destruct changed_prefixes as [|c cs]; [eauto|].
  destruct (loc_rib self !! first) as [route|]; [|eauto].
  destruct (_prepare_attributes_for_advertisement_returns self
              (attribute_values (path_attributes route)) session (Htyped _))
    as [modified ->].
  cbn. eauto.
Qed.

Lemma advertise_loop_complete (ss : list (string * BGPSession)) :
  forall sent,
    adv_raised (advertise_loop apply_export_policy attribute_values self
                  changed_prefixes ss sent) = false
    /\ (forall key session,
          In (key, session) ss ->
          is_established session = true ->
          has_news apply_export_policy self changed_prefixes session ->
          exists update,
            In (key, update)
               (adv_sent (advertise_loop apply_export_policy attribute_values self
                            changed_prefixes ss sent))).
Proof.
  induction ss as [|[key session] ss IH]; intros sent.
  - cbn. split; [reflexivity|]. intros ? ? [].
  - cbn [advertise_loop].
    destruct (is_established session) eqn:Hest; cbn [negb].
    + rewrite fold_advertise_prefix. cbn [fst snd app].
      assert (Hnews : has_news apply_export_policy self changed_prefixes session ->
                List.filter (announced_to apply_export_policy self session)
                  changed_prefixes <> []
                \/ List.filter (withdrawn_for self) changed_prefixes <> [])
        by (intros H; exact H).
      set (n := List.filter (announced_to apply_export_policy self session)
                  changed_prefixes) in *.
      set (w := List.filter (withdrawn_for self) changed_prefixes) in *.
      clearbody n w.
      destruct (update_attributes_returns session n) as [d Hattrs].
      assert (Hsend :
        adv_raised
          match update_attributes attribute_values self session n changed_prefixes with
          | Some path_attrs_dict =>
              advertise_loop apply_export_policy attribute_values self
                changed_prefixes ss
                (sent ++ [(key, mkBGPUpdate w path_attrs_dict n)])
          | None => mkAdvertised sent true
          end = false
        /\ (forall key0 session0,
              In (key0, session0) ((key, session) :: ss) ->
              is_established session0 = true ->
              has_news apply_export_policy self changed_prefixes session0 ->
              exists update,
                In (key0, update)
                   (adv_sent
                      match update_attributes attribute_values self session n
                              changed_prefixes with
                      | Some path_attrs_dict =>
                          advertise_loop apply_export_policy attribute_values self
                            changed_prefixes ss
                            (sent ++ [(key, mkBGPUpdate w path_attrs_dict n)])
                      | None => mkAdvertised sent true
                      end))).
      { rewrite Hattrs.
        destruct (IH (sent ++ [(key, mkBGPUpdate w d n)])) as [Hraised Hall].
        split; [assumption|].
        intros key0 session0 [Heq|Hin] Hest0 Hne.
        - injection Heq as <- <-. exists (mkBGPUpdate w d n).
          destruct (advertise_loop_sent apply_export_policy attribute_values self
                      changed_prefixes ss (sent ++ [(key, mkBGPUpdate w d n)]))
            as (more & -> & _).
          apply in_or_app. left. apply in_or_app. right. left. reflexivity.
        - exact (Hall _ _ Hin Hest0 Hne). }
      destruct n as [|p n'], w as [|q w']; try exact Hsend.
      destruct (IH sent) as [Hraised Hall]. split; [assumption|].
      intros key0 session0 [Heq|Hin] Hest0 Hne.
      * injection Heq as <- <-. exfalso.
        destruct (Hnews Hne) as [Hn|Hw]; [apply Hn | apply Hw]; reflexivity.
      * exact (Hall _ _ Hin Hest0 Hne).
    + destruct (IH sent) as [Hraised Hall]. split; [assumption|].
      intros key0 session0 [Heq|Hin] Hest0 Hne.
      * injection Heq as <- <-. congruence.
      * exact (Hall _ _ Hin Hest0 Hne).
Qed.

Lemma _advertise_routes_reaches (key : string) (session : BGPSession) :
  sessions self !! key = Some session ->
  is_established session = true ->
  (exists p,
     In p changed_prefixes /\ char_in ":" p = false
     /\ (loc_rib self !! p = None
         \/ exists route,
              loc_rib self !! p = Some route
              /\ _should_advertise_to_peer self route session = true
              /\ is_Some (apply_export_policy route (session_peer_id session)))) ->
  exists update,
    In (key, update)
       (adv_sent (_advertise_routes apply_export_policy attribute_values self
                    changed_prefixes)).
Proof.
  intros Hkey Hest (p & Hin & Hcolon & Hcase).
  unfold _advertise_routes.
  destruct (advertise_loop_complete (map_to_list (sessions self)) []) as [_ Hall].
  apply (Hall key session).
  - apply list_elem_of_In, elem_of_map_to_list. assumption.
  - assumption.
  - unfold has_news. destruct Hcase as [Hnone|(route & Hroute & Hadv & Hpol)].
    + right. intros Hempty.
      assert (Hp : In p (List.filter (withdrawn_for self) changed_prefixes)).
      { apply filter_In. split; [assumption|]. unfold withdrawn_for.
        rewrite Hnone, Hcolon. reflexivity. }
      rewrite Hempty in Hp. destruct Hp.
    + left. intros Hempty.
      assert (Hp : In p (List.filter (announced_to apply_export_policy self session)
                           changed_prefixes)).
      { apply filter_In. split; [assumption|]. unfold announced_to.
        rewrite Hroute, Hcolon, Hadv. cbn. apply bool_decide_eq_true. assumption. }
      rewrite Hempty in Hp. destruct Hp.
Qed.

(** X24.  When the attributes of the Loc-RIB routes hold AS_PATH objects
    under the AS_PATH code, [_advertise_routes] does not raise and leaves
    out no one: every established session for which some changed prefix
    without a colon is gone from the Loc-RIB, or has a route that may be
    advertised to it and passes the export policy, is sent an UPDATE. *)
Theorem _advertise_routes_complete (key : string) (session : BGPSession) :
  sessions self !! key = Some session ->
  is_established session = true ->
  (exists p,
     In p changed_prefixes /\ char_in ":" p = false
     /\ (loc_rib self !! p = None
         \/ exists route,
              loc_rib self !! p = Some route
              /\ _should_advertise_to_peer self route session = true
              /\ is_Some (apply_export_policy route (session_peer_id session)))) ->
  adv_raised (_advertise_routes apply_export_policy attribute_values self
                changed_prefixes) = false
  /\ exists update,
       In (key, update)
          (adv_sent (_advertise_routes apply_export_policy attribute_values self
                       changed_prefixes)).
Proof.
  intros Hkey Hest Hp. split; [|apply (_advertise_routes_reaches key session); assumption].
  unfold _advertise_routes.
  apply (advertise_loop_complete (map_to_list (sessions self)) []).
Qed.

End AdvertiseComplete.

(** X25.  When a session comes up the agent goes through its whole
    Loc-RIB for every established session, not only for the new one: no
    UPDATE it sends withdraws anything, the NLRI for a session are the
    Loc-RIB prefixes without a colon whose route may be advertised to it
    and passes the export policy, and any established session with such a
    prefix is sent an UPDATE, whichever peer the call names. *)
Theorem _on_session_established_resends
    (apply_export_policy : BGPRoute -> string -> option BGPRoute)
    (attribute_values : PathAttributes -> list PathAttribute)
    (self : BGPAgent) (peer_ip : string) :
  (forall attrs, Forall as_path_typed (attribute_values attrs)) ->
  (forall p route, loc_rib self !! p = Some route -> prefix route = p) ->
  let out := _on_session_established apply_export_policy attribute_values self peer_ip in
  (forall key update,
     In (key, update) (adv_sent out) ->
     withdrawn_routes update = []
     /\ exists session,
          sessions self !! key = Some session
          /\ is_established session = true
          /\ forall p,
               In p (nlri update)
               <-> char_in ":" p = false
                   /\ exists route,
                        loc_rib self !! p = Some route
                        /\ _should_advertise_to_peer self route session = true
                        /\ is_Some (apply_export_policy route (session_peer_id session)))
  /\ (forall key session p route,
        sessions self !! key = Some session ->
        is_established session = true ->
        loc_rib self !! p = Some route ->
        char_in ":" p = false ->
        _should_advertise_to_peer self route session = true ->
        is_Some (apply_export_policy route (session_peer_id session)) ->
        exists update, In (key, update) (adv_sent out)).
Proof.
  intros Htyped Hkeyed out.
  set (all_prefixes := prefix <$> (map_to_list (loc_rib self)).*2).
  assert (Hall_prefixes : forall p, In p all_prefixes <-> is_Some (loc_rib self !! p)).
  { intros p. unfold all_prefixes. split.
    - intros Hin. apply list_elem_of_In, list_elem_of_fmap in Hin as (route & -> & Hin).
      apply list_elem_of_fmap in Hin as ([k r] & Heq & Hin). cbn in Heq. subst r.
      apply elem_of_map_to_list in Hin. rewrite <- (Hkeyed _ _ Hin) in Hin. eauto.
    - intros [route Hroute]. apply list_elem_of_In, list_elem_of_fmap.
      exists route. split; [symmetry; apply Hkeyed; assumption|].
      apply list_elem_of_fmap. exists (p, route). split; [reflexivity|].
      apply elem_of_map_to_list. assumption. }
  assert (Hout : adv_sent out
                 = adv_sent (_advertise_routes apply_export_policy attribute_values self
                               all_prefixes)).
  { unfold out, _on_session_established. fold all_prefixes.
    destruct all_prefixes as [|p ps] eqn:Hps; [|reflexivity].
    cbn [adv_sent].
    destruct (_advertise_routes_sent apply_export_policy attribute_values self [])
      as [_ Hall].
    destruct (adv_sent (_advertise_routes apply_export_policy attribute_values self []))
      as [|[key update] more]; [reflexivity|].
    exfalso. destruct (Hall key update) as (session & _ & _ & Hnlri & Hwith & Hne & _);
      [left; reflexivity|].
    cbn in Hnlri, Hwith. rewrite Hnlri, Hwith in Hne.
    destruct Hne as [Hne|Hne]; apply Hne; reflexivity. }
  split.
  - intros key update Hin. rewrite Hout in Hin.
    destruct (_advertise_routes_sent apply_export_policy attribute_values self
                all_prefixes) as [_ Hall].
    destruct (Hall _ _ Hin) as (session & Hs & Hest & Hnlri & Hwith & _).
    split.
    + rewrite Hwith.
      destruct (List.filter (withdrawn_for self) all_prefixes) as [|q qs] eqn:Hf;
        [reflexivity|].
      exfalso.
      assert (Hq : In q (List.filter (withdrawn_for self) all_prefixes))
        by (rewrite Hf; left; reflexivity).
      apply filter_In in Hq as [Hq Hgone]. apply Hall_prefixes in Hq as [route Hq].
      unfold withdrawn_for in Hgone. rewrite Hq in Hgone. discriminate.
    + exists session. split; [assumption|]. split; [assumption|].
      intros p. rewrite Hnlri, filter_In. unfold announced_to. split.
      * intros [_ Hann]. destruct (loc_rib self !! p) as [route|]; [|discriminate].
        rewrite !andb_true_iff, negb_true_iff, bool_decide_eq_true in Hann.
        destruct Hann as [[Hc Hadv] Hpol]. split; [assumption|]. exists route. auto.
      * intros (Hc & route & Hroute & Hadv & Hpol). split.
        { apply Hall_prefixes. eauto. }
        rewrite Hroute, Hc, Hadv. cbn. apply bool_decide_eq_true. assumption.
  - intros key session p route Hkey Hest Hroute Hcolon Hadv Hpol. rewrite Hout.
    apply (_advertise_routes_reaches apply_export_policy attribute_values self
             all_prefixes Htyped key session Hkey Hest).
    exists p. split; [apply Hall_prefixes; eauto|]. split; [assumption|].
    right. exists route. auto.
Qed.

(** ** The selector's own decision process *)

Section SelectorDecisionFacts.
Context {E : Externals}.
Variable self : BGPAgent.
Variable key : string.
Variable session : BGPSession.
Hypothesis Hsessions : sessions self = {[ key := session ]}.
Hypothesis Hestablished : is_established session = true.
Hypothesis Hpolicy :
  forall route, import_policy self route (session_peer_id session) = Some route.






End SelectorDecisionFacts.

(** ** Worked instances *)

Lemma select_best_keeps_first_witness :
  select_best (E := cpython) example_selector [route_A; route_B] = Some route_A.
Proof.
  apply (select_best_keeps_first (E := cpython) example_selector route_A [route_B]).
  intros c [<-|[]]. vm_compute. intros Hgt. discriminate Hgt.
Defined.

Lemma select_best_highest_local_pref_witness :
  select_best (E := cpython) example_selector
    ([route_C] ++ advertised_again :: [route_A]) = Some advertised_again.
Proof.
  apply (select_best_highest_local_pref (E := cpython) example_selector
           [route_C] [route_A] advertised_again).
  intros c [<-|[<-|[]]]; vm_compute; reflexivity.
Defined.

Lemma originating_agent_untouched :
  "10.99.99.0/24"%string ∉ all_prefixes originating_agent.
Proof.
  unfold all_prefixes, originating_agent, announced_agent, example_agent. cbn.
  rewrite map_to_list_singleton. cbn. unfold get_prefixes. cbn.
  rewrite dom_singleton_L. intros Hin.
  apply elem_of_union in Hin as [Hin|Hin];
    [exact (not_elem_of_empty _ Hin) | apply elem_of_singleton in Hin; discriminate Hin].
Qed.

Lemma _run_decision_process_untouched_witness :
  loc_rib (fst (_run_decision_process (E := cpython) originating_agent))
    !! "10.99.99.0/24"%string
  = loc_rib originating_agent !! "10.99.99.0/24"%string.
Proof.
  apply (_run_decision_process_untouched (E := cpython) originating_agent
           announced_agent_keyed "10.99.99.0/24").
  exact originating_agent_untouched.
Defined.

Lemma _run_decision_process_changed_witness :
  ("10.0.0.0/8"%string ∈ ds_changed (snd (_run_decision_process (E := cpython)
                                             announced_agent))
   <-> loc_rib (fst (_run_decision_process (E := cpython) announced_agent))
         !! "10.0.0.0/8"%string
       <> loc_rib announced_agent !! "10.0.0.0/8"%string)
  /\ NoDup (ds_changed (snd (_run_decision_process (E := cpython) announced_agent))).
Proof.
  exact (_run_decision_process_changed (E := cpython) announced_agent
           announced_agent_keyed "10.0.0.0/8").
Defined.

Lemma _run_decision_process_twice_witness :
  let once := fst (_run_decision_process (E := cpython) announced_agent) in
  loc_rib (fst (_run_decision_process (E := cpython) once)) = loc_rib once
  /\ ds_changed (snd (_run_decision_process (E := cpython) once)) = [].
Proof.
  exact (_run_decision_process_twice (E := cpython) announced_agent
           announced_agent_keyed).
Defined.

Lemma originate_route_installs_witness :
  let out := originate_route (E := cpython) one_peer_agent "10.99.99.0/24" None 100
               ORIGIN_IGP 0 true in
  loc_rib (or_agent out) !! "10.99.99.0/24"%string
  = Some (local_route_for one_peer_agent "10.99.99.0/24" 24 "4.4.4.4" 100 ORIGIN_IGP 0)
  /\ or_result out = true.
Proof.
  destruct (originate_route_installs (E := cpython) one_peer_agent "10.99.99.0/24"
              None 100 ORIGIN_IGP 0 true 24) as (Hrib & _ & _ & Hres & _).
  - vm_compute. reflexivity.
  - split; [exact Hrib | exact Hres].
Defined.

Lemma originate_route_then_decision_witness :
  loc_rib (fst (_run_decision_process (E := cpython)
                  (or_agent (originate_route (E := cpython) announced_agent
                               "10.0.0.0/8" None 200 ORIGIN_IGP 0 true))))
    !! "10.0.0.0/8"%string
  = Some advertised_first.
Proof.
  apply (originate_route_then_decision (E := cpython) announced_agent "10.0.0.0/8"
           None 200 ORIGIN_IGP 0 true 8 advertised_first).
  - exact announced_agent_keyed.
  - vm_compute. reflexivity.
  - apply elem_of_all_prefixes.
    eexists _, _. split; [apply lookup_singleton_eq|].
    split; [reflexivity|]. simpl. rewrite lookup_singleton_eq. eauto.
  - vm_compute. reflexivity.
  - intros Heq. discriminate Heq.
Defined.

Lemma originate_route_get_rib_witness :
  get_rib (E := cpython)
    (mkBGPSpeaker 65001
       (or_agent (originate_route (E := cpython) one_peer_agent "10.99.99.0/24" None
                    100 ORIGIN_IGP 0 true)) None)
    (Some "10.99.99.0/24"%string)
  = [mkRibEntry "10.99.99.0/24" "4.4.4.4" [] 100 0 "0" []].
Proof.
  rewrite (originate_route_get_rib (E := cpython) one_peer_agent "10.99.99.0/24" None
             100 ORIGIN_IGP 0 true 24 65001 None).
  - vm_compute. reflexivity.
  - vm_compute. reflexivity.
  - vm_compute. reflexivity.
Defined.

Lemma mesh_index_consistent_witness :
  mesh_consistent (fst (add_peer (mesh_agent STATE_IDLE) (config second_mesh_session)
                          second_mesh_session))
  /\ mesh_consistent (fst (remove_peer (mesh_agent STATE_IDLE) "mesh-as65002" true)).
Proof.
  apply (mesh_index_consistent (mesh_agent STATE_IDLE) (config second_mesh_session)
           second_mesh_session "mesh-as65002" true).
  - apply mesh_agent_consistent.
  - reflexivity.
Defined.

Lemma add_then_remove_peer_witness :
  let added := fst (add_peer (mesh_agent STATE_IDLE) (config second_mesh_session)
                      second_mesh_session) in
  let removed := fst (remove_peer added "mesh-as65003" true) in
  sessions removed = sessions (mesh_agent STATE_IDLE)
  /\ mesh_get removed 65003 = None.
Proof.
  destruct (add_then_remove_peer (mesh_agent STATE_IDLE) (config second_mesh_session)
              second_mesh_session true) as (Hsessions & _ & _ & Hmesh).
  - apply mesh_agent_consistent.
  - vm_compute. reflexivity.
  - split; [exact Hsessions | apply Hmesh; reflexivity].
Defined.

Lemma rib_canonical_empty {E : Externals} : rib_canonical ∅.
Proof. intros p len afi safi [info Hget]. rewrite lookup_empty in Hget. discriminate. Qed.

Lemma reads_as_example : reads_as (E := cpython) "10.1.0.0/16" "10.1.0.0" 16.
Proof. exists "16"%string. split; vm_compute; reflexivity. Qed.

Lemma shadow_table_canonical_witness :
  rib_canonical (E := cpython)
    (shadow_table (fst (inject_route (E := cpython) example_speaker "10.1.0.0/16"
                          None None ∅)))
  /\ rib_canonical (E := cpython)
       (shadow_table (fst (withdraw_route (E := cpython) example_speaker "10.1.0.0/16")))
  /\ rib_canonical (E := cpython)
       (shadow_table (fst (adjust_local_pref (E := cpython) example_speaker
                             "10.1.0.0/16" 200))).
Proof.
  apply (shadow_table_canonical (E := cpython) example_speaker "10.1.0.0/16" None None
           ∅ 200).
  exact rib_canonical_empty.
Defined.

Lemma inject_then_withdraw_witness :
  let injected := fst (inject_route (E := cpython) example_speaker "10.1.0.0/16"
                         None None ∅) in
  snd (withdraw_route (E := cpython) injected "10.1.0.0/16")
  = Returns (WithdrawSuccess "10.1.0.0/16")
  /\ shadow_table (fst (withdraw_route (E := cpython) injected "10.1.0.0/16"))
     = shadow_table example_speaker.
Proof.
  destruct (inject_then_withdraw (E := cpython) example_speaker "10.1.0.0/16" None None
              ∅ "10.1.0.0" 16 1) as (Hres & _ & Hfresh & _).
  - exact rib_canonical_empty.
  - exact reads_as_example.
  - vm_compute. reflexivity.
  - split; [exact Hres | apply Hfresh; apply lookup_empty].
Defined.

Lemma withdraw_route_not_found_witness :
  withdraw_route (E := cpython) example_speaker "10.1.0.0/16"
  = (example_speaker, Returns (Failure "Route not found"))
  /\ adjust_local_pref (E := cpython) example_speaker "10.1.0.0/16" 200
     = (example_speaker, AdjustReturns (AdjustFailure "Route not found")).
Proof.
  apply (withdraw_route_not_found (E := cpython) example_speaker "10.1.0.0/16"
           "10.1.0.0" 16 200).
  - exact reads_as_example.
  - intros afi safi. apply lookup_empty.
Defined.

Lemma adjust_local_pref_after_inject_witness :
  let injected := fst (inject_route (E := cpython) example_speaker "10.1.0.0/16"
                         None None ∅) in
  snd (adjust_local_pref (E := cpython) injected "10.1.0.0/16" 200)
  = AdjustReturns (AdjustSuccess "10.1.0.0/16" (PyInt 100) 200)
  /\ get_rib (E := cpython)
       (fst (adjust_local_pref (E := cpython) injected "10.1.0.0/16" 200)) None
     = get_rib (E := cpython) example_speaker None.
Proof.
  destruct (adjust_local_pref_after_inject (E := cpython) example_speaker "10.1.0.0/16"
              None None ∅ "10.1.0.0" 16 1 200 None) as (Hres & _ & _ & Hrib).
  - exact rib_canonical_empty.
  - exact reads_as_example.
  - vm_compute. reflexivity.
  - split; [exact Hres | exact Hrib].
Defined.

Lemma _advertise_routes_targets_witness :
  (exists session,
     sessions two_peer_agent !! "192.0.2.2"%string = Some session
     /\ is_established session = true)
  /\ (nlri example_update <> [] \/ withdrawn_routes example_update <> []).
Proof.
  destruct (_advertise_routes_targets export_all recognised_values two_peer_agent
              example_changed "192.0.2.2" example_update) as (Hsession & Hnews & _).
  - vm_compute. right. left. reflexivity.
  - split; [exact Hsession | exact Hnews].
Defined.

Lemma _advertise_routes_contents_witness :
  source advertised_first = "local"%string
  \/ peer_id advertised_first
     <> session_peer_id
          (example_session "192.0.2.2" 65020 false false STATE_ESTABLISHED).
Proof.
  destruct (_advertise_routes_contents export_all recognised_values two_peer_agent
              example_changed "192.0.2.2" example_update
              (example_session "192.0.2.2" 65020 false false STATE_ESTABLISHED))
    as (_ & _ & Hsplit).
  - vm_compute. right. left. reflexivity.
  - vm_compute. reflexivity.
  - apply (Hsplit "10.0.0.0/8"%string advertised_first).
    + left. reflexivity.
    + vm_compute. reflexivity.
Defined.

Lemma _advertise_routes_attributes_witness :
  exists route modified,
    loc_rib two_peer_agent !! "10.0.0.0/8"%string = Some route
    /\ _prepare_attributes_for_advertisement two_peer_agent
         (recognised_values (path_attributes route))
         (example_session "192.0.2.2" 65020 false false STATE_ESTABLISHED)
       = Some modified
    /\ update_path_attributes example_update = attrs_dict modified.
Proof.
  pose proof (_advertise_routes_attributes export_all recognised_values two_peer_agent
                example_changed "192.0.2.2" example_update
                (example_session "192.0.2.2" 65020 false false STATE_ESTABLISHED))
    as Hattrs.
  destruct Hattrs as (route & modified & Hroute & Hprep & Hdict & _).
  - vm_compute. right. left. reflexivity.
  - vm_compute. reflexivity.
  - exists route, modified. split; [exact Hroute|]. split; [exact Hprep | exact Hdict].
Defined.

Lemma _advertise_routes_policy_filters_witness :
  _advertise_routes export_all recognised_values two_peer_agent example_changed
  = _advertise_routes export_fresh recognised_values two_peer_agent example_changed.
Proof.
  apply (_advertise_routes_policy_filters export_all export_fresh recognised_values
           two_peer_agent example_changed).
  intros route peer. split; intros _; eexists; reflexivity.
Defined.

Lemma _prepare_attributes_for_advertisement_mandatory_witness :
  exists modified,
    _prepare_attributes_for_advertisement (example_agent "4.4.4.4" ∅ ∅)
      [MEDAttribute 5]
      (example_session "192.0.2.2" 65020 false false STATE_ESTABLISHED)
    = Some modified
    /\ (exists attr, In attr modified /\ type_code attr = ATTR_NEXT_HOP)
    /\ (forall attr, In attr modified -> type_code attr = ATTR_NEXT_HOP ->
          attr = NextHopAttribute "172.16.0.2").
Proof.
  destruct (_prepare_attributes_for_advertisement_mandatory
              (example_agent "4.4.4.4" ∅ ∅) [MEDAttribute 5]
              (example_session "192.0.2.2" 65020 false false STATE_ESTABLISHED))
    as (modified & Hprep & _ & _ & Hnh & Hself).
  - constructor; [|constructor]. intros Hcode. discriminate Hcode.
  - exists modified. split; [exact Hprep|]. split; [exact Hnh | exact Hself].
Defined.

Lemma decision_cycle_messages_witness :
  let first := decision_cycle (E := cpython) export_all recognised_values
                 announced_agent in
  (decision_cycle (E := cpython) export_all recognised_values first.1.1).2
  = mkAdvertised [] false.
Proof.
  destruct (decision_cycle_messages (E := cpython) export_all recognised_values
              announced_agent announced_agent_keyed) as (_ & Hquiet & _).
  exact Hquiet.
Defined.

Lemma recognised_values_typed (attrs : PathAttributes) :
  Forall as_path_typed (recognised_values attrs).
Proof.
  unfold recognised_values.
  destruct attrs as [o p n m l other]. cbn.
  repeat (apply Forall_app; split);
    match goal with
    | |- Forall _ (option_list (_ <$> ?x)) => destruct x; cbn; repeat constructor
    end;
    intros Hcode; try discriminate Hcode; eauto.
Qed.

Lemma two_peer_agent_keyed (p : string) (route : BGPRoute) :
  loc_rib two_peer_agent !! p = Some route -> prefix route = p.
Proof.
  unfold two_peer_agent. cbn. intros Hget.
  apply lookup_insert_Some in Hget as [[<- <-]|[_ Hget]]; [reflexivity|].
  apply lookup_singleton_Some in Hget as [<- <-]. reflexivity.
Qed.

Lemma _advertise_routes_complete_witness :
  adv_raised (_advertise_routes export_all recognised_values two_peer_agent
                example_changed) = false
  /\ exists update,
       In ("192.0.2.1"%string, update)
          (adv_sent (_advertise_routes export_all recognised_values two_peer_agent
                       example_changed)).
Proof.
  apply (_advertise_routes_complete export_all recognised_values two_peer_agent
           example_changed recognised_values_typed "192.0.2.1"
           (set_adj_rib_in
              (example_session "192.0.2.1" 65010 false false STATE_ESTABLISHED)
              {[ "10.0.0.0/8"%string := [advertised_first] ]})).
  - vm_compute. reflexivity.
  - reflexivity.
  - exists "10.1.0.0/16"%string. split; [right; right; left; reflexivity|].
    split; [reflexivity|]. left. vm_compute. reflexivity.
Defined.

Lemma _on_session_established_resends_witness :
  exists update,
    In ("192.0.2.1"%string, update)
       (adv_sent (_on_session_established export_all recognised_values two_peer_agent
                    "192.0.2.2")).
Proof.
  destruct (_on_session_established_resends export_all recognised_values
              two_peer_agent "192.0.2.2" recognised_values_typed two_peer_agent_keyed)
    as [_ Hreach].
  apply (Hreach "192.0.2.1"%string
           (set_adj_rib_in
              (example_session "192.0.2.1" 65010 false false STATE_ESTABLISHED)
              {[ "10.0.0.0/8"%string := [advertised_first] ]})
           "10.99.99.0/24"%string local_route).
  - vm_compute. reflexivity.
  - reflexivity.
  - vm_compute. reflexivity.
  - reflexivity.
  - reflexivity.
  - eexists. reflexivity.
Defined.


Lemma _handle_incoming_connection_turned_away_witness :
  let conn := example_connection "203.0.113.7" 0 (open_bytes Byte.xfd Byte.xea) in
  snd (_handle_incoming_connection (E := cpython) (mesh_agent STATE_ESTABLISHED) conn)
  = [WriterClose 2]
  /\ mesh_sessions (fst (_handle_incoming_connection (E := cpython)
                           (mesh_agent STATE_ESTABLISHED) conn))
     = mesh_sessions (mesh_agent STATE_ESTABLISHED).
Proof.
  intros conn.
  destruct (_handle_incoming_connection_turned_away (E := cpython)
              (mesh_agent STATE_ESTABLISHED) conn) as (Hactions & Hmesh & _).
  - intros key rd w collision Hin. vm_compute in Hin.
    destruct Hin as [Habs|[]]. discriminate Habs.
  - split; [exact Hactions | exact Hmesh].
Defined.
